(** * HEDO: glove-driven pilot client for a quadcopter

    A shallow embedding of [HEDO.py]: the HTTP pilot client
    ([HTTPClient]: [_authenticate], [update_pilot_status], [takeoff],
    [land], [disable_faults], [get_blocking_faults]), the glove calibration
    procedure ([calibrate]) and the two per-hand input loops ([left_hand],
    [right_hand]) with their gesture decision lists.

    Modelling conventions.
    - Sensor readings and thresholds are Python floats in the source; they
      are rationals ([Q]) here, so every comparison is exact.
    - The vehicle and the gloves are the environment.  The vehicle is a
      script of status replies and one of fault lists, consumed one per
      request; a request whose reply never comes blocks for ever
      ([Starved]).  A glove is a link that is up or down at each driver
      call, and two sensor streams.
    - Transport is taken to be reliable: every request sent is answered by a
      well-formed reply.
    - Everything the program does to the outside is recorded, in order, as a
      list of [Event]s; [Call] events are ghost markers put at the entry of
      [takeoff] and [land].
    - The operator interrupt ([KeyboardInterrupt]) is asynchronous and is not
      modelled; a loop that the source runs for ever is observed for a given
      number of iterations. *)

From Stdlib Require Import List String ZArith QArith Qround Bool Arith Lia Lqa.
Import ListNotations.

Local Open Scope string_scope.

(* ================================================================== *)
(** * Events, outcomes, the world *)

Inductive Hand := LeftHand | RightHand.

(** The calls of the glove driver that the program uses. *)
Inductive GloveCall :=
| SelectHapticWave (actuator wave : nat)
| SendHaptic (actuator note amplitude : nat)
| SilenceHaptics
| GetFingersNormalized
| GetEulerAngles
| CalibrateFlat
| HomeIMU.

(** The requests of the vehicle API that the program sends
    ([request_json endpoint json_data]). *)
Inductive Request :=
| authentication (client_id : string) (requested_level : Z)
                 (credentials : option string)
| status (sessionId : option string)
| async_command (command : string)
| set_fault_override (fault_id : Z)
| active_faults.

Inductive Method := m_takeoff | m_land.

Inductive Event :=
| Http (r : Request)
| Out (s : string)                      (* fmt_out, print *)
| Err (s : string)                      (* fmt_err *)
| Sleep (seconds : Q)
| Glove (h : Hand) (c : GloveCall)      (* a driver call that returned *)
| Disconnected (h : Hand) (c : GloveCall)
                                        (* a driver call that raised
                                           GloveDisconnectedException *)
| Call (m : Method).                    (* ghost: entry of client.m() *)

Inductive Exn := GloveDisconnectedException.

Inductive Outcome (A : Type) :=
| Ret (a : A)            (* returned normally *)
| Raise (e : Exn)        (* an exception propagates *)
| Exit (code : Z)        (* sys.exit(code) *)
| Starved                (* blocked on a reply that never comes *)
| OutOfFuel.             (* observation of an unbounded loop cut off *)
Arguments Ret {A} a.
Arguments Raise {A} e.
Arguments Exit {A} code.
Arguments Starved {A}.
Arguments OutOfFuel {A}.

(** The fields of [HTTPClient] that the flight code reads and writes. *)
Record Session := mkSession {
  client_id : string;
  access_token : option string;
  access_level : option string;
  session_id : option string
}.

(** Reply to [authentication]: the two keys read with [response.get]. *)
Record AuthReply := mkAuthReply {
  accessLevel : option string;
  accessToken : option string
}.

(** Reply to [status]: [sessionId] is read with [response['sessionId']],
    [flightPhase] with [.get('flightPhase')]. *)
Record StatusReply := mkStatusReply {
  sessionId : string;
  flightPhase : option string
}.

(** One entry of the [faults] dictionary of an [active_faults] reply. *)
Record Fault := mkFault { name : string; relevant : bool }.

Record Fingers := mkFingers { fin0 : Q; fin1 : Q; fin2 : Q; fin3 : Q; fin4 : Q }.
Record Euler := mkEuler { eul0 : Q; eul1 : Q; eul2 : Q }.

(** A glove: [link n] tells whether the [n]-th driver call finds the glove
    connected; the sensor streams are indexed by the number of reads that
    returned so far. *)
Record GloveIO := mkGloveIO {
  link : nat -> bool;
  flexion : nat -> Fingers;
  orientation : nat -> Euler;
  calls : nat;
  flex_reads : nat;
  imu_reads : nat
}.

Record World := mkWorld {
  client : Session;
  auth_reply : AuthReply;
  statuses : list StatusReply;
  fault_replies : list (list Fault);
  leftHand : GloveIO;
  rightHand : GloveIO
}.

Definition set_client (s : Session) (w : World) : World :=
  mkWorld s (auth_reply w) (statuses w) (fault_replies w) (leftHand w) (rightHand w).
Definition set_statuses (l : list StatusReply) (w : World) : World :=
  mkWorld (client w) (auth_reply w) l (fault_replies w) (leftHand w) (rightHand w).
Definition set_fault_replies (l : list (list Fault)) (w : World) : World :=
  mkWorld (client w) (auth_reply w) (statuses w) l (leftHand w) (rightHand w).
Definition glove (h : Hand) (w : World) : GloveIO :=
  match h with LeftHand => leftHand w | RightHand => rightHand w end.
Definition set_glove (h : Hand) (g : GloveIO) (w : World) : World :=
  match h with
  | LeftHand =>
      mkWorld (client w) (auth_reply w) (statuses w) (fault_replies w) g (rightHand w)
  | RightHand =>
      mkWorld (client w) (auth_reply w) (statuses w) (fault_replies w) (leftHand w) g
  end.

(* ================================================================== *)
(** * The monad: world passing, early exit, emitted events *)

Record Result (A : Type) := mkResult {
  out : Outcome A;
  world : World;
  events : list Event
}.
Arguments mkResult {A} out world events.
Arguments out {A} r.
Arguments world {A} r.
Arguments events {A} r.

Definition M (A : Type) : Type := World -> Result A.

Definition ret {A} (a : A) : M A := fun w => mkResult (Ret a) w [].

Definition bind {A B} (m : M A) (k : A -> M B) : M B := fun w =>
  let r := m w in
  match out r with
  | Ret a =>
      let r' := k a (world r) in
      mkResult (out r') (world r') (events r ++ events r')
  | Raise e => mkResult (Raise e) (world r) (events r)
  | Exit c => mkResult (Exit c) (world r) (events r)
  | Starved => mkResult Starved (world r) (events r)
  | OutOfFuel => mkResult OutOfFuel (world r) (events r)
  end.

Declare Scope monad_scope.
Delimit Scope monad_scope with monad.
Notation "x <- m ;; k" := (bind m (fun x => k))
  (at level 61, m at next level, right associativity) : monad_scope.
Notation "m ;; k" := (bind m (fun _ => k))
  (at level 61, right associativity) : monad_scope.
Local Open Scope monad_scope.

Definition emit (e : Event) : M unit := fun w => mkResult (Ret tt) w [e].
Definition stop {A} (o : Outcome A) : M A := fun w => mkResult o w [].

(** [try: m except GloveDisconnectedException: h]. *)
Definition try_except (m : M unit) (h : M unit) : M unit := fun w =>
  let r := m w in
  match out r with
  | Raise GloveDisconnectedException =>
      let r' := h (world r) in
      mkResult (out r') (world r') (events r ++ events r')
  | _ => r
  end.

(** [for i in range(n): body i]. *)
Fixpoint for_range (l : list nat) (body : nat -> M unit) : M unit :=
  match l with
  | [] => ret tt
  | i :: l' => body i ;; for_range l' body
  end.

Definition fmt_out (s : string) : M unit := emit (Out s).
Definition fmt_err (s : string) : M unit := emit (Err s).
Definition print (s : string) : M unit := emit (Out s).
Definition sleep (seconds : Q) : M unit := emit (Sleep seconds).

Definition get_world : M World := fun w => mkResult (Ret w) w [].
Definition modify (f : World -> World) : M unit :=
  fun w => mkResult (Ret tt) (f w) [].
Definition put_client (s : Session) : M unit := modify (set_client s).

(** End of line, the [\n] of the source's format strings. *)
Definition nl : string := String (Ascii.ascii_of_nat 10) EmptyString.

(** Python truth value of an optional string: [None] and [''] are false. *)
Definition truthy (o : option string) : bool :=
  match o with
  | Some s => negb (s =? "")
  | None => false
  end.

(** [x != 'PILOT'] for a value that is a string or [None]. *)
Definition differs (o : option string) (s : string) : bool :=
  match o with
  | Some x => negb (x =? s)
  | None => true
  end.

(** [str(x)] as [format] prints it. *)
Definition show (o : option string) : string :=
  match o with
  | Some s => s
  | None => "None"
  end.

(* ================================================================== *)
(** * HTTPClient *)

(** A token file as the client sees it: its path and, when the path exists,
    what reading it returns. *)
Record TokenFile := mkTokenFile {
  path : string;
  contents : option string
}.

Section Authentication.

(** [str.strip] of the Python library. *)
Variable strip : string -> string.

(** [HTTPClient._authenticate] (lines 86-109). *)
Definition _authenticate (pilot : bool) (token_file : option TokenFile) : M unit :=
  w <- get_world ;;
  let requested_level := if pilot then 8%Z else 4%Z in
  credentials <-
    match token_file with
    | Some f =>
        match contents f with
        | None =>
            fmt_err ("Token file does not exist: " ++ path f ++ nl) ;;
            stop (Exit 1)
        | Some token => ret (Some (strip token))
        end
    | None => ret None
    end ;;
  emit (Http (authentication (client_id (client w)) requested_level credentials)) ;;
  let response := auth_reply w in
  let c1 := mkSession (client_id (client w)) (access_token (client w))
                      (accessLevel response) (session_id (client w)) in
  put_client c1 ;;
  (if pilot && differs (access_level c1) "PILOT"
   then fmt_err ("Did not successfully auth as pilot" ++ nl) ;; stop (Exit 1)
   else ret tt) ;;
  let c2 := mkSession (client_id c1) (accessToken response)
                      (access_level c1) (session_id c1) in
  put_client c2 ;;
  fmt_out ("Received access token:" ++ nl ++ show (access_token c2) ++ nl).

(** [HTTPClient.__init__] (lines 77-84); [cid] is the [client_id] given, or
    the fresh uuid. *)
Definition HTTPClient (cid : string) (pilot : bool)
           (token_file : option TokenFile) : M unit :=
  put_client (mkSession cid None None None) ;;
  _authenticate pilot token_file.

End Authentication.

(** [if self.session_id: args['sessionId'] = self.session_id]: the id is
    sent when it is set and not empty. *)
Definition if_set (o : option string) : option string :=
  if truthy o then o else None.

(** [HTTPClient.update_pilot_status] (lines 200-218). *)
Definition update_pilot_status : M StatusReply :=
  w <- get_world ;;
  emit (Http (status (if_set (session_id (client w))))) ;;
  match statuses w with
  | [] => stop Starved
  | response :: rest =>
      modify (set_statuses rest) ;;
      put_client (mkSession (client_id (client w)) (access_token (client w))
                            (access_level (client w)) (Some (sessionId response))) ;;
      ret response
  end.

(** [HTTPClient.get_blocking_faults] (lines 279-281). *)
Definition get_blocking_faults : M (list string) :=
  w <- get_world ;;
  emit (Http active_faults) ;;
  match fault_replies w with
  | [] => stop Starved
  | faults :: rest =>
      modify (set_fault_replies rest) ;;
      ret (map name (filter relevant faults))
  end.

(** [HTTPClient.disable_faults] (lines 283-292): the two phone-link faults,
    ids 2 and 3. *)
Definition disable_faults : M unit :=
  let faults := [("LOST_PHONE_COMMS_SHORT", 2%Z); ("LOST_PHONE_COMMS_LONG", 3%Z)] in
  fold_right (fun kv k => emit (Http (set_fault_override (snd kv))) ;; k)
             (ret tt) faults.

(** The [while True] loop of [takeoff] (lines 229-252).  Every pass consumes
    one status reply, so [fuel] one above the number of scripted replies is
    never used up. *)
Fixpoint takeoff_loop (fuel : nat) : M unit :=
  match fuel with
  | O => stop OutOfFuel
  | S fuel' =>
      sleep 2 ;;
      response <- update_pilot_status ;;
      let phase := flightPhase response in
      if negb (truthy phase) then takeoff_loop fuel'
      else
        let phase := show phase in
        if phase =? "READY_FOR_GROUND_TAKEOFF" then
          fmt_out ("Publishing ground takeoff" ++ nl) ;;
          emit (Http (async_command "ground_takeoff")) ;;
          takeoff_loop fuel'
        else if phase =? "FLYING" then
          fmt_out ("Flying." ++ nl) ;;
          ret tt
        else if phase =? "REST" then
          fmt_out ("on standby" ++ nl) ;; takeoff_loop fuel'
        else if phase =? "FLIGHT_PROCESSES_CHECK" then
          fmt_out ("Pre-Flight Check in progress" ++ nl) ;; takeoff_loop fuel'
        else if phase =? "PREP" then
          fmt_out ("Calibrating Cameras" ++ nl) ;; takeoff_loop fuel'
        else if phase =? "LOGGING_START" then
          fmt_out ("Initializing flight logs" ++ nl) ;; takeoff_loop fuel'
        else
          faults <- get_blocking_faults ;;
          fmt_out ("Faults = " ++ String.concat "," faults ++ nl) ;;
          takeoff_loop fuel'
  end.

(** [HTTPClient.takeoff] (lines 220-252). *)
Definition takeoff : M unit :=
  emit (Call m_takeoff) ;;
  w <- get_world ;;
  if differs (access_level (client w)) "PILOT" then
    fmt_err ("Cannot takeoff: not pilot" ++ nl)
  else
    update_pilot_status ;;
    disable_faults ;;
    w' <- get_world ;;
    takeoff_loop (S (List.length (statuses w'))).

(** The [while phase == 'FLYING'] loop of [land] (lines 261-268). *)
Fixpoint land_loop (fuel : nat) (phase : string) : M unit :=
  match fuel with
  | O => stop OutOfFuel
  | S fuel' =>
      if phase =? "FLYING" then
        fmt_out ("Sending LAND" ++ nl) ;;
        emit (Http (async_command "land")) ;;
        sleep 1 ;;
        response <- update_pilot_status ;;
        let new_phase := flightPhase response in
        if negb (truthy new_phase) then land_loop fuel' phase
        else land_loop fuel' (show new_phase)
      else ret tt
  end.

(** [HTTPClient.land] (lines 254-268). *)
Definition land : M unit :=
  emit (Call m_land) ;;
  w <- get_world ;;
  if differs (access_level (client w)) "PILOT" then
    fmt_err ("Cannot land: not pilot" ++ nl)
  else
    land_loop (S (List.length (statuses w))) "FLYING".

(* ================================================================== *)
(** * The glove driver *)

(** Haptic playback speed and amplitude (lines 406, 409). *)
Definition note : nat := 60.
Definition amplitude : nat := 1.

(** A driver call on glove [h]: it returns when the link is up at this call
    and raises [GloveDisconnectedException] when it is down. *)
Definition driver (h : Hand) (c : GloveCall) : M unit := fun w =>
  let g := glove h w in
  let g' := mkGloveIO (link g) (flexion g) (orientation g)
                      (S (calls g)) (flex_reads g) (imu_reads g) in
  if link g (calls g)
  then mkResult (Ret tt) (set_glove h g' w) [Glove h c]
  else mkResult (Raise GloveDisconnectedException) (set_glove h g' w)
                [Disconnected h c].

Definition Forte_SelectHapticWave (h : Hand) (i wave : nat) : M unit :=
  driver h (SelectHapticWave i wave).
Definition Forte_SendHaptic (h : Hand) (i n a : nat) : M unit :=
  driver h (SendHaptic i n a).
Definition Forte_SilenceHaptics (h : Hand) : M unit := driver h SilenceHaptics.
Definition Forte_CalibrateFlat (h : Hand) : M unit := driver h CalibrateFlat.
Definition Forte_HomeIMU (h : Hand) : M unit := driver h HomeIMU.

(** The next value of a sensor stream. *)
Definition next_flexion (h : Hand) : M Fingers := fun w =>
  let g := glove h w in
  let g' := mkGloveIO (link g) (flexion g) (orientation g)
                      (calls g) (S (flex_reads g)) (imu_reads g) in
  mkResult (Ret (flexion g (flex_reads g))) (set_glove h g' w) [].

Definition next_orientation (h : Hand) : M Euler := fun w =>
  let g := glove h w in
  let g' := mkGloveIO (link g) (flexion g) (orientation g)
                      (calls g) (flex_reads g) (S (imu_reads g)) in
  mkResult (Ret (orientation g (imu_reads g))) (set_glove h g' w) [].

Definition Forte_GetFingersNormalized (h : Hand) : M Fingers :=
  driver h GetFingersNormalized ;; next_flexion h.

Definition Forte_GetEulerAngles (h : Hand) : M Euler :=
  driver h GetEulerAngles ;; next_orientation h.

Definition range (n : nat) : list nat := seq 0 n.

(* ================================================================== *)
(** * Gestures *)

Local Open Scope Q_scope.

Notation "x <=? y" := (Qle_bool x y) (at level 70, no associativity) : Q_scope.
Notation "x >=? y" := (Qle_bool y x) (at level 70, no associativity) : Q_scope.

(** Python 3 [round(x, 4)]: to the nearest multiple of 1/10000, a tie going
    to the even one. *)
Definition round_half_even (x : Q) : Z :=
  let f := Qfloor x in
  match Qcompare (x - inject_Z f) (1 # 2) with
  | Lt => f
  | Gt => (f + 1)%Z
  | Eq => if Z.even f then f else (f + 1)%Z
  end.
Definition round4 (x : Q) : Q := round_half_even (x * 10000) # 10000.

(** What one pass of an input loop holds in its local variables once it has
    sampled the glove: the five rounded flexions ([Lthumb] ... [Lpinky]) and
    the three angles ([XL], [YL], [ZL] and [XR], [YR], [ZR]). *)
Record HandSnapshot := mkSnapshot {
  thumb : Q; index : Q; middle : Q; ring : Q; pinky : Q;
  angX : Q; angY : Q; angZ : Q
}.

(** Lines 539-551 and 658-670. *)
Definition snapshot (fingers : Fingers) (imu : Euler) : HandSnapshot :=
  {| thumb := round4 (fin0 fingers);
     index := round4 (fin1 fingers);
     middle := round4 (fin2 fingers);
     ring := round4 (fin3 fingers);
     pinky := round4 (fin4 fingers);
     angX := eul2 imu;
     angZ := eul1 imu;
     angY := eul0 imu |}.

(** [Lhand], [Rhand]. *)
Definition hand (s : HandSnapshot) : Q :=
  thumb s + index s + middle s + ring s + pinky s.

Inductive Gesture := THUMBS_UP | PEACE | GO_BULLS | HALT | LAND | NONE.

(** The conditions of the [if]/[elif] chain, one per gesture; those of
    THUMBS-UP and LAND differ between the hands. *)
Definition left_thumbs_up (s : HandSnapshot) : bool :=
  (index s - thumb s >=? 0.243) && (middle s - thumb s >=? 0.243)
  && (ring s - thumb s >=? 0.243) && (pinky s - thumb s >=? 0.243)
  && (angY s >=? 60).

Definition right_thumbs_up (s : HandSnapshot) : bool :=
  (index s - thumb s >=? 0.243) && (middle s - thumb s >=? 0.243)
  && (ring s - thumb s >=? 0.243) && (pinky s - thumb s >=? 0.243)
  && (angY s <=? -60).

Definition peace (s : HandSnapshot) : bool :=
  (ring s - middle s >=? 0.243) && (pinky s - index s >=? 0.243)
  && (thumb s >=? 0.04049).

Definition go_bulls (s : HandSnapshot) : bool :=
  (middle s - index s >=? 0.243) && (ring s - pinky s >=? 0.243)
  && (index s <=? 0.243) && (pinky s <=? 0.243)
  && ((0 >=? angX s) && (angX s >=? -120)) && ((25 >=? angY s) && (angY s >=? -25)).

Definition halt (s : HandSnapshot) : bool :=
  (thumb s >=? 0.12146) && (index s >=? 0.243) && (middle s >=? 0.243)
  && (hand s >=? 2.22672)
  && ((0 >=? angX s) && (angX s >=? -120)) && ((25 >=? angY s) && (angY s >=? -25)).

Definition left_land (s : HandSnapshot) : bool :=
  (thumb s <=? 0.080972) && (index s <=? 0.080972) && (middle s <=? 0.080972)
  && (ring s <=? 0.080972) && (pinky s <=? 0.080972)
  && ((-25 <=? angX s) && (angX s <=? 25)) && ((-25 <=? angY s) && (angY s <=? 25)).

Definition right_land (s : HandSnapshot) : bool :=
  (thumb s <=? 0.080972) && (index s <=? 0.080972) && (middle s <=? 0.080972)
  && (ring s <=? 0.080972) && (pinky s <=? 0.080972)
  && ((-25 <=? angX s) && (angX s <=? 25)) && ((-15 <=? angY s) && (angY s <=? 25)).

(** The branch that the chain of [left_hand] takes (lines 560-618). *)
Definition left_gesture (s : HandSnapshot) : Gesture :=
  if left_thumbs_up s then THUMBS_UP
  else if peace s then PEACE
  else if go_bulls s then GO_BULLS
  else if halt s then HALT
  else if left_land s then LAND
  else NONE.

(** The branch that the chain of [right_hand] takes (lines 679-734). *)
Definition right_gesture (s : HandSnapshot) : Gesture :=
  if right_thumbs_up s then THUMBS_UP
  else if peace s then PEACE
  else if go_bulls s then GO_BULLS
  else if halt s then HALT
  else if right_land s then LAND
  else NONE.

(* ================================================================== *)
(** * The input loops *)

(** Lines 536-551, 655-670: select the wave on the six actuators, read the
    flexions and the angles. *)
Definition sample (h : Hand) : M HandSnapshot :=
  for_range (range 6) (fun i => Forte_SelectHapticWave h i 15) ;;
  fingers <- Forte_GetFingersNormalized h ;;
  imu <- Forte_GetEulerAngles h ;;
  ret (snapshot fingers imu).

(** The body of the inner [try] of [left_hand] (lines 536-629). *)
Definition left_hand_body : M unit :=
  s <- sample LeftHand ;;
  match left_gesture s with
  | THUMBS_UP =>
      print "THUMBS UP" ;;
      Forte_SendHaptic LeftHand 0 note amplitude ;;
      Forte_SendHaptic LeftHand 5 note amplitude ;;
      sleep 0.1 ;;
      Forte_SilenceHaptics LeftHand ;;
      sleep 2
  | PEACE =>
      print "PEACE" ;;
      Forte_SendHaptic LeftHand 1 note amplitude ;;
      Forte_SendHaptic LeftHand 2 note amplitude ;;
      sleep 0.1 ;;
      Forte_SilenceHaptics LeftHand ;;
      print "Sentry Mode Active" ;;
      sleep 2
  | GO_BULLS =>
      print "GO BULLS" ;;
      Forte_SendHaptic LeftHand 1 note amplitude ;;
      Forte_SendHaptic LeftHand 4 note amplitude ;;
      sleep 0.1 ;;
      Forte_SilenceHaptics LeftHand ;;
      sleep 2
  | HALT =>
      print "HALT" ;;
      Forte_SendHaptic LeftHand 5 note amplitude ;;
      sleep 0.1 ;;
      Forte_SilenceHaptics LeftHand ;;
      sleep 2
  | LAND =>
      print "LAND" ;;
      for_range (range 6) (fun i => Forte_SendHaptic LeftHand i note amplitude) ;;
      sleep 0.1 ;;
      Forte_SilenceHaptics LeftHand ;;
      print "LANDING" ;;
      land ;;
      sleep 2
  | NONE => ret tt
  end.

(** The body of the inner [try] of [right_hand] (lines 655-745). *)
Definition right_hand_body : M unit :=
  s <- sample RightHand ;;
  match right_gesture s with
  | THUMBS_UP =>
      print "THUMBS UP" ;;
      Forte_SendHaptic RightHand 0 note amplitude ;;
      Forte_SendHaptic RightHand 5 note amplitude ;;
      sleep 0.1 ;;
      Forte_SilenceHaptics RightHand ;;
      print "TAKING OFF" ;;
      takeoff ;;
      sleep 2
  | PEACE =>
      print "PEACE" ;;
      Forte_SendHaptic RightHand 1 note amplitude ;;
      Forte_SendHaptic RightHand 2 note amplitude ;;
      sleep 0.1 ;;
      Forte_SilenceHaptics RightHand ;;
      print "Sentry Mode Active" ;;
      sleep 2
  | GO_BULLS =>
      print "GO BULLS" ;;
      Forte_SendHaptic RightHand 1 note amplitude ;;
      Forte_SendHaptic RightHand 4 note amplitude ;;
      sleep 0.1 ;;
      Forte_SilenceHaptics RightHand ;;
      sleep 2
  | HALT =>
      print "HALT" ;;
      Forte_SendHaptic RightHand 5 note amplitude ;;
      sleep 0.1 ;;
      Forte_SilenceHaptics RightHand ;;
      sleep 2
  | LAND =>
      print "LAND" ;;
      for_range (range 6) (fun i => Forte_SendHaptic RightHand i note amplitude) ;;
      sleep 0.1 ;;
      Forte_SilenceHaptics RightHand ;;
      print "LANDING" ;;
      land ;;
      sleep 2
  | NONE => ret tt
  end.

(** The [except(GloveDisconnectedException)] clause, the same text in both
    loops (lines 632-639 and 747-754). *)
Definition fail_safe : M unit :=
  print "Gloves are disconnected..." ;;
  sleep 1 ;;
  land.

(** One pass of [while True] in [left_hand] (lines 532-639). *)
Definition left_hand_pass : M unit := try_except left_hand_body fail_safe.

(** One pass of [while True] in [right_hand] (lines 651-754). *)
Definition right_hand_pass : M unit := try_except right_hand_body fail_safe.

(** [left_hand], observed for [n] passes of its loop. *)
Fixpoint left_hand (n : nat) : M unit :=
  match n with
  | O => stop OutOfFuel
  | S n' => left_hand_pass ;; left_hand n'
  end.

(** [right_hand], observed for [n] passes of its loop. *)
Fixpoint right_hand (n : nat) : M unit :=
  match n with
  | O => stop OutOfFuel
  | S n' => right_hand_pass ;; right_hand n'
  end.

(* ================================================================== *)
(** * Calibration *)

(** The local variables of [calibrate] that live across the passes of its
    loop. *)
Record CalState := mkCalState {
  neutralL : nat;
  neutralR : nat;
  initial : nat;
  previousXL : Q; previousYL : Q; previousZL : Q;
  previousXR : Q; previousYR : Q; previousZR : Q
}.

Definition set_previous (xl yl zl xr yr zr : Q) (st : CalState) : CalState :=
  mkCalState (neutralL st) (neutralR st) (initial st) xl yl zl xr yr zr.
Definition set_initial (i : nat) (st : CalState) : CalState :=
  mkCalState (neutralL st) (neutralR st) i
             (previousXL st) (previousYL st) (previousZL st)
             (previousXR st) (previousYR st) (previousZR st).
Definition set_neutral (l r : nat) (st : CalState) : CalState :=
  mkCalState l r (initial st)
             (previousXL st) (previousYL st) (previousZL st)
             (previousXR st) (previousYR st) (previousZR st).

(** The test of line 470, on [leftIMU] and [rightIMU] as read. *)
Definition within10 (st : CalState) (leftIMU rightIMU : Euler) : bool :=
  let XL := eul2 leftIMU in
  let ZL := eul1 leftIMU in
  let YL := eul0 leftIMU in
  let XR := eul2 rightIMU in
  let ZR := eul1 rightIMU in
  let YR := eul0 rightIMU in
  ((-10 <=? XL - previousXL st) && (XL - previousXL st <=? 10))
  && ((-10 <=? YL - previousYL st) && (YL - previousYL st <=? 10))
  && ((-10 <=? ZL - previousZL st) && (ZL - previousZL st <=? 10))
  && ((-10 <=? XR - previousXR st) && (XR - previousXR st <=? 10))
  && ((-10 <=? YR - previousYR st) && (YR - previousYR st <=? 10))
  && ((-10 <=? ZR - previousZR st) && (ZR - previousZR st <=? 10)).

(** Lines 435-440, 481-486, 491-496: a pulse on the six actuators of both
    gloves. *)
Definition pulse_all : M unit :=
  for_range (range 6) (fun i =>
    Forte_SelectHapticWave LeftHand i 15 ;;
    Forte_SelectHapticWave RightHand i 15 ;;
    Forte_SendHaptic LeftHand i note amplitude ;;
    Forte_SendHaptic RightHand i note amplitude).

Definition silence_both : M unit :=
  Forte_SilenceHaptics LeftHand ;;
  Forte_SilenceHaptics RightHand.

(** Lines 433-447, what the first pass does after it has set the six
    [previous] variables to 1000 and before it sets [initial = 1]. *)
Definition announce : M unit :=
  sleep 5 ;;
  pulse_all ;;
  print "Please hold both hands flat with fingers extended and palms towards the ground for calibration:" ;;
  sleep 0.75 ;;
  silence_both.

(** Lines 450-468. *)
Definition read_both : M (Euler * Euler) :=
  sleep 1 ;;
  print "Calibrating..." ;;
  Forte_SendHaptic LeftHand 5 note amplitude ;;
  Forte_SendHaptic RightHand 5 note amplitude ;;
  sleep 0.1 ;;
  silence_both ;;
  leftIMU <- Forte_GetEulerAngles LeftHand ;;
  rightIMU <- Forte_GetEulerAngles RightHand ;;
  ret (leftIMU, rightIMU).

(** Lines 473-500: the zero-reference is committed and confirmed. *)
Definition commit : M unit :=
  Forte_CalibrateFlat LeftHand ;;
  Forte_HomeIMU LeftHand ;;
  Forte_CalibrateFlat RightHand ;;
  Forte_HomeIMU RightHand ;;
  print "CALIBRATION SUCCESSFUL!  Commands can now be sent." ;;
  pulse_all ;;
  sleep 0.3 ;;
  silence_both ;;
  pulse_all ;;
  sleep 0.5 ;;
  silence_both ;;
  sleep 2.

(** [try: m except(GloveDisconnectedException): print; sleep(1)] of
    [calibrate] (lines 516-519), for a block [m] that computes the local
    variables: when [m] raises, the variables are as [kept]. *)
Definition try_disconnected {A} (m : M A) (kept : A) : M A := fun w =>
  let r := m w in
  match out r with
  | Raise GloveDisconnectedException =>
      mkResult (Ret kept) (world r)
               (events r ++ [Out "Disconnected..."; Sleep 1])
  | _ => r
  end.

(** Lines 450-513: the part of a pass after the [if(initial == 0)] block.
    The variables change only at its end, after the last driver call. *)
Definition measure (st : CalState) : M CalState :=
  imus <- read_both ;;
  let leftIMU := fst imus in
  let rightIMU := snd imus in
  st' <- (if within10 st leftIMU rightIMU
          then commit ;; ret (set_neutral 1 1 st)
          else ret st) ;;
  ret (set_previous (eul2 leftIMU) (eul0 leftIMU) (eul1 leftIMU)
                    (eul2 rightIMU) (eul0 rightIMU) (eul1 rightIMU) st').

(** One pass of the loop of [calibrate] (lines 420-519).  A disconnection
    while the first pass announces itself leaves [initial] at 0 and ends the
    pass; one after that leaves [initial] at 1. *)
Definition calibrate_pass (st : CalState) : M CalState :=
  if Nat.eqb (initial st) 0 then
    let st0 := set_previous 1000 1000 1000 1000 1000 1000 st in
    ready <- try_disconnected (announce ;; ret true) false ;;
    if ready : bool
    then try_disconnected (measure (set_initial 1 st0)) (set_initial 1 st0)
    else ret st0
  else
    try_disconnected (measure st) st.

(** The loop of [calibrate], observed for [fuel] passes. *)
Fixpoint calibrate_loop (fuel : nat) (st : CalState) : M unit :=
  if Nat.eqb (neutralL st) 0 && Nat.eqb (neutralR st) 0 then
    match fuel with
    | O => stop OutOfFuel
    | S fuel' => st' <- calibrate_pass st ;; calibrate_loop fuel' st'
    end
  else ret tt.

(** [calibrate] (lines 411-524).  The six [previous] variables are unbound
    until the first pass assigns them; they are 0 here. *)
Definition calibrate (fuel : nat) : M unit :=
  calibrate_loop fuel (mkCalState 0 0 0 0 0 0 0 0 0).

(* ================================================================== *)
(** * Observations on event lists *)

(** The [async_command] requests that carry command [c]. *)
Definition is_command (c : string) (e : Event) : bool :=
  match e with
  | Http (async_command c') => String.eqb c' c
  | _ => false
  end.
Definition commands (c : string) (evs : list Event) : nat :=
  List.length (filter (is_command c) evs).

Definition is_http (e : Event) : bool :=
  match e with Http _ => true | _ => false end.

(** A driver call, whether it returned or raised: the loop polls the glove. *)
Definition is_driver_call (e : Event) : bool :=
  match e with Glove _ _ | Disconnected _ _ => true | _ => false end.

Definition is_land_call (e : Event) : bool :=
  match e with Call m_land => true | _ => false end.

Definition is_takeoff_call (e : Event) : bool :=
  match e with Call m_takeoff => true | _ => false end.

(** The events up to the next driver call. *)
Fixpoint until_poll (evs : list Event) : list Event :=
  match evs with
  | [] => []
  | e :: evs' => if is_driver_call e then [] else e :: until_poll evs'
  end.

Definition land_calls (evs : list Event) : nat :=
  List.length (filter is_land_call evs).

(** A status reply that reports phase [p]. *)
Definition reports (p : string) (r : StatusReply) : Prop := flightPhase r = Some p.

Definition is_pilot (w : World) : Prop := access_level (client w) = Some "PILOT".

(* ================================================================== *)
(** * Concrete worlds *)

(** A session that holds PHONE access only. *)
Definition phone_world : World :=
  mkWorld (mkSession "c0" (Some "tok") (Some "PHONE") None)
          (mkAuthReply (Some "PHONE") (Some "tok"))
          [mkStatusReply "s1" (Some "FLYING")] []
          (mkGloveIO (fun _ => true) (fun _ => mkFingers 0 0 0 0 0)
                     (fun _ => mkEuler 0 0 0) 0 0 0)
          (mkGloveIO (fun _ => true) (fun _ => mkFingers 0 0 0 0 0)
                     (fun _ => mkEuler 0 0 0) 0 0 0).

Definition pilot_world (script : list StatusReply) : World :=
  mkWorld (mkSession "c0" (Some "tok") (Some "PILOT") None)
          (mkAuthReply (Some "PILOT") (Some "tok"))
          script []
          (mkGloveIO (fun _ => true) (fun _ => mkFingers 0 0 0 0 0)
                     (fun _ => mkEuler 0 0 0) 0 0 0)
          (mkGloveIO (fun _ => true) (fun _ => mkFingers 0 0 0 0 0)
                     (fun _ => mkEuler 0 0 0) 0 0 0).

Definition phase (p : string) : StatusReply := mkStatusReply "sid" (Some p).

Definition flying_flying_rest : World :=
  pilot_world [phase "FLYING"; phase "FLYING"; phase "REST"].

Definition takeoff_script : World :=
  pilot_world [phase "REST"; phase "PREP"; phase "READY_FOR_GROUND_TAKEOFF";
               phase "READY_FOR_GROUND_TAKEOFF"; phase "FLYING"].


(** The fully open palm, level: what [snapshot] makes of flexions 0.0 and
    angles 0, 0, 0. *)
Definition open_palm : HandSnapshot :=
  snapshot (mkFingers 0 0 0 0 0) (mkEuler 0 0 0).

(** The open palm with a yaw of -20 degrees ([YR] is [rightIMU[0]]). *)
Definition open_palm_yaw_m20 : HandSnapshot :=
  snapshot (mkFingers 0 0 0 0 0) (mkEuler (-20) 0 0).

(** The five flexions of a snapshot are not negative. *)
Definition flexions_nonneg (s : HandSnapshot) : Prop :=
  0 <= thumb s /\ 0 <= index s /\ 0 <= middle s /\ 0 <= ring s /\ 0 <= pinky s.

(** All five flexions are at most 0.080972. *)
Definition flat_palm (s : HandSnapshot) : Prop :=
  thumb s <= 0.080972 /\ index s <= 0.080972 /\ middle s <= 0.080972
  /\ ring s <= 0.080972 /\ pinky s <= 0.080972.

(* ================================================================== *)
(** * Properties of event lists used in the proofs *)

(** Events that touch neither the gloves nor the entry of a client method:
    requests, prints, sleeps. *)
Definition is_chatter (e : Event) : bool :=
  match e with
  | Http _ | Out _ | Err _ | Sleep _ => true
  | _ => false
  end.

(** The fail-safe monitor.  Its state is [None] while no disconnection is
    pending, and [Some k] when a driver call has raised and [k] calls of
    [land] have followed.  A driver call made while a disconnection is
    pending is accepted only when [k] is 1; [scan] returns the state reached,
    or [None] when the monitor rejects the list. *)
Fixpoint scan (st : option nat) (evs : list Event) : option (option nat) :=
  match evs with
  | [] => Some st
  | e :: evs' =>
      match e with
      | Glove _ _ =>
          match st with
          | Some k => if Nat.eqb k 1 then scan None evs' else None
          | None => scan None evs'
          end
      | Disconnected _ _ =>
          match st with
          | Some k => if Nat.eqb k 1 then scan (Some 0%nat) evs' else None
          | None => scan (Some 0%nat) evs'
          end
      | Call m_land => scan (option_map S st) evs'
      | _ => scan st evs'
      end
  end.

(** The states in which a pass of an input loop starts and ends. *)
Definition settled (st : option nat) : Prop := st = None \/ st = Some 1%nat.

(** [m], run from world [w], ends with outcome [o] in world [w'] having
    emitted [evs]. *)
Definition yields {A} (m : M A) (w : World) (o : Outcome A) (w' : World)
           (evs : list Event) : Prop :=
  m w = mkResult o w' evs.

(** The events of [m] from [w] begin with [evs]. *)
Definition begins {A} (m : M A) (w : World) (evs : list Event) : Prop :=
  exists rest, events (m w) = (evs ++ rest)%list.

(** [m] emits only events that satisfy [P]. *)
Definition emits_only (P : Event -> bool) {A} (m : M A) : Prop :=
  forall w, forallb P (events (m w)) = true.

(** [m] lets no exception out. *)
Definition never_raises {A} (m : M A) : Prop :=
  forall w e, out (m w) <> Raise e.

(** What the monitor has reached after the body of a pass that started with
    no disconnection pending. *)
Definition after_body {A} (o : Outcome A) (r : option (option nat)) : Prop :=
  match o with
  | Raise _ => r = Some (Some 0%nat)
  | _ => r = Some None
  end.

Definition closed {A} (m : M A) : Prop :=
  forall w, after_body (out (m w)) (scan None (events (m w))).

(** The events of [m] start with a driver call. *)
Definition polls_first {A} (m : M A) : Prop :=
  forall w, exists e rest,
    events (m w) = e :: rest /\ is_driver_call e = true.

(** A pilot whose left glove drops out at its eighth driver call (the read
    of the angles in the first pass) and is back afterwards; the vehicle
    reports REST at the first poll. *)
Definition dropout_world : World :=
  mkWorld (mkSession "c0" (Some "tok") (Some "PILOT") None)
          (mkAuthReply (Some "PILOT") (Some "tok"))
          [mkStatusReply "s1" (Some "REST")] []
          (mkGloveIO (fun n => negb (Nat.eqb n 7)) (fun _ => mkFingers 0 0 0 0 0)
                     (fun _ => mkEuler 90 0 0) 0 0 0)
          (mkGloveIO (fun n => negb (Nat.eqb n 7)) (fun _ => mkFingers 0 0 0 0 0)
                     (fun _ => mkEuler 90 0 0) 0 0 0).

Definition not_takeoff_call (e : Event) : bool := negb (is_takeoff_call e).

(** What [sample h] emits while the glove stays connected. *)
Definition sample_events (h : Hand) : list Event :=
  [Glove h (SelectHapticWave 0 15); Glove h (SelectHapticWave 1 15);
   Glove h (SelectHapticWave 2 15); Glove h (SelectHapticWave 3 15);
   Glove h (SelectHapticWave 4 15); Glove h (SelectHapticWave 5 15);
   Glove h GetFingersNormalized; Glove h GetEulerAngles].

(** The snapshot that the next pass of the loop of hand [h] will take. *)
Definition next_snapshot (h : Hand) (w : World) : HandSnapshot :=
  snapshot (flexion (glove h w) (flex_reads (glove h w)))
           (orientation (glove h w) (imu_reads (glove h w))).

(** The link of glove [h] is up for the next [n] driver calls. *)
Definition link_up (h : Hand) (n : nat) (w : World) : Prop :=
  forall k, (k < n)%nat -> link (glove h w) (k + calls (glove h w)) = true.

(** A glove that stays connected and shows a thumbs-up: thumb stretched,
    the four fingers bent, [IMU[0]] at [yaw]. *)
Definition thumbs_up_glove (yaw : Q) : GloveIO :=
  mkGloveIO (fun _ => true) (fun _ => mkFingers 0 0.5 0.5 0.5 0.5)
            (fun _ => mkEuler yaw 0 0) 0 0 0.

Definition thumbs_up_world : World :=
  mkWorld (mkSession "c0" (Some "tok") (Some "PILOT") None)
          (mkAuthReply (Some "PILOT") (Some "tok"))
          [mkStatusReply "s1" (Some "REST"); mkStatusReply "s1" (Some "FLYING")]
          []
          (thumbs_up_glove 90) (thumbs_up_glove (-90)).

(* ------------------------------------------------------------------ *)
(** ** Calibration *)

(** Both gloves stay connected. *)
Definition connected (w : World) : Prop :=
  (forall k, link (leftHand w) k = true)
  /\ (forall k, link (rightHand w) k = true).

(** The world after [nl] and [nr] more driver calls on the left and right
    glove, of which [il] and [ir] read the angles. *)
Definition tick (nl nr il ir : nat) (w : World) : World :=
  mkWorld (client w) (auth_reply w) (statuses w) (fault_replies w)
          (mkGloveIO (link (leftHand w)) (flexion (leftHand w))
                     (orientation (leftHand w))
                     (nl + calls (leftHand w)) (flex_reads (leftHand w))
                     (il + imu_reads (leftHand w)))
          (mkGloveIO (link (rightHand w)) (flexion (rightHand w))
                     (orientation (rightHand w))
                     (nr + calls (rightHand w)) (flex_reads (rightHand w))
                     (ir + imu_reads (rightHand w))).

(** The angles of both hands that the [j]-th coming pass of [calibrate]
    reads, when no pass is cut short by a disconnection. *)
Definition sample_at (w : World) (j : nat) : Euler * Euler :=
  (orientation (leftHand w) (j + imu_reads (leftHand w)),
   orientation (rightHand w) (j + imu_reads (rightHand w))).

(** In the spec's words: an orientation that has not moved more than 10
    degrees on any axis between two samples. *)
Definition moved_at_most_10 (a b : Euler) : Prop :=
  (-10 <= eul0 b - eul0 a <= 10)
  /\ (-10 <= eul1 b - eul1 a <= 10)
  /\ (-10 <= eul2 b - eul2 a <= 10).

(** Both hands are stable between two samples. *)
Definition steady (prev cur : Euler * Euler) : Prop :=
  moved_at_most_10 (fst prev) (fst cur) /\ moved_at_most_10 (snd prev) (snd cur).

(** Angles as a glove reports them, in degrees. *)
Definition valid_euler (e : Euler) : Prop :=
  (-360 <= eul0 e <= 360) /\ (-360 <= eul1 e <= 360) /\ (-360 <= eul2 e <= 360).

(** The sample that the six [previous] variables hold. *)
Definition previous_sample (st : CalState) : Euler * Euler :=
  (mkEuler (previousYL st) (previousZL st) (previousXL st),
   mkEuler (previousYR st) (previousZR st) (previousXR st)).

(** The variables after a pass that read [leftIMU] and [rightIMU]. *)
Definition remember (leftIMU rightIMU : Euler) (st : CalState) : CalState :=
  set_previous (eul2 leftIMU) (eul0 leftIMU) (eul1 leftIMU)
               (eul2 rightIMU) (eul0 rightIMU) (eul1 rightIMU) st.

(** Starting from [prev], the samples [s 0], [s 1], ... are first steady at
    [s n]. *)
Fixpoint settles_at (prev : Euler * Euler) (s : nat -> Euler * Euler)
         (n : nat) : Prop :=
  match n with
  | O => steady prev (s 0%nat)
  | S n' => ~ steady prev (s 0%nat) /\ settles_at (s 0%nat) (fun j => s (S j)) n'
  end.

Definition pulse_events : list Event :=
  flat_map (fun i => [Glove LeftHand (SelectHapticWave i 15);
                      Glove RightHand (SelectHapticWave i 15);
                      Glove LeftHand (SendHaptic i note amplitude);
                      Glove RightHand (SendHaptic i note amplitude)])
           (range 6).

Definition silence_events : list Event :=
  [Glove LeftHand SilenceHaptics; Glove RightHand SilenceHaptics].

(** What the first pass emits before it samples. *)
Definition announce_events : list Event :=
  ([Sleep 5] ++ pulse_events ++
   [Out "Please hold both hands flat with fingers extended and palms towards the ground for calibration:";
    Sleep 0.75] ++ silence_events)%list.

(** What every pass emits to take its sample. *)
Definition read_events : list Event :=
  ([Sleep 1; Out "Calibrating...";
    Glove LeftHand (SendHaptic 5 note amplitude);
    Glove RightHand (SendHaptic 5 note amplitude);
    Sleep 0.1] ++ silence_events ++
   [Glove LeftHand GetEulerAngles; Glove RightHand GetEulerAngles])%list.

(** The commit of the zero-reference and its confirmation. *)
Definition commit_events : list Event :=
  ([Glove LeftHand CalibrateFlat; Glove LeftHand HomeIMU;
    Glove RightHand CalibrateFlat; Glove RightHand HomeIMU;
    Out "CALIBRATION SUCCESSFUL!  Commands can now be sent."] ++
   pulse_events ++ [Sleep 0.3] ++ silence_events ++
   pulse_events ++ [Sleep 0.5] ++ silence_events ++ [Sleep 2])%list.

(** Two gloves that stay connected; the hands move by 40 degrees between
    the first two samples and by 5 degrees between the second and third. *)
Definition settling_glove : GloveIO :=
  mkGloveIO (fun _ => true) (fun _ => mkFingers 0 0 0 0 0)
            (fun j => match j with
                      | O => mkEuler 0 0 0
                      | S O => mkEuler 40 0 0
                      | _ => mkEuler 45 0 0
                      end)
            0 0 0.

Definition settling_world : World :=
  mkWorld (mkSession "c0" (Some "tok") (Some "PILOT") None)
          (mkAuthReply (Some "PILOT") (Some "tok"))
          [] [] settling_glove settling_glove.

(** A left hand that sways: level, then turned by 35 degrees, then level
    again; [link] is the link of its glove. *)
Definition swaying_glove (link : nat -> bool) : GloveIO :=
  mkGloveIO link (fun _ => mkFingers 0 0 0 0 0)
            (fun j => match j with
                      | S O => mkEuler 35 0 0
                      | _ => mkEuler 0 0 0
                      end)
            0 0 0.

(** A right hand that keeps still; [link] is the link of its glove. *)
Definition still_glove (link : nat -> bool) : GloveIO :=
  mkGloveIO link (fun _ => mkFingers 0 0 0 0 0) (fun _ => mkEuler 0 0 0) 0 0 0.

(** The swaying left hand and the still right hand, both gloves connected
    throughout. *)
Definition swaying_world : World :=
  mkWorld (mkSession "c0" (Some "tok") (Some "PILOT") None)
          (mkAuthReply (Some "PILOT") (Some "tok"))
          [] [] (swaying_glove (fun _ => true)) (still_glove (fun _ => true)).

(** The same hands; the right glove drops out at its nineteenth driver
    call, the read of the angles in the second pass, and is back
    afterwards. *)
Definition cut_pass_world : World :=
  mkWorld (mkSession "c0" (Some "tok") (Some "PILOT") None)
          (mkAuthReply (Some "PILOT") (Some "tok"))
          [] [] (swaying_glove (fun _ => true))
          (still_glove (fun n => negb (Nat.eqb n 18))).

(** What a pass emits when its sampling is cut short at the read of the
    angles of the right glove. *)
Definition cut_read_events : list Event :=
  ([Sleep 1; Out "Calibrating...";
    Glove LeftHand (SendHaptic 5 note amplitude);
    Glove RightHand (SendHaptic 5 note amplitude);
    Sleep 0.1] ++ silence_events ++
   [Glove LeftHand GetEulerAngles; Disconnected RightHand GetEulerAngles;
    Out "Disconnected..."; Sleep 1])%list.

(* ------------------------------------------------------------------ *)
(** ** The keep-alive thread *)

(** [update_loop] (lines 390-393), observed for [n] passes. *)
Fixpoint update_loop (n : nat) : M unit :=
  match n with
  | O => stop OutOfFuel
  | S n' => update_pilot_status ;; sleep 2 ;; update_loop n'
  end.

(* ------------------------------------------------------------------ *)
(** ** Reading scripts of status replies *)

(** A reply on which [land] goes round again: no phase, an empty one, or
    FLYING. *)
Definition keeps_flying (r : StatusReply) : bool :=
  negb (truthy (flightPhase r)) || (show (flightPhase r) =? "FLYING")%string.

(** A reply that reports phase [p], for a phase that is not empty. *)
Definition in_phase (p : string) (r : StatusReply) : bool :=
  truthy (flightPhase r) && (show (flightPhase r) =? p)%string.

(** A reply on which [takeoff] goes round again without asking for the
    faults: no phase, an empty one, or one of the five phases it names
    besides FLYING. *)
Definition waits (r : StatusReply) : bool :=
  negb (truthy (flightPhase r))
  || in_phase "READY_FOR_GROUND_TAKEOFF" r
  || in_phase "REST" r
  || in_phase "FLIGHT_PROCESSES_CHECK" r
  || in_phase "PREP" r
  || in_phase "LOGGING_START" r.

(** A reply whose phase [takeoff] does not name. *)
Definition unnamed_phase (r : StatusReply) : bool :=
  truthy (flightPhase r) && negb (waits r) && negb (in_phase "FLYING" r).

Definition is_poll (e : Event) : bool :=
  match e with Http (status _) => true | _ => false end.
Definition polls (evs : list Event) : nat := List.length (filter is_poll evs).

(** The fields of the session that identify and authorise the client. *)
Definition same_identity (w w' : World) : Prop :=
  client_id (client w') = client_id (client w)
  /\ access_token (client w') = access_token (client w)
  /\ access_level (client w') = access_level (client w).

Definition not_http (e : Event) : bool := negb (is_http e).

(** A pilot whose vehicle goes through an empty phase while it lands. *)
Definition landing_world : World :=
  mkWorld (mkSession "c0" (Some "tok") (Some "PILOT") None)
          (mkAuthReply (Some "PILOT") (Some "tok"))
          [mkStatusReply "s1" (Some "FLYING"); mkStatusReply "s2" None;
           mkStatusReply "s3" (Some ""); mkStatusReply "s4" (Some "POST_FLIGHT");
           mkStatusReply "s5" (Some "REST")]
          []
          (mkGloveIO (fun _ => true) (fun _ => mkFingers 0 0 0 0 0)
                     (fun _ => mkEuler 0 0 0) 0 0 0)
          (mkGloveIO (fun _ => true) (fun _ => mkFingers 0 0 0 0 0)
                     (fun _ => mkEuler 0 0 0) 0 0 0).

(** A pilot whose vehicle never reports that it has left FLYING. *)
Definition hovering_world : World :=
  mkWorld (mkSession "c0" (Some "tok") (Some "PILOT") None)
          (mkAuthReply (Some "PILOT") (Some "tok"))
          [mkStatusReply "s1" (Some "FLYING"); mkStatusReply "s2" None;
           mkStatusReply "s3" (Some "FLYING")]
          []
          (mkGloveIO (fun _ => true) (fun _ => mkFingers 0 0 0 0 0)
                     (fun _ => mkEuler 0 0 0) 0 0 0)
          (mkGloveIO (fun _ => true) (fun _ => mkFingers 0 0 0 0 0)
                     (fun _ => mkEuler 0 0 0) 0 0 0).

Definition ready (r : StatusReply) : bool := in_phase "READY_FOR_GROUND_TAKEOFF" r.

(** A pilot whose vehicle takes its time before it is ready. *)
Definition slow_start_world : World :=
  mkWorld (mkSession "c0" (Some "tok") (Some "PILOT") None)
          (mkAuthReply (Some "PILOT") (Some "tok"))
          [mkStatusReply "s0" (Some "FLYING");
           mkStatusReply "s1" (Some "REST"); mkStatusReply "s2" None;
           mkStatusReply "s3" (Some "FLIGHT_PROCESSES_CHECK");
           mkStatusReply "s4" (Some "LOGGING_START");
           mkStatusReply "s5" (Some "READY_FOR_GROUND_TAKEOFF");
           mkStatusReply "s6" (Some "FLYING");
           mkStatusReply "s7" (Some "FLYING")]
          []
          (mkGloveIO (fun _ => true) (fun _ => mkFingers 0 0 0 0 0)
                     (fun _ => mkEuler 0 0 0) 0 0 0)
          (mkGloveIO (fun _ => true) (fun _ => mkFingers 0 0 0 0 0)
                     (fun _ => mkEuler 0 0 0) 0 0 0).

(** A pilot whose vehicle reports a phase that [takeoff] does not name,
    with two faults active of which one is relevant. *)
Definition faulted_world : World :=
  mkWorld (mkSession "c0" (Some "tok") (Some "PILOT") None)
          (mkAuthReply (Some "PILOT") (Some "tok"))
          [mkStatusReply "s0" (Some "REST");
           mkStatusReply "s1" (Some "POST_FLIGHT")]
          [[mkFault "GPS_LOST" true; mkFault "LOW_LIGHT" false;
            mkFault "BATTERY_LOW" true]]
          (mkGloveIO (fun _ => true) (fun _ => mkFingers 0 0 0 0 0)
                     (fun _ => mkEuler 0 0 0) 0 0 0)
          (mkGloveIO (fun _ => true) (fun _ => mkFingers 0 0 0 0 0)
                     (fun _ => mkEuler 0 0 0) 0 0 0).

(* ------------------------------------------------------------------ *)
(** ** Authentication and keep-alive *)

(** The credentials that [_authenticate] sends for a token file. *)
Definition credentials_of (strip : string -> string)
           (token_file : option TokenFile) : option string :=
  match token_file with
  | Some f => option_map strip (contents f)
  | None => None
  end.

(** The token file, if one is given, can be read. *)
Definition readable (token_file : option TokenFile) : Prop :=
  forall f, token_file = Some f -> contents f <> None.

(** What [n] rounds of the keep-alive loop emit: each refresh carries the
    session id of the reply before it. *)
Fixpoint keepalive_events (sid : option string) (rs : list StatusReply)
  : list Event :=
  match rs with
  | [] => []
  | r :: rs' =>
      Http (status (if_set sid)) :: Sleep 2
      :: keepalive_events (Some (sessionId r)) rs'
  end.

(** The session id after the replies [rs] have been read. *)
Definition last_session_id (sid : option string) (rs : list StatusReply)
  : option string :=
  fold_left (fun _ r => Some (sessionId r)) rs sid.

(** How an outcome ends, whatever it carries. *)
Inductive Kind := KRet | KRaise | KExit | KStarved | KOutOfFuel.

Definition kind_of {A} (o : Outcome A) : Kind :=
  match o with
  | Ret _ => KRet
  | Raise _ => KRaise
  | Exit _ => KExit
  | Starved => KStarved
  | OutOfFuel => KOutOfFuel
  end.

(** [m] ends only in the ways that [S] allows. *)
Definition ends_in (S : Kind -> bool) {A} (m : M A) : Prop :=
  forall w, S (kind_of (out (m w))) = true.

Definition ret_or_raise (k : Kind) : bool :=
  match k with KRet | KRaise => true | _ => false end.
Definition ret_raise_starved (k : Kind) : bool :=
  match k with KRet | KRaise | KStarved => true | _ => false end.
Definition ret_or_starved (k : Kind) : bool :=
  match k with KRet | KStarved => true | _ => false end.
Definition ret_starved_fuel (k : Kind) : bool :=
  match k with KRet | KStarved | KOutOfFuel => true | _ => false end.
Definition only_ret (k : Kind) : bool :=
  match k with KRet => true | _ => false end.
Definition ret_or_fuel (k : Kind) : bool :=
  match k with KRet | KOutOfFuel => true | _ => false end.

(** [m] keeps the identity of the session. *)
Definition keeps_identity {A} (m : M A) : Prop :=
  forall w, same_identity w (world (m w)).

(** A session without PILOT access. *)
Definition unpiloted (w : World) : Prop :=
  access_level (client w) <> Some "PILOT".

(** From an unpiloted world [m] emits only events that satisfy [P], leaves
    the world unpiloted, and is not left waiting for a reply. *)
Definition unpiloted_only (P : Event -> bool) {A} (m : M A) : Prop :=
  forall w, unpiloted w ->
    forallb P (events (m w)) = true /\ unpiloted (world (m w))
    /\ out (m w) <> Starved.

(** A phone-level session whose left glove drops out now and then and whose
    right hand shows a thumbs-up. *)
Definition phone_gesture_world : World :=
  mkWorld (mkSession "c0" (Some "tok") (Some "PHONE") None)
          (mkAuthReply (Some "PHONE") (Some "tok"))
          [mkStatusReply "s1" (Some "FLYING")] []
          (mkGloveIO (fun n => negb (Nat.eqb n 3)) (fun _ => mkFingers 0 0 0 0 0)
                     (fun _ => mkEuler 0 0 0) 0 0 0)
          (thumbs_up_glove (-90)).

(* ------------------------------------------------------------------ *)
(** ** Gestures *)

(** A hand on the border between GO BULLS and HALT. *)
Definition bulls_and_halt : HandSnapshot :=
  mkSnapshot 1 0.243 1 1 0 (-10) 0 0.

(* ------------------------------------------------------------------ *)
(** ** What a pass emits after its sample *)

(** The gestures whose branch only acknowledges. *)
Definition only_acknowledged (g : Gesture) : bool :=
  match g with
  | PEACE | GO_BULLS | HALT | NONE => true
  | THUMBS_UP | LAND => false
  end.

(** What the branch of such a gesture emits. *)
Definition acknowledgment (h : Hand) (g : Gesture) : list Event :=
  match g with
  | PEACE =>
      [Out "PEACE";
       Glove h (SendHaptic 1 note amplitude);
       Glove h (SendHaptic 2 note amplitude);
       Sleep 0.1; Glove h SilenceHaptics;
       Out "Sentry Mode Active"; Sleep 2]
  | GO_BULLS =>
      [Out "GO BULLS";
       Glove h (SendHaptic 1 note amplitude);
       Glove h (SendHaptic 4 note amplitude);
       Sleep 0.1; Glove h SilenceHaptics; Sleep 2]
  | HALT =>
      [Out "HALT";
       Glove h (SendHaptic 5 note amplitude);
       Sleep 0.1; Glove h SilenceHaptics; Sleep 2]
  | _ => []
  end.

(** What the LAND branch emits before it calls [client.land()]. *)
Definition land_acknowledgment (h : Hand) : list Event :=
  [Out "LAND";
   Glove h (SendHaptic 0 note amplitude); Glove h (SendHaptic 1 note amplitude);
   Glove h (SendHaptic 2 note amplitude); Glove h (SendHaptic 3 note amplitude);
   Glove h (SendHaptic 4 note amplitude); Glove h (SendHaptic 5 note amplitude);
   Sleep 0.1; Glove h SilenceHaptics; Out "LANDING"].

(** The world after glove [h] has answered [n] more driver calls, one of
    them a read of the flexions and one a read of the angles. *)
Definition sampled (h : Hand) (n : nat) (w : World) : World :=
  set_glove h (mkGloveIO (link (glove h w)) (flexion (glove h w))
                         (orientation (glove h w))
                         (n + calls (glove h w))
                         (S (flex_reads (glove h w)))
                         (S (imu_reads (glove h w)))) w.

(** A connected pilot whose left hand shows a fist and whose right hand
    shows a flat palm. *)
Definition fist_and_palm_world : World :=
  mkWorld (mkSession "c0" (Some "tok") (Some "PILOT") None)
          (mkAuthReply (Some "PILOT") (Some "tok"))
          [mkStatusReply "s1" (Some "REST")] []
          (mkGloveIO (fun _ => true) (fun _ => mkFingers 1 1 1 1 1)
                     (fun _ => mkEuler 0 0 (-60)) 0 0 0)
          (mkGloveIO (fun _ => true) (fun _ => mkFingers 0 0 0 0 0)
                     (fun _ => mkEuler 0 0 0) 0 0 0).

(* ------------------------------------------------------------------ *)
(** ** More on calibration *)

(** Events that involve neither the vehicle nor a method of the client. *)
Definition off_vehicle (e : Event) : bool :=
  match e with
  | Http _ | Call _ => false
  | _ => true
  end.

(** Whenever [m] returns, it has emitted [evs]. *)
Definition returns_with {A} (m : M A) (evs : list Event) : Prop :=
  forall w a, out (m w) = Ret a -> events (m w) = evs.

(** Starting from [prev], none of the samples [s 0] ... [s (n-1)] is steady
    with respect to the one before it. *)
Fixpoint never_steady (prev : Euler * Euler) (s : nat -> Euler * Euler)
         (n : nat) : Prop :=
  match n with
  | O => True
  | S n' => ~ steady prev (s 0%nat) /\ never_steady (s 0%nat) (fun j => s (S j)) n'
  end.

(** Two gloves that stay connected on hands that keep turning, by 20
    degrees from each sample to the next. *)
Definition turning_glove : GloveIO :=
  mkGloveIO (fun _ => true) (fun _ => mkFingers 0 0 0 0 0)
            (fun j => mkEuler (inject_Z (20 * Z.of_nat j)) 0 0)
            0 0 0.

Definition turning_world : World :=
  mkWorld (mkSession "c0" (Some "tok") (Some "PILOT") None)
          (mkAuthReply (Some "PILOT") (Some "tok"))
          [] [] turning_glove turning_glove.

(** Two still hands; the right glove drops out at its sixteenth driver call
    (the read of the angles in the first pass) and is back afterwards. *)
Definition flaky_world : World :=
  mkWorld (mkSession "c0" (Some "tok") (Some "PILOT") None)
          (mkAuthReply (Some "PILOT") (Some "tok"))
          [] []
          (mkGloveIO (fun _ => true) (fun _ => mkFingers 0 0 0 0 0)
                     (fun _ => mkEuler 0 0 0) 0 0 0)
          (mkGloveIO (fun n => negb (Nat.eqb n 15)) (fun _ => mkFingers 0 0 0 0 0)
                     (fun _ => mkEuler 0 0 0) 0 0 0).

(* ================================================================== *)
(** * The test scripts *)

(** [test_scripts/haptic_test.py]: a pulse on the six actuators of the right
    glove, about once a second. *)
Module HapticTest.

Definition note : nat := 50.
Definition amplitude : nat := 1.

(** The body of the inner [try] (lines 25-33). *)
Definition pulse : M unit :=
  print "Sending haptic pulse..." ;;
  for_range (range 6) (fun x =>
    Forte_SelectHapticWave RightHand x 15 ;;
    Forte_SendHaptic RightHand x note amplitude) ;;
  sleep 0.1 ;;
  Forte_SilenceHaptics RightHand ;;
  sleep 1.

(** The [except(GloveDisconnectedException)] clause (lines 36-39). *)
Definition disconnected : M unit :=
  print "Glove is Disconnected" ;;
  sleep 1.

(** One pass of [while True] (lines 21-39). *)
Definition pass : M unit := try_except pulse disconnected.

(** The script, observed for [n] passes of its loop. *)
Fixpoint main (n : nat) : M unit :=
  match n with
  | O => stop OutOfFuel
  | S n' => pass ;; main n'
  end.

End HapticTest.

(** [test_scripts/glove_test.py]: the calibration and the two input loops
    without a vehicle.  The sampling code and the conditions of the gesture
    chains are, token for token, those of [HEDO.py] ([sample],
    [left_gesture], [right_gesture], [within10]); the branches differ. *)
Module GloveTest.

Definition note : nat := 50.
Definition amplitude : nat := 1.

(** The body of the inner [try] of [left_hand] (lines 142-217). *)
Definition left_hand_body : M unit :=
  s <- sample LeftHand ;;
  match left_gesture s with
  | THUMBS_UP =>
      print "L: THUMBS UP" ;;
      Forte_SendHaptic LeftHand 0 note amplitude ;;
      Forte_SendHaptic LeftHand 5 note amplitude ;;
      sleep 0.1 ;;
      Forte_SilenceHaptics LeftHand ;;
      sleep 2
  | PEACE =>
      print "L: PEACE" ;;
      Forte_SendHaptic LeftHand 1 note amplitude ;;
      Forte_SendHaptic LeftHand 2 note amplitude ;;
      sleep 0.1 ;;
      Forte_SilenceHaptics LeftHand ;;
      sleep 2
  | GO_BULLS =>
      print "L: GO BULLS" ;;
      Forte_SendHaptic LeftHand 1 note amplitude ;;
      Forte_SendHaptic LeftHand 4 note amplitude ;;
      sleep 0.1 ;;
      Forte_SilenceHaptics LeftHand ;;
      sleep 2
  | HALT =>
      print "L: HALT" ;;
      Forte_SendHaptic LeftHand 5 note amplitude ;;
      sleep 0.1 ;;
      Forte_SilenceHaptics LeftHand ;;
      sleep 2
  | LAND =>
      print "L: LAND" ;;
      for_range (range 6) (fun i => Forte_SendHaptic LeftHand i note amplitude) ;;
      sleep 0.1 ;;
      Forte_SilenceHaptics LeftHand ;;
      sleep 2
  | NONE => ret tt
  end.

(** The body of the inner [try] of [right_hand] (lines 239-310). *)
Definition right_hand_body : M unit :=
  s <- sample RightHand ;;
  match right_gesture s with
  | THUMBS_UP =>
      print "R: THUMBS UP" ;;
      Forte_SendHaptic RightHand 0 note amplitude ;;
      Forte_SendHaptic RightHand 5 note amplitude ;;
      sleep 0.1 ;;
      Forte_SilenceHaptics RightHand ;;
      sleep 2
  | PEACE =>
      print "R: PEACE" ;;
      Forte_SendHaptic RightHand 1 note amplitude ;;
      Forte_SendHaptic RightHand 2 note amplitude ;;
      sleep 0.1 ;;
      Forte_SilenceHaptics RightHand ;;
      sleep 2
  | GO_BULLS =>
      print "R: GO BULLS" ;;
      Forte_SendHaptic RightHand 1 note amplitude ;;
      Forte_SendHaptic RightHand 4 note amplitude ;;
      sleep 0.1 ;;
      Forte_SilenceHaptics RightHand ;;
      sleep 2
  | HALT =>
      print "R: HALT" ;;
      Forte_SendHaptic RightHand 5 note amplitude ;;
      sleep 0.1 ;;
      Forte_SilenceHaptics RightHand ;;
      sleep 2
  | LAND =>
      print "R: LAND" ;;
      for_range (range 6) (fun i => Forte_SendHaptic RightHand i note amplitude) ;;
      sleep 0.1 ;;
      Forte_SilenceHaptics RightHand ;;
      sleep 2
  | NONE => ret tt
  end.

(** The [except(GloveDisconnectedException)] clause of both loops
    (lines 220-223 and 312-315). *)
Definition disconnected : M unit :=
  print "Gloves are disconnected..." ;;
  sleep 1.

Definition left_hand_pass : M unit := try_except left_hand_body disconnected.
Definition right_hand_pass : M unit := try_except right_hand_body disconnected.

(** [left_hand], observed for [n] passes of its loop. *)
Fixpoint left_hand (n : nat) : M unit :=
  match n with
  | O => stop OutOfFuel
  | S n' => left_hand_pass ;; left_hand n'
  end.

(** [right_hand], observed for [n] passes of its loop. *)
Fixpoint right_hand (n : nat) : M unit :=
  match n with
  | O => stop OutOfFuel
  | S n' => right_hand_pass ;; right_hand n'
  end.

(** Lines 40-45, 87-92, 97-102. *)
Definition pulse_all : M unit :=
  for_range (range 6) (fun i =>
    Forte_SelectHapticWave LeftHand i 15 ;;
    Forte_SelectHapticWave RightHand i 15 ;;
    Forte_SendHaptic LeftHand i note amplitude ;;
    Forte_SendHaptic RightHand i note amplitude).

(** Lines 38-52. *)
Definition announce : M unit :=
  sleep 5 ;;
  pulse_all ;;
  print "Please hold both hands flat with fingers extended and palms towards the ground for calibration:" ;;
  sleep 0.75 ;;
  silence_both.

(** Lines 55-73. *)
Definition read_both : M (Euler * Euler) :=
  sleep 1 ;;
  print "Calibrating..." ;;
  Forte_SendHaptic LeftHand 5 note amplitude ;;
  Forte_SendHaptic RightHand 5 note amplitude ;;
  sleep 0.1 ;;
  silence_both ;;
  leftIMU <- Forte_GetEulerAngles LeftHand ;;
  rightIMU <- Forte_GetEulerAngles RightHand ;;
  ret (leftIMU, rightIMU).

(** Lines 80-106. *)
Definition commit : M unit :=
  Forte_CalibrateFlat LeftHand ;;
  Forte_HomeIMU LeftHand ;;
  Forte_CalibrateFlat RightHand ;;
  Forte_HomeIMU RightHand ;;
  print "CALIBRATION SUCCESSFUL!" ;;
  pulse_all ;;
  sleep 0.3 ;;
  silence_both ;;
  pulse_all ;;
  sleep 0.4 ;;
  silence_both ;;
  sleep 4.

(** Lines 55-119. *)
Definition measure (st : CalState) : M CalState :=
  imus <- read_both ;;
  let leftIMU := fst imus in
  let rightIMU := snd imus in
  st' <- (if within10 st leftIMU rightIMU
          then commit ;; ret (set_neutral 1 1 st)
          else ret st) ;;
  ret (set_previous (eul2 leftIMU) (eul0 leftIMU) (eul1 leftIMU)
                    (eul2 rightIMU) (eul0 rightIMU) (eul1 rightIMU) st').

(** One pass of the loop of [calibrate] (lines 25-125). *)
Definition calibrate_pass (st : CalState) : M CalState :=
  if Nat.eqb (initial st) 0 then
    let st0 := set_previous 1000 1000 1000 1000 1000 1000 st in
    ready <- try_disconnected (announce ;; ret true) false ;;
    if ready : bool
    then try_disconnected (measure (set_initial 1 st0)) (set_initial 1 st0)
    else ret st0
  else
    try_disconnected (measure st) st.

Fixpoint calibrate_loop (fuel : nat) (st : CalState) : M unit :=
  if Nat.eqb (neutralL st) 0 && Nat.eqb (neutralR st) 0 then
    match fuel with
    | O => stop OutOfFuel
    | S fuel' => st' <- calibrate_pass st ;; calibrate_loop fuel' st'
    end
  else ret tt.

(** [calibrate] (lines 16-130), observed for [fuel] passes. *)
Definition calibrate (fuel : nat) : M unit :=
  calibrate_loop fuel (mkCalState 0 0 0 0 0 0 0 0 0).

End GloveTest.

(** ** Glove traffic *)

(** A driver call, returned or raised. *)
Definition is_glove_event (e : Event) : bool :=
  match e with
  | Glove _ _ | Disconnected _ _ => true
  | _ => false
  end.

(** The driver calls among the events, in order. *)
Definition glove_trace (evs : list Event) : list Event :=
  filter is_glove_event evs.

(** A driver call as the flight program makes it: the playback speed of a
    pulse is the [note] of [HEDO.py]. *)
Definition retune_call (c : GloveCall) : GloveCall :=
  match c with
  | SendHaptic i _ a => SendHaptic i note a
  | _ => c
  end.

Definition retune (e : Event) : Event :=
  match e with
  | Glove h c => Glove h (retune_call c)
  | Disconnected h c => Disconnected h (retune_call c)
  | _ => e
  end.

(** Two worlds with the same gloves in the same state. *)
Definition same_gloves (w1 w2 : World) : Prop :=
  leftHand w1 = leftHand w2 /\ rightHand w1 = rightHand w2.

Definition is_raise {A} (o : Outcome A) : bool :=
  match o with Raise _ => true | _ => false end.

(** On the same gloves [m1] and [m2] end the same way and make the same
    driver calls up to the playback speed, and leave the same gloves. *)
Definition mirrors {A} (m1 m2 : M A) : Prop :=
  forall w1 w2, same_gloves w1 w2 ->
    out (m1 w1) = out (m2 w2)
    /\ map retune (glove_trace (events (m1 w1))) = glove_trace (events (m2 w2))
    /\ same_gloves (world (m1 w1)) (world (m2 w2)).

(** As [mirrors], but of the way they end only whether a disconnection gets
    out is the same. *)
Definition shadows {A B} (m1 : M A) (m2 : M B) : Prop :=
  forall w1 w2, same_gloves w1 w2 ->
    is_raise (out (m1 w1)) = is_raise (out (m2 w2))
    /\ map retune (glove_trace (events (m1 w1))) = glove_trace (events (m2 w2))
    /\ same_gloves (world (m1 w1)) (world (m2 w2)).

(** [m] makes no driver call, leaves the gloves alone and raises nothing. *)
Definition quiet {A} (m : M A) : Prop :=
  forall w,
    glove_trace (events (m w)) = []
    /\ same_gloves w (world (m w))
    /\ is_raise (out (m w)) = false.

(** [l1] is an initial part of [l2]. *)
Definition initial_part (l1 l2 : list Event) : Prop :=
  exists rest, l2 = (l1 ++ rest)%list.

(** The pulses announced on the console. *)
Definition is_out (s : string) (e : Event) : bool :=
  match e with Out s' => String.eqb s' s | _ => false end.

(** Events of the right glove and of the console only. *)
Definition right_glove_or_console (e : Event) : bool :=
  match e with
  | Glove RightHand _ | Disconnected RightHand _ | Out _ | Sleep _ => true
  | _ => false
  end.

(* ================================================================== *)
(** * Running a computation step by step *)

Lemma yields_ret {A} (a : A) (w : World) : yields (ret a) w (Ret a) w [].
Proof. reflexivity. Qed.

Lemma yields_stop {A} (o : Outcome A) (w : World) : yields (stop o) w o w [].
Proof. reflexivity. Qed.

Lemma yields_get_world (w : World) : yields get_world w (Ret w) w [].
Proof. reflexivity. Qed.

Lemma yields_modify (f : World -> World) (w : World) :
  yields (modify f) w (Ret tt) (f w) [].
Proof. reflexivity. Qed.

Lemma yields_emit (e : Event) (w : World) : yields (emit e) w (Ret tt) w [e].
Proof. reflexivity. Qed.

Lemma yields_bind {A B} (m : M A) (k : A -> M B)
      (w w1 w2 : World) (a : A) (o : Outcome B) (e1 e2 : list Event) :
  yields m w (Ret a) w1 e1 -> yields (k a) w1 o w2 e2 ->
  yields (bind m k) w o w2 (e1 ++ e2)%list.
Proof.
  unfold yields, bind. intros H1 H2. rewrite H1. cbn [out world events].
  rewrite H2. reflexivity.
Qed.

Lemma yields_exit {A B} (m : M A) (k : A -> M B)
      (w w1 : World) (c : Z) (e1 : list Event) :
  yields m w (Exit c) w1 e1 -> yields (bind m k) w (Exit c) w1 e1.
Proof. unfold yields, bind. intros ->. reflexivity. Qed.

Lemma yields_raise {A B} (m : M A) (k : A -> M B)
      (w w1 : World) (x : Exn) (e1 : list Event) :
  yields m w (Raise x) w1 e1 -> yields (bind m k) w (Raise x) w1 e1.
Proof. unfold yields, bind. intros ->. reflexivity. Qed.

(** A driver call made while the link is up. *)
Lemma yields_driver (h : Hand) (c : GloveCall) (w : World) :
  link (glove h w) (calls (glove h w)) = true ->
  yields (driver h c) w (Ret tt)
         (set_glove h (mkGloveIO (link (glove h w)) (flexion (glove h w))
                                 (orientation (glove h w))
                                 (S (calls (glove h w)))
                                 (flex_reads (glove h w))
                                 (imu_reads (glove h w))) w)
         [Glove h c].
Proof. unfold yields, driver. intros ->. reflexivity. Qed.

Lemma yields_next_flexion (h : Hand) (w : World) :
  yields (next_flexion h) w
         (Ret (flexion (glove h w) (flex_reads (glove h w))))
         (set_glove h (mkGloveIO (link (glove h w)) (flexion (glove h w))
                                 (orientation (glove h w))
                                 (calls (glove h w))
                                 (S (flex_reads (glove h w)))
                                 (imu_reads (glove h w))) w)
         [].
Proof. reflexivity. Qed.

Lemma yields_next_orientation (h : Hand) (w : World) :
  yields (next_orientation h) w
         (Ret (orientation (glove h w) (imu_reads (glove h w))))
         (set_glove h (mkGloveIO (link (glove h w)) (flexion (glove h w))
                                 (orientation (glove h w))
                                 (calls (glove h w))
                                 (flex_reads (glove h w))
                                 (S (imu_reads (glove h w)))) w)
         [].
Proof. reflexivity. Qed.

Lemma yields_conv {A} (m : M A) (w w' : World) (o o' : Outcome A)
      (e e' : list Event) :
  yields m w o' w' e' -> o' = o -> e' = e -> yields m w o w' e.
Proof. intros H <- <-. exact H. Qed.

Lemma yields_starved {A B} (m : M A) (k : A -> M B)
      (w w1 : World) (e1 : list Event) :
  yields m w Starved w1 e1 -> yields (bind m k) w Starved w1 e1.
Proof. unfold yields, bind. intros ->. reflexivity. Qed.

Lemma yields_self {A} (m : M A) (w : World) :
  yields m w (out (m w)) (world (m w)) (events (m w)).
Proof. unfold yields. destruct (m w). reflexivity. Qed.

(* ================================================================== *)
(** * Refusal without pilot access *)

Lemma differs_true (o : option string) (s : string) :
  o <> Some s -> differs o s = true.
Proof.
  destruct o as [x|]; simpl; intros H; [|reflexivity].
  destruct (String.eqb_spec x s) as [->|]; [congruence | reflexivity].
Qed.

Lemma differs_same (s : string) : differs (Some s) s = false.
Proof. simpl. now rewrite String.eqb_refl. Qed.

(** C7 (as amended).  Without PILOT access [takeoff] prints the refusal on
    stderr and returns normally, raising nothing: nothing is sent to the
    vehicle (no status refresh, no fault override, no command) and the
    world, the session fields included, is as it was. *)
Theorem takeoff_refused_without_pilot (w : World) :
  access_level (client w) <> Some "PILOT" ->
  takeoff w
  = mkResult (Ret tt) w [Call m_takeoff; Err ("Cannot takeoff: not pilot" ++ nl)].
Proof.
  intros H. unfold takeoff, bind, emit, get_world, fmt_err. cbn.
  rewrite (differs_true _ _ H). reflexivity.
Qed.

(** C10.  Without PILOT access [land] returns at once: no [land] command
    and no status poll is sent, and the world is as it was; so the fail-safe
    clause of the input loops sends nothing to the vehicle either. *)
Theorem land_refused_without_pilot (w : World) :
  access_level (client w) <> Some "PILOT" ->
  land w
  = mkResult (Ret tt) w [Call m_land; Err ("Cannot land: not pilot" ++ nl)]
  /\ fail_safe w
     = mkResult (Ret tt) w
         [Out "Gloves are disconnected..."; Sleep 1;
          Call m_land; Err ("Cannot land: not pilot" ++ nl)].
Proof.
  intros H.
  assert (E : land w
    = mkResult (Ret tt) w [Call m_land; Err ("Cannot land: not pilot" ++ nl)]).
  { unfold land, bind, emit, get_world, fmt_err. cbn.
    rewrite (differs_true _ _ H). reflexivity. }
  split; [exact E|].
  unfold fail_safe, bind, print, sleep, emit. cbn -[land]. rewrite E. reflexivity.
Qed.

Lemma takeoff_refused_witness :
  takeoff phone_world
  = mkResult (Ret tt) phone_world
      [Call m_takeoff; Err ("Cannot takeoff: not pilot" ++ nl)].
Proof. apply takeoff_refused_without_pilot. simpl. discriminate. Defined.

(** C7 as stated fails: a refused [takeoff] does not fail with an error.
    Lines 222-224 print to stderr and return, so that the call ends as a
    takeoff that has completed does, and no exception reaches the caller. *)
Lemma takeoff_refusal_raises_nothing :
  access_level (client phone_world) <> Some "PILOT"
  /\ out (takeoff phone_world) = Ret tt
  /\ out (takeoff phone_world) = out (takeoff takeoff_script)
  /\ ~ (exists e, out (takeoff phone_world) = Raise e).
Proof.
  split; [discriminate|]. split; [reflexivity|]. split; [reflexivity|].
  intros [e H]. discriminate H.
Qed.

Lemma land_refused_witness :
  land phone_world
  = mkResult (Ret tt) phone_world
      [Call m_land; Err ("Cannot land: not pilot" ++ nl)].
Proof.
  apply (proj1 (land_refused_without_pilot phone_world
                  ltac:(simpl; discriminate))).
Defined.

(* ================================================================== *)
(** * Scripted runs of [land] and [takeoff] *)

(** C1 (as amended).  With PILOT access and the status replies FLYING,
    FLYING, REST, [land] sends a [land] command before each of its three
    polls, three in all, and returns on the poll that reports REST. *)
Theorem land_flying_flying_rest (w : World) (r1 r2 r3 : StatusReply) :
  is_pilot w ->
  statuses w = [r1; r2; r3] ->
  reports "FLYING" r1 -> reports "FLYING" r2 -> reports "REST" r3 ->
  out (land w) = Ret tt
  /\ commands "land" (events (land w)) = 3%nat
  /\ statuses (world (land w)) = []
  /\ events (land w)
     = [Call m_land;
        Out ("Sending LAND" ++ nl); Http (async_command "land"); Sleep 1;
        Http (status (if_set (session_id (client w))));
        Out ("Sending LAND" ++ nl); Http (async_command "land"); Sleep 1;
        Http (status (if_set (Some (sessionId r1))));
        Out ("Sending LAND" ++ nl); Http (async_command "land"); Sleep 1;
        Http (status (if_set (Some (sessionId r2))))].
Proof.
  unfold is_pilot, reports.
  destruct w as [[cid tok lvl sid] au st fr gl gr].
  destruct r1 as [s1 p1], r2 as [s2 p2], r3 as [s3 p3]. simpl.
  intros -> -> -> -> ->.
  repeat split; vm_compute; reflexivity.
Qed.

Lemma land_flying_flying_rest_witness :
  out (land flying_flying_rest) = Ret tt
  /\ commands "land" (events (land flying_flying_rest)) = 3%nat.
Proof.
  pose proof (land_flying_flying_rest flying_flying_rest
                (phase "FLYING") (phase "FLYING") (phase "REST")
                eq_refl eq_refl eq_refl eq_refl eq_refl) as H.
  split; [exact (proj1 H) | exact (proj1 (proj2 H))].
Defined.

(** C1 as stated fails: on that script [land] does not send exactly two
    [land] commands. *)
Lemma land_not_two_commands :
  ~ (out (land flying_flying_rest) = Ret tt
     /\ commands "land" (events (land flying_flying_rest)) = 2%nat).
Proof. intros [_ H]. vm_compute in H. discriminate. Qed.

(** C6.  With PILOT access and the status replies REST, PREP,
    READY_FOR_GROUND_TAKEOFF, READY_FOR_GROUND_TAKEOFF, FLYING, [takeoff]
    sends one [ground_takeoff] command right after each poll that reports
    READY_FOR_GROUND_TAKEOFF, two in all, and returns on the poll that
    reports FLYING, with nothing sent after it. *)
Theorem takeoff_scripted (w : World) (r1 r2 r3 r4 r5 : StatusReply) :
  is_pilot w ->
  statuses w = [r1; r2; r3; r4; r5] ->
  reports "REST" r1 -> reports "PREP" r2 ->
  reports "READY_FOR_GROUND_TAKEOFF" r3 ->
  reports "READY_FOR_GROUND_TAKEOFF" r4 ->
  reports "FLYING" r5 ->
  out (takeoff w) = Ret tt
  /\ commands "ground_takeoff" (events (takeoff w)) = 2%nat
  /\ statuses (world (takeoff w)) = []
  /\ events (takeoff w)
     = [Call m_takeoff;
        Http (status (if_set (session_id (client w))));
        Http (set_fault_override 2); Http (set_fault_override 3);
        Sleep 2; Http (status (if_set (Some (sessionId r1))));
        Out ("Calibrating Cameras" ++ nl);
        Sleep 2; Http (status (if_set (Some (sessionId r2))));
        Out ("Publishing ground takeoff" ++ nl);
        Http (async_command "ground_takeoff");
        Sleep 2; Http (status (if_set (Some (sessionId r3))));
        Out ("Publishing ground takeoff" ++ nl);
        Http (async_command "ground_takeoff");
        Sleep 2; Http (status (if_set (Some (sessionId r4))));
        Out ("Flying." ++ nl)].
Proof.
  unfold is_pilot, reports.
  destruct w as [[cid tok lvl sid] au st fr gl gr].
  destruct r1 as [s1 p1], r2 as [s2 p2], r3 as [s3 p3], r4 as [s4 p4],
           r5 as [s5 p5]. simpl.
  intros -> -> -> -> -> -> ->.
  repeat split; vm_compute; reflexivity.
Qed.

Lemma takeoff_scripted_witness :
  out (takeoff takeoff_script) = Ret tt
  /\ commands "ground_takeoff" (events (takeoff takeoff_script)) = 2%nat.
Proof.
  pose proof (takeoff_scripted takeoff_script
                (phase "REST") (phase "PREP")
                (phase "READY_FOR_GROUND_TAKEOFF")
                (phase "READY_FOR_GROUND_TAKEOFF") (phase "FLYING")
                eq_refl eq_refl eq_refl eq_refl eq_refl eq_refl eq_refl) as H.
  split; [exact (proj1 H) | exact (proj1 (proj2 H))].
Defined.

(* ================================================================== *)
(** * Authentication *)

(** C5.  When PILOT is requested and the reply grants another level (or
    none), [_authenticate] ends the process with [sys.exit(1)]: the only
    request sent is the authentication itself, no access token is stored,
    and whatever the program would do next is not run. *)
Theorem authenticate_pilot_mismatch_exits
        (strip : string -> string) (token_file : option TokenFile) (w : World) :
  accessLevel (auth_reply w) <> Some "PILOT" ->
  let r := _authenticate strip true token_file w in
  out r = Exit 1
  /\ events r
     = match token_file with
       | Some (mkTokenFile p None) =>
           [Err ("Token file does not exist: " ++ p ++ nl)]
       | Some (mkTokenFile _ (Some token)) =>
           [Http (authentication (client_id (client w)) 8 (Some (strip token)));
            Err ("Did not successfully auth as pilot" ++ nl)]
       | None =>
           [Http (authentication (client_id (client w)) 8 None);
            Err ("Did not successfully auth as pilot" ++ nl)]
       end
  /\ access_token (client (world r)) = access_token (client w)
  /\ statuses (world r) = statuses w
  /\ forall (B : Type) (k : unit -> M B),
       out (bind (_authenticate strip true token_file) k w) = Exit 1
       /\ events (bind (_authenticate strip true token_file) k w) = events r.
Proof.
  intros H r.
  assert (D : differs (accessLevel (auth_reply w)) "PILOT" = true)
    by (apply differs_true; exact H).
  assert (Y : exists w' evs,
             yields (_authenticate strip true token_file) w (Exit 1) w' evs
             /\ access_token (client w') = access_token (client w)
             /\ statuses w' = statuses w
             /\ evs = match token_file with
                      | Some (mkTokenFile p None) =>
                          [Err ("Token file does not exist: " ++ p ++ nl)]
                      | Some (mkTokenFile _ (Some token)) =>
                          [Http (authentication (client_id (client w)) 8
                                                (Some (strip token)));
                           Err ("Did not successfully auth as pilot" ++ nl)]
                      | None =>
                          [Http (authentication (client_id (client w)) 8 None);
                           Err ("Did not successfully auth as pilot" ++ nl)]
                      end).
  { unfold _authenticate.
    destruct token_file as [[p [t|]]|]; cbn [contents path].
    - eexists; eexists; split; [|split; [|split]].
      + eapply yields_bind; [apply yields_get_world|].
        eapply yields_bind; [apply yields_ret|].
        eapply yields_bind; [apply yields_emit|].
        eapply yields_bind; [apply yields_modify|].
        eapply yields_exit.
        cbn [andb access_level]. rewrite D.
        eapply yields_bind; [apply yields_emit|]. apply yields_stop.
      + reflexivity.
      + reflexivity.
      + reflexivity.
    - eexists; eexists; split; [|split; [|split]].
      + eapply yields_bind; [apply yields_get_world|].
        eapply yields_exit.
        eapply yields_bind; [apply yields_emit|]. apply yields_stop.
      + reflexivity.
      + reflexivity.
      + reflexivity.
    - eexists; eexists; split; [|split; [|split]].
      + eapply yields_bind; [apply yields_get_world|].
        eapply yields_bind; [apply yields_ret|].
        eapply yields_bind; [apply yields_emit|].
        eapply yields_bind; [apply yields_modify|].
        eapply yields_exit.
        cbn [andb access_level]. rewrite D.
        eapply yields_bind; [apply yields_emit|]. apply yields_stop.
      + reflexivity.
      + reflexivity.
      + reflexivity. }
  destruct Y as (w' & evs & Y & T & S & E).
  assert (R : r = mkResult (Exit 1) w' evs) by exact Y.
  rewrite R. cbn [out world events].
  repeat split; try assumption.
  - unfold bind. fold r. rewrite R. reflexivity.
  - unfold bind. fold r. rewrite R. reflexivity.
Qed.

Lemma authenticate_pilot_mismatch_witness :
  out (_authenticate (fun s => s) true None phone_world) = Exit 1.
Proof.
  apply (authenticate_pilot_mismatch_exits (fun s => s) None phone_world).
  simpl. discriminate.
Defined.

(* ================================================================== *)
(** * Gestures *)

(** C8.  The fully open, level palm takes the LAND branch on both hands, and
    the condition of no other branch holds for it. *)
Theorem open_palm_is_land_only :
  left_gesture open_palm = LAND
  /\ right_gesture open_palm = LAND
  /\ left_thumbs_up open_palm = false
  /\ right_thumbs_up open_palm = false
  /\ peace open_palm = false
  /\ go_bulls open_palm = false
  /\ halt open_palm = false
  /\ left_land open_palm = true
  /\ right_land open_palm = true.
Proof. repeat split; vm_compute; reflexivity. Qed.

Ltac qbool :=
  repeat match goal with
         | H : _ && _ = true |- _ => apply andb_prop in H; destruct H
         | H : Qle_bool _ _ = true |- _ => apply Qle_bool_iff in H
         | |- _ && _ = true => apply andb_true_intro; split
         | |- Qle_bool _ _ = true => apply Qle_bool_iff
         end.

Lemma flat_palm_no_earlier_rule (s : HandSnapshot) :
  flexions_nonneg s -> flat_palm s ->
  left_thumbs_up s = false /\ right_thumbs_up s = false
  /\ peace s = false /\ go_bulls s = false /\ halt s = false.
Proof.
  intros (H1 & H2 & H3 & H4 & H5) (F1 & F2 & F3 & F4 & F5).
  repeat split.
  - destruct (left_thumbs_up s) eqn:E; [|reflexivity].
    exfalso. unfold left_thumbs_up in E. qbool. lra.
  - destruct (right_thumbs_up s) eqn:E; [|reflexivity].
    exfalso. unfold right_thumbs_up in E. qbool. lra.
  - destruct (peace s) eqn:E; [|reflexivity].
    exfalso. unfold peace in E. qbool. lra.
  - destruct (go_bulls s) eqn:E; [|reflexivity].
    exfalso. unfold go_bulls in E. qbool. lra.
  - destruct (halt s) eqn:E; [|reflexivity].
    exfalso. unfold halt in E. qbool. lra.
Qed.

(** C2 (as amended).  For a snapshot whose flexions are not negative: the
    left hand takes the LAND branch exactly when all five flexions are at
    most 0.080972 and pitch ([XL]) and yaw ([YL]) both lie within -25 and
    25 degrees; the right hand takes it exactly when all five flexions are at
    most 0.080972, pitch ([XR]) lies within -25 and 25 degrees and yaw ([YR])
    within -15 and 25 degrees. *)
Theorem land_gesture_iff (s : HandSnapshot) :
  flexions_nonneg s ->
  (left_gesture s = LAND <->
     flat_palm s /\ (-25 <= angX s <= 25) /\ (-25 <= angY s <= 25))
  /\ (right_gesture s = LAND <->
        flat_palm s /\ (-25 <= angX s <= 25) /\ (-15 <= angY s <= 25)).
Proof.
  intros N. split; split.
  - unfold left_gesture.
    destruct (left_thumbs_up s); [discriminate|].
    destruct (peace s); [discriminate|].
    destruct (go_bulls s); [discriminate|].
    destruct (halt s); [discriminate|].
    destruct (left_land s) eqn:E; [|discriminate]. intros _.
    unfold left_land in E. qbool. unfold flat_palm. tauto.
  - intros (F & (X1 & X2) & (Y1 & Y2)).
    destruct (flat_palm_no_earlier_rule s N F) as (T & _ & P & G & H).
    unfold left_gesture. rewrite T, P, G, H.
    assert (L : left_land s = true).
    { destruct F as (F1 & F2 & F3 & F4 & F5). unfold left_land. qbool; assumption. }
    rewrite L. reflexivity.
  - unfold right_gesture.
    destruct (right_thumbs_up s); [discriminate|].
    destruct (peace s); [discriminate|].
    destruct (go_bulls s); [discriminate|].
    destruct (halt s); [discriminate|].
    destruct (right_land s) eqn:E; [|discriminate]. intros _.
    unfold right_land in E. qbool. unfold flat_palm. tauto.
  - intros (F & (X1 & X2) & (Y1 & Y2)).
    destruct (flat_palm_no_earlier_rule s N F) as (_ & T & P & G & H).
    unfold right_gesture. rewrite T, P, G, H.
    assert (L : right_land s = true).
    { destruct F as (F1 & F2 & F3 & F4 & F5). unfold right_land. qbool; assumption. }
    rewrite L. reflexivity.
Qed.

Lemma land_gesture_iff_witness :
  left_gesture open_palm = LAND <->
  flat_palm open_palm /\ (-25 <= angX open_palm <= 25)
  /\ (-25 <= angY open_palm <= 25).
Proof.
  apply (land_gesture_iff open_palm).
  unfold flexions_nonneg. repeat split; vm_compute; discriminate.
Defined.

(** C2 as stated fails on the right hand: with all flexions 0 and a yaw of
    -20 degrees the claimed condition holds, and the branch taken is not
    LAND. *)
Lemma right_land_rejects_yaw_m20 :
  flat_palm open_palm_yaw_m20
  /\ (-25 <= angX open_palm_yaw_m20 <= 25)
  /\ (-25 <= angY open_palm_yaw_m20 <= 25)
  /\ right_gesture open_palm_yaw_m20 <> LAND.
Proof.
  unfold flat_palm.
  repeat split; try (vm_compute; discriminate).
Qed.

(* ================================================================== *)
(** * What a computation emits *)

Lemma out_bind_raise {A B} (m : M A) (k : A -> M B) (w : World) (e : Exn) :
  out (bind m k w) = Raise e ->
  out (m w) = Raise e
  \/ exists a, out (m w) = Ret a /\ out (k a (world (m w))) = Raise e.
Proof.
  unfold bind. destruct (out (m w)) as [a| | | |] eqn:E; cbn; intros H;
    try discriminate.
  - right. exists a. split; [reflexivity | exact H].
  - left. now destruct e, e0.
Qed.

Lemma events_bind {A B} (m : M A) (k : A -> M B) (w : World) :
  events (bind m k w)
  = match out (m w) with
    | Ret a => (events (m w) ++ events (k a (world (m w))))%list
    | _ => events (m w)
    end.
Proof. unfold bind. destruct (out (m w)); reflexivity. Qed.

Section EmitsOnly.

Variable P : Event -> bool.

Lemma eo_ret {A} (a : A) : emits_only P (ret a).
Proof. intros w. reflexivity. Qed.

Lemma eo_stop {A} (o : Outcome A) : emits_only P (stop o).
Proof. intros w. reflexivity. Qed.

Lemma eo_get_world : emits_only P get_world.
Proof. intros w. reflexivity. Qed.

Lemma eo_modify (f : World -> World) : emits_only P (modify f).
Proof. intros w. reflexivity. Qed.

Lemma eo_emit (e : Event) : P e = true -> emits_only P (emit e).
Proof. intros H w. cbn. now rewrite H. Qed.

Lemma eo_bind {A B} (m : M A) (k : A -> M B) :
  emits_only P m -> (forall a, emits_only P (k a)) -> emits_only P (bind m k).
Proof.
  intros Hm Hk w. rewrite events_bind.
  destruct (out (m w)); try apply Hm.
  rewrite forallb_app, Hm, Hk. reflexivity.
Qed.

Lemma eo_try_except (m h : M unit) :
  emits_only P m -> emits_only P h -> emits_only P (try_except m h).
Proof.
  intros Hm Hh w. unfold try_except.
  destruct (out (m w)) as [a|[]| | |]; try apply Hm.
  cbn. rewrite forallb_app, Hm, Hh. reflexivity.
Qed.

Lemma eo_for_range (l : list nat) (body : nat -> M unit) :
  (forall i, emits_only P (body i)) -> emits_only P (for_range l body).
Proof.
  intros H. induction l as [|i l IH]; cbn [for_range].
  - apply eo_ret.
  - apply eo_bind; [apply H | intros _; exact IH].
Qed.

Lemma eo_driver (h : Hand) (c : GloveCall) :
  P (Glove h c) = true -> P (Disconnected h c) = true ->
  emits_only P (driver h c).
Proof.
  intros H1 H2 w. unfold driver.
  destruct (link (glove h w) (calls (glove h w))); cbn;
    now rewrite ?H1, ?H2.
Qed.

Lemma eo_next_flexion (h : Hand) : emits_only P (next_flexion h).
Proof. intros w. reflexivity. Qed.

Lemma eo_next_orientation (h : Hand) : emits_only P (next_orientation h).
Proof. intros w. reflexivity. Qed.

End EmitsOnly.

Lemma eo_weaken (P Q : Event -> bool) {A} (m : M A) :
  (forall e, P e = true -> Q e = true) -> emits_only P m -> emits_only Q m.
Proof.
  intros H Hm w. specialize (Hm w).
  rewrite forallb_forall in *. intros e He. apply H, Hm, He.
Qed.

Lemma nr_ret {A} (a : A) : never_raises (ret a).
Proof. intros w e. discriminate. Qed.

Lemma nr_stop {A} (o : Outcome A) : (forall e, o <> Raise e) -> never_raises (stop o).
Proof. intros H w e. apply H. Qed.

Lemma nr_get_world : never_raises get_world.
Proof. intros w e. discriminate. Qed.

Lemma nr_modify (f : World -> World) : never_raises (modify f).
Proof. intros w e. discriminate. Qed.

Lemma nr_emit (e : Event) : never_raises (emit e).
Proof. intros w x. discriminate. Qed.

Lemma nr_bind {A B} (m : M A) (k : A -> M B) :
  never_raises m -> (forall a, never_raises (k a)) -> never_raises (bind m k).
Proof.
  intros Hm Hk w e H. apply out_bind_raise in H as [H|(a & _ & H)].
  - exact (Hm w e H).
  - exact (Hk a _ e H).
Qed.

(** Tactics that take a computation apart along its [bind]s. *)
Ltac eo_step :=
  first [ apply eo_ret | apply eo_stop | apply eo_get_world | apply eo_modify
        | apply eo_next_flexion | apply eo_next_orientation
        | apply eo_emit; reflexivity
        | apply eo_driver; reflexivity
        | apply eo_for_range; intros
        | apply eo_try_except
        | apply eo_bind; [|intros] ].

Ltac nr_step :=
  first [ apply nr_ret | apply nr_get_world | apply nr_modify | apply nr_emit
        | apply nr_stop; intros; discriminate
        | apply nr_bind; [|intros] ].

(* ================================================================== *)
(** * [land] and [takeoff] never touch the gloves *)

Lemma update_pilot_status_chatter : emits_only is_chatter update_pilot_status.
Proof.
  unfold update_pilot_status. apply eo_bind; [eo_step|]. intros w.
  apply eo_bind; [eo_step|]. intros _.
  destruct (statuses w); repeat eo_step.
Qed.

Lemma update_pilot_status_never_raises : never_raises update_pilot_status.
Proof.
  unfold update_pilot_status. apply nr_bind; [nr_step|]. intros w.
  apply nr_bind; [nr_step|]. intros _.
  destruct (statuses w); repeat nr_step.
Qed.

Lemma get_blocking_faults_chatter : emits_only is_chatter get_blocking_faults.
Proof.
  unfold get_blocking_faults. apply eo_bind; [eo_step|]. intros w.
  apply eo_bind; [eo_step|]. intros _.
  destruct (fault_replies w); repeat eo_step.
Qed.

Lemma get_blocking_faults_never_raises : never_raises get_blocking_faults.
Proof.
  unfold get_blocking_faults. apply nr_bind; [nr_step|]. intros w.
  apply nr_bind; [nr_step|]. intros _.
  destruct (fault_replies w); repeat nr_step.
Qed.

Lemma disable_faults_chatter : emits_only is_chatter disable_faults.
Proof. unfold disable_faults. cbn [fold_right snd]. repeat eo_step. Qed.

Lemma disable_faults_never_raises : never_raises disable_faults.
Proof. unfold disable_faults. cbn [fold_right snd]. repeat nr_step. Qed.

Lemma land_loop_chatter (fuel : nat) :
  forall phase, emits_only is_chatter (land_loop fuel phase).
Proof.
  induction fuel as [|fuel IH]; intros phase; cbn [land_loop].
  - eo_step.
  - destruct (phase =? "FLYING")%string; [|eo_step].
    unfold fmt_out, sleep.
    apply eo_bind; [eo_step|]. intros _.
    apply eo_bind; [eo_step|]. intros _.
    apply eo_bind; [eo_step|]. intros _.
    apply eo_bind; [apply update_pilot_status_chatter|]. intros r.
    destruct (negb (truthy (flightPhase r))); apply IH.
Qed.

Lemma land_loop_never_raises (fuel : nat) :
  forall phase, never_raises (land_loop fuel phase).
Proof.
  induction fuel as [|fuel IH]; intros phase; cbn [land_loop].
  - nr_step.
  - destruct (phase =? "FLYING")%string; [|nr_step].
    unfold fmt_out, sleep.
    apply nr_bind; [nr_step|]. intros _.
    apply nr_bind; [nr_step|]. intros _.
    apply nr_bind; [nr_step|]. intros _.
    apply nr_bind; [apply update_pilot_status_never_raises|]. intros r.
    destruct (negb (truthy (flightPhase r))); apply IH.
Qed.

Lemma takeoff_loop_chatter (fuel : nat) :
  emits_only is_chatter (takeoff_loop fuel).
Proof.
  induction fuel as [|fuel IH]; cbn [takeoff_loop].
  - eo_step.
  - unfold fmt_out, sleep.
    apply eo_bind; [eo_step|]. intros _.
    apply eo_bind; [apply update_pilot_status_chatter|]. intros r.
    destruct (negb (truthy (flightPhase r))); [exact IH|].
    repeat match goal with
           | |- emits_only _ (if ?b then _ else _) => destruct b
           end;
      repeat first [ exact IH | apply get_blocking_faults_chatter | eo_step ].
Qed.

Lemma takeoff_loop_never_raises (fuel : nat) :
  never_raises (takeoff_loop fuel).
Proof.
  induction fuel as [|fuel IH]; cbn [takeoff_loop].
  - nr_step.
  - unfold fmt_out, sleep.
    apply nr_bind; [nr_step|]. intros _.
    apply nr_bind; [apply update_pilot_status_never_raises|]. intros r.
    destruct (negb (truthy (flightPhase r))); [exact IH|].
    repeat match goal with
           | |- never_raises (if ?b then _ else _) => destruct b
           end;
      repeat first [ exact IH | apply get_blocking_faults_never_raises | nr_step ].
Qed.

(** [land] marks its entry and after that only talks to the vehicle and the
    console. *)
Lemma land_shape (w : World) :
  exists evs,
    events (land w) = Call m_land :: evs
    /\ forallb is_chatter evs = true
    /\ forall e, out (land w) <> Raise e.
Proof.
  unfold land. rewrite events_bind. cbn [emit out events world app].
  match goal with
  | |- context [events (?m w)] => exists (events (m w)); set (rest := m)
  end.
  assert (C : emits_only is_chatter rest).
  { subst rest. apply eo_bind; [eo_step|]. intros w'. unfold fmt_err.
    destruct (differs _ _); [eo_step | apply land_loop_chatter]. }
  assert (N : never_raises rest).
  { subst rest. apply nr_bind; [nr_step|]. intros w'. unfold fmt_err.
    destruct (differs _ _); [nr_step | apply land_loop_never_raises]. }
  split; [reflexivity|]. split; [apply C|].
  intros e H. apply out_bind_raise in H as [H|(a & _ & H)].
  - discriminate.
  - exact (N _ _ H).
Qed.

Lemma takeoff_shape (w : World) :
  exists evs,
    events (takeoff w) = Call m_takeoff :: evs
    /\ forallb is_chatter evs = true
    /\ forall e, out (takeoff w) <> Raise e.
Proof.
  unfold takeoff. rewrite events_bind. cbn [emit out events world app].
  match goal with
  | |- context [events (?m w)] => exists (events (m w)); set (rest := m)
  end.
  assert (C : emits_only is_chatter rest).
  { subst rest. apply eo_bind; [eo_step|]. intros w'. unfold fmt_err.
    destruct (differs _ _); [eo_step|].
    apply eo_bind; [apply update_pilot_status_chatter|]. intros _.
    apply eo_bind; [apply disable_faults_chatter|]. intros _.
    apply eo_bind; [eo_step|]. intros w''. apply takeoff_loop_chatter. }
  assert (N : never_raises rest).
  { subst rest. apply nr_bind; [nr_step|]. intros w'. unfold fmt_err.
    destruct (differs _ _); [nr_step|].
    apply nr_bind; [apply update_pilot_status_never_raises|]. intros _.
    apply nr_bind; [apply disable_faults_never_raises|]. intros _.
    apply nr_bind; [nr_step|]. intros w''. apply takeoff_loop_never_raises. }
  split; [reflexivity|]. split; [apply C|].
  intros e H. apply out_bind_raise in H as [H|(a & _ & H)].
  - discriminate.
  - exact (N _ _ H).
Qed.

(* ================================================================== *)
(** * The loops of [land] and [takeoff] never run out of fuel *)

Lemma out_bind {A B} (m : M A) (k : A -> M B) (w : World) :
  out (bind m k w)
  = match out (m w) with
    | Ret a => out (k a (world (m w)))
    | Raise e => Raise e
    | Exit c => Exit c
    | Starved => Starved
    | OutOfFuel => OutOfFuel
    end.
Proof. unfold bind. destruct (out (m w)); reflexivity. Qed.

Lemma update_pilot_status_starved (w : World) :
  statuses w = [] ->
  yields update_pilot_status w Starved w
         [Http (status (if_set (session_id (client w))))].
Proof.
  intros E. unfold update_pilot_status.
  eapply yields_conv.
  - eapply yields_bind; [apply yields_get_world|]. cbv beta.
    eapply yields_bind; [apply yields_emit|]. cbv beta.
    rewrite E. apply yields_stop.
  - reflexivity.
  - reflexivity.
Qed.

Lemma update_pilot_status_yields (w : World) (r : StatusReply)
      (rest : list StatusReply) :
  statuses w = r :: rest ->
  yields update_pilot_status w (Ret r)
         (set_client (mkSession (client_id (client w)) (access_token (client w))
                                (access_level (client w)) (Some (sessionId r)))
                     (set_statuses rest w))
         [Http (status (if_set (session_id (client w))))].
Proof.
  intros E. unfold update_pilot_status, put_client.
  eapply yields_conv.
  - eapply yields_bind; [apply yields_get_world|]. cbv beta.
    eapply yields_bind; [apply yields_emit|]. cbv beta.
    rewrite E.
    eapply yields_bind; [apply yields_modify|]. cbv beta.
    eapply yields_bind; [apply yields_modify|]. cbv beta.
    apply yields_ret.
  - reflexivity.
  - reflexivity.
Qed.

Lemma get_blocking_faults_starved (w : World) :
  fault_replies w = [] ->
  yields get_blocking_faults w Starved w [Http active_faults].
Proof.
  intros E. unfold get_blocking_faults.
  eapply yields_conv.
  - eapply yields_bind; [apply yields_get_world|]. cbv beta.
    eapply yields_bind; [apply yields_emit|]. cbv beta.
    rewrite E. apply yields_stop.
  - reflexivity.
  - reflexivity.
Qed.

Lemma get_blocking_faults_yields (w : World) (faults : list Fault)
      (rest : list (list Fault)) :
  fault_replies w = faults :: rest ->
  yields get_blocking_faults w (Ret (map name (filter relevant faults)))
         (set_fault_replies rest w) [Http active_faults].
Proof.
  intros E. unfold get_blocking_faults.
  eapply yields_conv.
  - eapply yields_bind; [apply yields_get_world|]. cbv beta.
    eapply yields_bind; [apply yields_emit|]. cbv beta.
    rewrite E.
    eapply yields_bind; [apply yields_modify|]. cbv beta.
    apply yields_ret.
  - reflexivity.
  - reflexivity.
Qed.

Lemma land_loop_fuelled (fuel : nat) :
  forall (phase : string) (w : World),
    (List.length (statuses w) < fuel)%nat ->
    out (land_loop fuel phase w) <> OutOfFuel.
Proof.
  induction fuel as [|fuel IH]; intros phase w L; [lia|].
  cbn [land_loop]. destruct (phase =? "FLYING")%string; [|discriminate].
  unfold fmt_out, sleep.
  rewrite out_bind; cbn [emit out world].
  rewrite out_bind; cbn [emit out world].
  rewrite out_bind; cbn [emit out world].
  rewrite out_bind.
  destruct (statuses w) as [|r rest] eqn:E.
  - pose proof (update_pilot_status_starved w E) as Y; unfold yields in Y;
    rewrite !Y. cbn [out]. discriminate.
  - pose proof (update_pilot_status_yields w r rest E) as Y; unfold yields in Y;
    rewrite !Y. cbn [out world].
    destruct (negb (truthy (flightPhase r))); apply IH;
      unfold set_client, set_statuses; cbn [statuses]; simpl in L; lia.
Qed.

Lemma takeoff_loop_fuelled (fuel : nat) :
  forall w : World,
    (List.length (statuses w) < fuel)%nat ->
    out (takeoff_loop fuel w) <> OutOfFuel.
Proof.
  induction fuel as [|fuel IH]; intros w L; [lia|].
  cbn [takeoff_loop]. unfold fmt_out, sleep.
  rewrite out_bind; cbn [emit out world].
  rewrite out_bind.
  destruct (statuses w) as [|r rest] eqn:E.
  - pose proof (update_pilot_status_starved w E) as Y; unfold yields in Y;
    rewrite !Y. cbn [out]. discriminate.
  - pose proof (update_pilot_status_yields w r rest E) as Y; unfold yields in Y;
    rewrite !Y. cbn [out world].
    set (w1 := set_client _ _).
    assert (L1 : (List.length (statuses w1) < fuel)%nat).
    { subst w1. unfold set_client, set_statuses. cbn [statuses]. simpl in L. lia. }
    clearbody w1.
    destruct (negb (truthy (flightPhase r))); [apply IH, L1|].
    repeat match goal with
           | |- out ((if ?b then _ else _) _) <> _ => destruct b
           end;
      try (rewrite out_bind; cbn [emit out world]);
      try (rewrite out_bind; cbn [emit out world]);
      try (apply IH, L1); try discriminate.
    destruct (fault_replies w1) as [|f fs] eqn:EF.
    + pose proof (get_blocking_faults_starved w1 EF) as YF;
        unfold yields in YF; rewrite !YF. cbn [out]. discriminate.
    + pose proof (get_blocking_faults_yields w1 f fs EF) as YF;
        unfold yields in YF; rewrite !YF. cbn [out world].
      rewrite out_bind; cbn [emit out world].
      apply IH. exact L1.
Qed.

(** The fuel that [land] and [takeoff] give their loops always suffices:
    both either return or are left waiting for a status reply. *)
Lemma land_fuelled (w : World) : out (land w) <> OutOfFuel.
Proof.
  unfold land. rewrite out_bind; cbn [emit out world].
  rewrite out_bind; cbn [get_world out world].
  destruct (differs _ _); [discriminate|].
  apply land_loop_fuelled. lia.
Qed.

Lemma takeoff_fuelled (w : World) : out (takeoff w) <> OutOfFuel.
Proof.
  unfold takeoff. rewrite out_bind; cbn [emit out world].
  rewrite out_bind; cbn [get_world out world].
  destruct (differs _ _); [discriminate|].
  rewrite out_bind.
  destruct (statuses w) as [|r rest] eqn:E.
  - pose proof (update_pilot_status_starved w E) as Y; unfold yields in Y;
    rewrite !Y. cbn [out]. discriminate.
  - pose proof (update_pilot_status_yields w r rest E) as Y; unfold yields in Y;
    rewrite !Y. cbn [out world].
    rewrite out_bind. unfold disable_faults. cbn [fold_right snd].
    rewrite out_bind; cbn [emit out world].
    rewrite out_bind; cbn [emit out world].
    cbn [ret out world].
    rewrite out_bind; cbn [get_world out world].
    apply takeoff_loop_fuelled. lia.
Qed.

(* ================================================================== *)
(** * The fail-safe monitor *)

Lemma scan_app (st : option nat) (a b : list Event) :
  scan st (a ++ b)%list
  = match scan st a with
    | Some st' => scan st' b
    | None => None
    end.
Proof.
  revert st. induction a as [|e a IH]; intros st; [reflexivity|].
  cbn [app scan].
  destruct e as [r|s|s|q|h c|h c|[|]]; try apply IH;
    destruct st as [k|]; try apply IH; destruct (Nat.eqb k 1); auto.
Qed.

Lemma scan_chatter (st : option nat) (evs : list Event) :
  forallb is_chatter evs = true -> scan st evs = Some st.
Proof.
  induction evs as [|e evs IH]; [reflexivity|].
  cbn [forallb]. intros H. apply andb_prop in H as [He H].
  destruct e; try discriminate; cbn [scan]; auto.
Qed.

Lemma scan_poll_first (e : Event) (evs : list Event) :
  is_driver_call e = true ->
  scan (Some 1%nat) (e :: evs) = scan None (e :: evs).
Proof. destruct e; try discriminate; reflexivity. Qed.

(** What the monitor guarantees: after a disconnection, the events up to
    the next driver call (or up to the end) hold one call of [land]. *)
Lemma scan_pending (rest : list Event) :
  forall k st',
    scan (Some k) rest = Some st' -> settled st' ->
    (k + land_calls (until_poll rest) = 1)%nat.
Proof.
  unfold land_calls.
  induction rest as [|e rest IH]; intros k st' H S.
  - cbn in H. injection H as <-. destruct S as [S|S]; [discriminate|].
    injection S as ->. reflexivity.
  - destruct e as [r|s|s|q|h c|h c|[|]]; cbn [scan] in H;
      cbn [until_poll is_driver_call filter is_land_call List.length];
      try (apply (IH _ _ H S)).
    + destruct (Nat.eqb_spec k 1); [subst; reflexivity | discriminate].
    + destruct (Nat.eqb_spec k 1); [subst; reflexivity | discriminate].
    + cbn [option_map] in H. specialize (IH _ _ H S). cbn. lia.
Qed.

Lemma scan_sound (pre rest : list Event) (h : Hand) (c : GloveCall) :
  forall st st',
    scan st (pre ++ Disconnected h c :: rest)%list = Some st' -> settled st' ->
    land_calls (until_poll rest) = 1%nat.
Proof.
  intros st st' H S. rewrite scan_app in H.
  destruct (scan st pre) as [st1|]; [|discriminate].
  cbn [scan] in H.
  assert (H0 : scan (Some 0%nat) rest = Some st').
  { destruct st1 as [k|]; [|exact H]. destruct (Nat.eqb k 1); [exact H | discriminate]. }
  exact (scan_pending rest 0 st' H0 S).
Qed.

(* ------------------------------------------------------------------ *)
(** ** Computations that start with no disconnection pending *)

Lemma closed_ret {A} (a : A) : closed (ret a).
Proof. intros w. reflexivity. Qed.

Lemma closed_emit (e : Event) : is_chatter e = true -> closed (emit e).
Proof. intros H w. destruct e; try discriminate; reflexivity. Qed.

Lemma closed_driver (h : Hand) (c : GloveCall) : closed (driver h c).
Proof.
  intros w. unfold driver.
  destruct (link (glove h w) (calls (glove h w))); reflexivity.
Qed.

Lemma closed_next_flexion (h : Hand) : closed (next_flexion h).
Proof. intros w. reflexivity. Qed.

Lemma closed_next_orientation (h : Hand) : closed (next_orientation h).
Proof. intros w. reflexivity. Qed.

Lemma closed_bind {A B} (m : M A) (k : A -> M B) :
  closed m -> (forall a, closed (k a)) -> closed (bind m k).
Proof.
  intros Hm Hk w. specialize (Hm w). unfold bind.
  destruct (out (m w)) as [a|e| | |] eqn:E; cbn [out events after_body] in *;
    try exact Hm.
  rewrite scan_app, Hm. apply Hk.
Qed.

Lemma closed_for_range (l : list nat) (body : nat -> M unit) :
  (forall i, closed (body i)) -> closed (for_range l body).
Proof.
  intros H. induction l as [|i l IH]; cbn [for_range].
  - apply closed_ret.
  - apply closed_bind; [apply H | intros _; exact IH].
Qed.

Lemma closed_land : closed land.
Proof.
  intros w. destruct (land_shape w) as (evs & E & C & N).
  rewrite E. cbn [scan option_map]. rewrite (scan_chatter _ _ C).
  destruct (out (land w)) as [a|e| | |]; try reflexivity.
  exfalso. exact (N e eq_refl).
Qed.

Lemma closed_takeoff : closed takeoff.
Proof.
  intros w. destruct (takeoff_shape w) as (evs & E & C & N).
  rewrite E. cbn [scan]. rewrite (scan_chatter _ _ C).
  destruct (out (takeoff w)) as [a|e| | |]; try reflexivity.
  exfalso. exact (N e eq_refl).
Qed.

Ltac closed_step :=
  first [ apply closed_ret | apply closed_land | apply closed_takeoff
        | apply closed_driver
        | apply closed_next_flexion | apply closed_next_orientation
        | apply closed_emit; reflexivity
        | apply closed_for_range; intros
        | apply closed_bind; [|intros] ].

Lemma closed_sample (h : Hand) : closed (sample h).
Proof.
  unfold sample, Forte_SelectHapticWave, Forte_GetFingersNormalized,
    Forte_GetEulerAngles.
  repeat closed_step.
Qed.

Lemma closed_left_hand_body : closed left_hand_body.
Proof.
  unfold left_hand_body. apply closed_bind; [apply closed_sample|]. intros s.
  unfold print, sleep, Forte_SendHaptic, Forte_SilenceHaptics.
  destruct (left_gesture s); repeat closed_step.
Qed.

Lemma closed_right_hand_body : closed right_hand_body.
Proof.
  unfold right_hand_body. apply closed_bind; [apply closed_sample|]. intros s.
  unfold print, sleep, Forte_SendHaptic, Forte_SilenceHaptics.
  destruct (right_gesture s); repeat closed_step.
Qed.

(* ------------------------------------------------------------------ *)
(** ** A pass starts by polling the glove *)

Lemma polls_first_driver (h : Hand) (c : GloveCall) : polls_first (driver h c).
Proof.
  intros w. unfold driver.
  destruct (link (glove h w) (calls (glove h w))); cbn;
    eexists; eexists; split; reflexivity.
Qed.

Lemma polls_first_bind {A B} (m : M A) (k : A -> M B) :
  polls_first m -> polls_first (bind m k).
Proof.
  intros H w. destruct (H w) as (e & rest & E & D).
  rewrite events_bind, E.
  destruct (out (m w)); cbn [app]; eexists; eexists; split;
    try reflexivity; exact D.
Qed.

Lemma polls_first_sample (h : Hand) : polls_first (sample h).
Proof.
  unfold sample, range. cbn [seq for_range].
  apply polls_first_bind, polls_first_bind, polls_first_driver.
Qed.

Lemma polls_first_try_except (m h : M unit) :
  polls_first m -> polls_first (try_except m h).
Proof.
  intros H w. destruct (H w) as (e & rest & E & D). unfold try_except.
  destruct (out (m w)) as [a|[]| | |]; cbn [events]; rewrite E; cbn [app];
    eexists; eexists; split; try reflexivity; exact D.
Qed.

(* ------------------------------------------------------------------ *)
(** ** The passes and the loops *)

Lemma fail_safe_scan (w : World) :
  scan (Some 0%nat) (events (fail_safe w)) = Some (Some 1%nat).
Proof.
  unfold fail_safe, print, sleep.
  rewrite events_bind. cbn [emit out events world app].
  rewrite events_bind. cbn [emit out events world app scan].
  destruct (land_shape w) as (evs & E & C & _). rewrite E.
  cbn [scan option_map]. apply scan_chatter, C.
Qed.

Lemma pass_settled (body : M unit) :
  closed body -> polls_first body ->
  forall w st, settled st ->
    exists st', scan st (events (try_except body fail_safe w)) = Some st'
                /\ settled st'.
Proof.
  intros C P w st S.
  assert (E0 : scan st (events (try_except body fail_safe w))
               = scan None (events (try_except body fail_safe w))).
  { destruct S as [->| ->]; [reflexivity|].
    destruct (polls_first_try_except body fail_safe P w) as (e & rest & E & D).
    rewrite E. apply scan_poll_first, D. }
  rewrite E0. specialize (C w). unfold try_except.
  destruct (out (body w)) as [a|[]| | |]; cbn [after_body events] in *.
  - exists None. split; [exact C | left; reflexivity].
  - exists (Some 1%nat). split; [|right; reflexivity].
    rewrite scan_app, C. apply fail_safe_scan.
  - exists None. split; [exact C | left; reflexivity].
  - exists None. split; [exact C | left; reflexivity].
  - exists None. split; [exact C | left; reflexivity].
Qed.

Lemma left_hand_pass_settled (w : World) (st : option nat) :
  settled st ->
  exists st', scan st (events (left_hand_pass w)) = Some st' /\ settled st'.
Proof.
  apply pass_settled.
  - apply closed_left_hand_body.
  - unfold left_hand_body. apply polls_first_bind, polls_first_sample.
Qed.

Lemma right_hand_pass_settled (w : World) (st : option nat) :
  settled st ->
  exists st', scan st (events (right_hand_pass w)) = Some st' /\ settled st'.
Proof.
  apply pass_settled.
  - apply closed_right_hand_body.
  - unfold right_hand_body. apply polls_first_bind, polls_first_sample.
Qed.

Lemma left_hand_settled (n : nat) :
  forall w st, settled st ->
    exists st', scan st (events (left_hand n w)) = Some st' /\ settled st'.
Proof.
  induction n as [|n IH]; intros w st S; cbn [left_hand].
  - exists st. split; [reflexivity | exact S].
  - rewrite events_bind.
    destruct (left_hand_pass_settled w st S) as (st1 & E1 & S1).
    destruct (out (left_hand_pass w)); try (exists st1; split; assumption).
    rewrite scan_app, E1. apply IH, S1.
Qed.

Lemma right_hand_settled (n : nat) :
  forall w st, settled st ->
    exists st', scan st (events (right_hand n w)) = Some st' /\ settled st'.
Proof.
  induction n as [|n IH]; intros w st S; cbn [right_hand].
  - exists st. split; [reflexivity | exact S].
  - rewrite events_bind.
    destruct (right_hand_pass_settled w st S) as (st1 & E1 & S1).
    destruct (out (right_hand_pass w)); try (exists st1; split; assumption).
    rewrite scan_app, E1. apply IH, S1.
Qed.

(** C4.  In either input loop, whenever a driver call raises the
    disconnection, the events from there up to the next driver call (the
    loop polling the glove again), or up to the end of the observation if
    the loop does not get that far, hold exactly one call of [land]. *)
Theorem fail_safe_lands_once
        (n : nat) (w : World) (pre rest : list Event) (h : Hand) (c : GloveCall) :
  events (left_hand n w) = (pre ++ Disconnected h c :: rest)%list
  \/ events (right_hand n w) = (pre ++ Disconnected h c :: rest)%list ->
  land_calls (until_poll rest) = 1%nat.
Proof.
  intros [E|E].
  - destruct (left_hand_settled n w None (or_introl eq_refl)) as (st' & H & S).
    rewrite E in H. exact (scan_sound pre rest h c None st' H S).
  - destruct (right_hand_settled n w None (or_introl eq_refl)) as (st' & H & S).
    rewrite E in H. exact (scan_sound pre rest h c None st' H S).
Qed.

Lemma fail_safe_lands_once_witness :
  land_calls (until_poll (skipn 8 (events (left_hand 2 dropout_world)))) = 1%nat.
Proof.
  apply (fail_safe_lands_once 2 dropout_world
           (firstn 7 (events (left_hand 2 dropout_world)))
           (skipn 8 (events (left_hand 2 dropout_world)))
           LeftHand GetEulerAngles).
  left. vm_compute. reflexivity.
Defined.

(* ================================================================== *)
(** * Dispatch of the thumbs-up *)

Lemma begins_nil {A} (m : M A) (w : World) : begins m w [].
Proof. exists (events (m w)). reflexivity. Qed.

Lemma begins_bind {A B} (m : M A) (k : A -> M B)
      (w w1 : World) (a : A) (e1 e2 : list Event) :
  yields m w (Ret a) w1 e1 -> begins (k a) w1 e2 ->
  begins (bind m k) w (e1 ++ e2)%list.
Proof.
  unfold yields, begins, bind. intros H1 (rest & H2). rewrite H1.
  cbn [out world events]. rewrite H2. exists rest. apply app_assoc.
Qed.

Lemma begins_left {A B} (m : M A) (k : A -> M B) (w : World) (e : list Event) :
  begins m w e -> begins (bind m k) w e.
Proof.
  intros (rest & H). unfold begins. rewrite events_bind, H.
  destruct (out (m w)).
  - exists (rest ++ events (k a (world (m w))))%list. symmetry. apply app_assoc.
  - exists rest. reflexivity.
  - exists rest. reflexivity.
  - exists rest. reflexivity.
  - exists rest. reflexivity.
Qed.

Lemma begins_try_except (m h : M unit) (w : World) (e : list Event) :
  begins m w e -> begins (try_except m h) w e.
Proof.
  intros (rest & H). unfold begins, try_except.
  destruct (out (m w)) as [a|[]| | |]; cbn [events]; rewrite H.
  - exists rest. reflexivity.
  - exists (rest ++ events (h (world (m w))))%list. symmetry. apply app_assoc.
  - exists rest. reflexivity.
  - exists rest. reflexivity.
  - exists rest. reflexivity.
Qed.

Lemma begins_takeoff (w : World) : begins takeoff w [Call m_takeoff].
Proof.
  destruct (takeoff_shape w) as (evs & E & _). exists evs. exact E.
Qed.

Lemma begins_eq {A} (m : M A) (w : World) (e e' : list Event) :
  begins m w e' -> e' = e -> begins m w e.
Proof. intros H <-. exact H. Qed.

(** One step of a run in which every driver call finds the link up; [up]
    solves the side condition on the link. *)
Ltac run_with up :=
  lazymatch goal with
  | |- yields (bind _ _) _ _ _ _ =>
      eapply yields_bind;
      [ run_with up
      | cbv beta;
        cbn [set_glove glove link flexion orientation calls flex_reads
             imu_reads leftHand rightHand client auth_reply statuses
             fault_replies];
        run_with up ]
  | |- yields (emit _) _ _ _ _ => apply yields_emit
  | |- yields (ret _) _ _ _ _ => apply yields_ret
  | |- yields (driver _ _) _ _ _ _ =>
      apply yields_driver;
      cbn [link glove set_glove calls leftHand rightHand]; up
  | |- yields (next_flexion _) _ _ _ _ => apply yields_next_flexion
  | |- yields (next_orientation _) _ _ _ _ => apply yields_next_orientation
  | |- _ => idtac
  end.

Lemma sample_yields (h : Hand) (w : World) :
  link_up h 8 w ->
  exists w',
    yields (sample h) w (Ret (next_snapshot h w)) w' (sample_events h)
    /\ link (glove h w') = link (glove h w)
    /\ calls (glove h w') = (8 + calls (glove h w))%nat.
Proof.
  unfold link_up, next_snapshot.
  destruct w as [cl au st fr [lL fL oL cL frL irL] [lR fR oR cR frR irR]].
  destruct h; cbn [glove leftHand rightHand link calls flexion orientation
                   flex_reads imu_reads]; intros H;
    (eexists; split;
     [ eapply yields_conv;
       [ unfold sample, Forte_SelectHapticWave, Forte_GetFingersNormalized,
           Forte_GetEulerAngles, range; cbn [seq for_range];
         run_with ltac:(first [ apply (H 0%nat) | apply (H 1%nat)
                              | apply (H 2%nat) | apply (H 3%nat)
                              | apply (H 4%nat) | apply (H 5%nat)
                              | apply (H 6%nat) | apply (H 7%nat) ]; lia)
       | reflexivity | reflexivity ]
     | split; reflexivity ]).
Qed.

Lemma land_not_takeoff : emits_only not_takeoff_call land.
Proof.
  intros w. destruct (land_shape w) as (evs & E & C & _). rewrite E.
  cbn [forallb not_takeoff_call is_takeoff_call negb andb].
  rewrite forallb_forall in *. intros e He. specialize (C e He).
  destruct e; try discriminate; reflexivity.
Qed.

Lemma left_hand_pass_not_takeoff : emits_only not_takeoff_call left_hand_pass.
Proof.
  unfold left_hand_pass, fail_safe, left_hand_body, sample, print, sleep,
    Forte_SelectHapticWave, Forte_GetFingersNormalized, Forte_GetEulerAngles,
    Forte_SendHaptic, Forte_SilenceHaptics.
  apply eo_try_except.
  - apply eo_bind; [repeat eo_step|]. intros s.
    destruct (left_gesture s);
      repeat first [ apply land_not_takeoff | eo_step ].
  - repeat first [ apply land_not_takeoff | eo_step ].
Qed.

Lemma yields_try_except (m h : M unit) (w w' : World) (e : list Event) :
  yields m w (Ret tt) w' e -> yields (try_except m h) w (Ret tt) w' e.
Proof. unfold yields, try_except. intros ->. reflexivity. Qed.

(** A pass of the left-hand loop on a thumbs-up, the glove staying
    connected: the branch of lines 560-572 runs to its end. *)
Lemma left_thumbs_up_pass (w : World) :
  link_up LeftHand 11 w ->
  left_gesture (next_snapshot LeftHand w) = THUMBS_UP ->
  exists w',
    yields left_hand_pass w (Ret tt) w'
           (sample_events LeftHand ++
            [Out "THUMBS UP";
             Glove LeftHand (SendHaptic 0 note amplitude);
             Glove LeftHand (SendHaptic 5 note amplitude);
             Sleep 0.1;
             Glove LeftHand SilenceHaptics;
             Sleep 2])%list.
Proof.
  intros H G.
  destruct (sample_yields LeftHand w) as (w' & Y & L & C).
  { intros k Hk. apply H. lia. }
  assert (U : forall k, (k < 3)%nat ->
                link (glove LeftHand w') (k + calls (glove LeftHand w')) = true).
  { intros k Hk. rewrite L, C.
    replace (k + (8 + calls (glove LeftHand w)))%nat
      with ((k + 8) + calls (glove LeftHand w))%nat by lia.
    apply H. lia. }
  clear L C H. revert Y U.
  destruct w' as [cl au st fr [lL fL oL cL frL irL] gr].
  cbn [glove leftHand link calls]. intros Y U.
  eexists. unfold left_hand_pass. apply yields_try_except.
  unfold left_hand_body.
  eapply yields_conv.
  - eapply yields_bind; [exact Y|]. cbv beta. rewrite G.
    unfold print, sleep, Forte_SendHaptic, Forte_SilenceHaptics.
    run_with ltac:(first [ apply (U 0%nat) | apply (U 1%nat)
                         | apply (U 2%nat) ]; lia).
  - reflexivity.
  - reflexivity.
Qed.

(** C3 (as amended).  In the right-hand loop, a pass whose snapshot takes
    the THUMBS-UP branch, the glove staying connected through the
    acknowledgment, pulses the thumb and palm actuators and then enters
    [client.takeoff()].  In the left-hand loop such a pass gives the same
    acknowledgment (the same print, the same two pulses, the same pause and
    silence), then sleeps and returns: it emits nothing else, and the
    left-hand loop never enters [client.takeoff()]. *)
Theorem thumbs_up_dispatch :
  (forall w,
      link_up RightHand 11 w ->
      right_gesture (next_snapshot RightHand w) = THUMBS_UP ->
      begins right_hand_pass w
             (sample_events RightHand ++
              [Out "THUMBS UP";
               Glove RightHand (SendHaptic 0 note amplitude);
               Glove RightHand (SendHaptic 5 note amplitude);
               Sleep 0.1;
               Glove RightHand SilenceHaptics;
               Out "TAKING OFF";
               Call m_takeoff])%list)
  /\ (forall w,
         link_up LeftHand 11 w ->
         left_gesture (next_snapshot LeftHand w) = THUMBS_UP ->
         out (left_hand_pass w) = Ret tt
         /\ events (left_hand_pass w)
            = (sample_events LeftHand ++
               [Out "THUMBS UP";
                Glove LeftHand (SendHaptic 0 note amplitude);
                Glove LeftHand (SendHaptic 5 note amplitude);
                Sleep 0.1;
                Glove LeftHand SilenceHaptics;
                Sleep 2])%list)
  /\ (forall n w, forallb not_takeoff_call (events (left_hand n w)) = true).
Proof.
  split; [|split].
  - intros w H G.
    destruct (sample_yields RightHand w) as (w' & Y & L & C).
    { intros k Hk. apply H. lia. }
    unfold right_hand_pass. apply begins_try_except.
    unfold right_hand_body.
    eapply begins_bind; [exact Y|]. cbv beta. rewrite G.
    unfold print, sleep, Forte_SendHaptic, Forte_SilenceHaptics.
    assert (U : forall k, (k < 3)%nat ->
                  link (glove RightHand w') (k + calls (glove RightHand w')) = true).
    { intros k Hk. rewrite L, C.
      replace (k + (8 + calls (glove RightHand w)))%nat
        with ((k + 8) + calls (glove RightHand w))%nat by lia.
      apply H. lia. }
    clear Y L C H G. revert U.
    destruct w' as [cl au st fr gl [lR fR oR cR frR irR]].
    cbn [glove rightHand link calls]. intros U.
    eapply begins_eq.
    + eapply begins_bind; [apply yields_emit|].
      eapply begins_bind;
        [apply yields_driver; cbn [link glove set_glove calls rightHand];
         apply (U 0%nat); lia|].
      eapply begins_bind;
        [apply yields_driver; cbn [link glove set_glove calls rightHand];
         apply (U 1%nat); lia|].
      eapply begins_bind; [apply yields_emit|].
      eapply begins_bind;
        [apply yields_driver; cbn [link glove set_glove calls rightHand];
         apply (U 2%nat); lia|].
      eapply begins_bind; [apply yields_emit|].
      apply begins_left. apply begins_takeoff.
    + reflexivity.
  - intros w H G. destruct (left_thumbs_up_pass w H G) as (w' & Y).
    unfold yields in Y. rewrite Y. split; reflexivity.
  - induction n as [|n IH]; intros w; cbn [left_hand]; [reflexivity|].
    apply eo_bind; [apply left_hand_pass_not_takeoff | intros _; exact IH].
Qed.

Lemma thumbs_up_dispatch_witness :
  begins right_hand_pass thumbs_up_world
         (sample_events RightHand ++
          [Out "THUMBS UP";
           Glove RightHand (SendHaptic 0 note amplitude);
           Glove RightHand (SendHaptic 5 note amplitude);
           Sleep 0.1;
           Glove RightHand SilenceHaptics;
           Out "TAKING OFF";
           Call m_takeoff])%list
  /\ events (left_hand_pass thumbs_up_world)
     = (sample_events LeftHand ++
        [Out "THUMBS UP";
         Glove LeftHand (SendHaptic 0 note amplitude);
         Glove LeftHand (SendHaptic 5 note amplitude);
         Sleep 0.1;
         Glove LeftHand SilenceHaptics;
         Sleep 2])%list.
Proof.
  split.
  - apply (proj1 thumbs_up_dispatch thumbs_up_world).
    + intros k _. reflexivity.
    + vm_compute. reflexivity.
  - apply (proj1 (proj2 thumbs_up_dispatch) thumbs_up_world).
    + intros k _. reflexivity.
    + vm_compute. reflexivity.
Defined.

(** C3 as stated fails on the left hand: a pass of the left-hand loop whose
    snapshot takes the THUMBS-UP branch acknowledges it and neither enters
    [client.takeoff()] nor sends anything to the vehicle. *)
Lemma left_thumbs_up_no_takeoff :
  left_gesture (next_snapshot LeftHand thumbs_up_world) = THUMBS_UP
  /\ out (left_hand_pass thumbs_up_world) = Ret tt
  /\ existsb is_takeoff_call (events (left_hand_pass thumbs_up_world)) = false
  /\ existsb is_http (events (left_hand_pass thumbs_up_world)) = false.
Proof. repeat split; vm_compute; reflexivity. Qed.

(* ================================================================== *)
(** * Calibration *)

Lemma yields_world {A} (m : M A) (w w' w'' : World) (o : Outcome A)
      (e : list Event) :
  yields m w o w'' e -> w'' = w' -> yields m w o w' e.
Proof. intros H <-. exact H. Qed.

Lemma yields_try_disconnected {A} (m : M A) (kept a : A)
      (w w' : World) (e : list Event) :
  yields m w (Ret a) w' e -> yields (try_disconnected m kept) w (Ret a) w' e.
Proof. unfold yields, try_disconnected. intros ->. reflexivity. Qed.

Lemma connected_tick (nl nr il ir : nat) (w : World) :
  connected w -> connected (tick nl nr il ir w).
Proof. intros [HL HR]. split; intros k; cbn; [apply HL | apply HR]. Qed.

Lemma sample_at_tick (nl nr i : nat) (w : World) (j : nat) :
  sample_at (tick nl nr i i w) j = sample_at w (j + i).
Proof.
  unfold sample_at, tick. cbn [leftHand rightHand orientation imu_reads].
  now rewrite !Nat.add_assoc.
Qed.

Lemma tick_tick (a b c d a' b' c' d' : nat) (w : World) :
  tick a b c d (tick a' b' c' d' w) = tick (a + a') (b + b') (c + c') (d + d') w.
Proof.
  unfold tick. cbn [client auth_reply statuses fault_replies leftHand rightHand
                    link flexion orientation calls flex_reads imu_reads].
  now rewrite !Nat.add_assoc.
Qed.

(** The blocks of a pass, run while both gloves stay connected. *)
Ltac run_connected HL HR :=
  eapply yields_conv;
  [ eapply yields_world;
    [ run_with ltac:(first [apply HL | apply HR]) | reflexivity ]
  | reflexivity | reflexivity ].

Lemma announce_yields (w : World) :
  connected w -> yields announce w (Ret tt) (tick 13 13 0 0 w) announce_events.
Proof.
  destruct w as [cl au st fr [lL fL oL cL frL irL] [lR fR oR cR frR irR]].
  unfold connected. cbn [leftHand rightHand link]. intros [HL HR].
  unfold announce, pulse_all, silence_both, print, sleep,
    Forte_SelectHapticWave, Forte_SendHaptic, Forte_SilenceHaptics, range.
  cbn [seq for_range].
  run_connected HL HR.
Qed.

Lemma read_both_yields (w : World) :
  connected w ->
  yields read_both w (Ret (sample_at w 0)) (tick 3 3 1 1 w) read_events.
Proof.
  destruct w as [cl au st fr [lL fL oL cL frL irL] [lR fR oR cR frR irR]].
  unfold connected. cbn [leftHand rightHand link]. intros [HL HR].
  unfold read_both, silence_both, print, sleep,
    Forte_SendHaptic, Forte_SilenceHaptics, Forte_GetEulerAngles.
  run_connected HL HR.
Qed.

Lemma commit_yields (w : World) :
  connected w -> yields commit w (Ret tt) (tick 28 28 0 0 w) commit_events.
Proof.
  destruct w as [cl au st fr [lL fL oL cL frL irL] [lR fR oR cR frR irR]].
  unfold connected. cbn [leftHand rightHand link]. intros [HL HR].
  unfold commit, pulse_all, silence_both, print, sleep,
    Forte_SelectHapticWave, Forte_SendHaptic, Forte_SilenceHaptics,
    Forte_CalibrateFlat, Forte_HomeIMU, range.
  cbn [seq for_range].
  run_connected HL HR.
Qed.

(** The test of line 470 is the spec's stability of both hands, between the
    sample that the [previous] variables hold and the one just read. *)
Lemma within10_steady (st : CalState) (l r : Euler) :
  within10 st l r = true <-> steady (previous_sample st) (l, r).
Proof.
  unfold within10, steady, moved_at_most_10, previous_sample.
  cbn [fst snd eul0 eul1 eul2]. split.
  - intros H. qbool. repeat split; assumption.
  - intros ((A & B & C) & (D & E & F)). qbool; tauto.
Qed.

Lemma within10_not_steady (st : CalState) (l r : Euler) :
  ~ steady (previous_sample st) (l, r) -> within10 st l r = false.
Proof.
  intros H. destruct (within10 st l r) eqn:E; [|reflexivity].
  exfalso. apply H, within10_steady, E.
Qed.

Lemma previous_sample_remember (l r : Euler) (st : CalState) :
  previous_sample (remember l r st) = (l, r).
Proof. destruct l, r. reflexivity. Qed.

Lemma measure_moving (st : CalState) (w : World) :
  connected w ->
  ~ steady (previous_sample st) (sample_at w 0) ->
  yields (measure st) w
         (Ret (remember (fst (sample_at w 0)) (snd (sample_at w 0)) st))
         (tick 3 3 1 1 w) read_events.
Proof.
  intros C H. unfold measure.
  eapply yields_conv.
  - eapply yields_bind; [apply read_both_yields, C|]. cbv beta.
    rewrite within10_not_steady
      by (rewrite <- surjective_pairing; exact H).
    eapply yields_bind; apply yields_ret.
  - reflexivity.
  - now rewrite !app_nil_r.
Qed.

Lemma measure_steady (st : CalState) (w : World) :
  connected w ->
  steady (previous_sample st) (sample_at w 0) ->
  yields (measure st) w
         (Ret (remember (fst (sample_at w 0)) (snd (sample_at w 0))
                        (set_neutral 1 1 st)))
         (tick 31 31 1 1 w) (read_events ++ commit_events)%list.
Proof.
  intros C H. unfold measure.
  eapply yields_conv.
  - eapply yields_bind; [apply read_both_yields, C|]. cbv beta.
    assert (W : within10 st (fst (sample_at w 0)) (snd (sample_at w 0)) = true).
    { apply within10_steady. rewrite <- surjective_pairing. exact H. }
    rewrite W.
    eapply yields_bind.
    + eapply yields_bind;
        [apply commit_yields, connected_tick, C | apply yields_ret].
    + apply yields_world with (w'' := tick 28 28 0 0 (tick 3 3 1 1 w));
        [apply yields_ret | apply tick_tick].
  - reflexivity.
  - now rewrite !app_nil_r.
Qed.

Lemma settles_at_ext (s s' : nat -> Euler * Euler) :
  (forall j, s j = s' j) ->
  forall n prev, settles_at prev s n -> settles_at prev s' n.
Proof.
  intros E n. revert s s' E.
  induction n as [|n IH]; intros s s' E prev; cbn [settles_at].
  - now rewrite E.
  - rewrite E. intros [H1 H2]. split; [exact H1|].
    apply (IH (fun j => s (S j))); [intros j; apply E | exact H2].
Qed.

Lemma settles_at_intro (s : nat -> Euler * Euler) (n : nat) :
  (forall j, (j < n)%nat -> ~ steady (s j) (s (S j))) ->
  steady (s n) (s (S n)) ->
  settles_at (s 0%nat) (fun j => s (S j)) n.
Proof.
  revert s. induction n as [|n IH]; intros s H1 H2; cbn [settles_at].
  - exact H2.
  - split; [apply H1; lia|].
    apply (IH (fun j => s (S j))); [intros j Hj; apply H1; lia | exact H2].
Qed.

(** Once [neutralL] is set the loop is over, whatever is left to observe. *)
Lemma calibrate_loop_done (fuel : nat) (st : CalState) :
  neutralL st = 1%nat -> calibrate_loop fuel st = ret tt.
Proof. intros H. destruct fuel; cbn [calibrate_loop]; rewrite H; reflexivity. Qed.

(** The loop, once the first pass has announced itself: it samples until
    the first steady sample, commits there, and ends. *)
Lemma calibrate_loop_settles (n : nat) :
  forall (w : World) (st : CalState) (fuel : nat),
    connected w ->
    initial st = 1%nat -> neutralL st = 0%nat -> neutralR st = 0%nat ->
    settles_at (previous_sample st) (sample_at w) n ->
    (S n <= fuel)%nat ->
    exists w',
      yields (calibrate_loop fuel st) w (Ret tt) w'
             (List.concat (repeat read_events (S n)) ++ commit_events)%list.
Proof.
  induction n as [|n IH]; intros w st fuel C I NL NR H F;
    (destruct fuel as [|fuel]; [lia|]); cbn [calibrate_loop settles_at] in *;
    rewrite NL, NR; cbn [Nat.eqb andb];
    unfold calibrate_pass; rewrite I; cbn [Nat.eqb].
  - eexists. eapply yields_conv.
    + eapply yields_bind.
      * apply yields_try_disconnected, measure_steady; assumption.
      * rewrite calibrate_loop_done by reflexivity. apply yields_ret.
    + reflexivity.
    + cbn [repeat List.concat]. now rewrite !app_nil_r.
  - destruct H as [H1 H2].
    destruct (IH (tick 3 3 1 1 w)
                 (remember (fst (sample_at w 0)) (snd (sample_at w 0)) st)
                 fuel) as (w' & Y).
    + apply connected_tick, C.
    + exact I.
    + exact NL.
    + exact NR.
    + rewrite previous_sample_remember, <- surjective_pairing.
      apply (settles_at_ext (fun j => sample_at w (S j))); [|exact H2].
      intros j. rewrite sample_at_tick. f_equal. lia.
    + lia.
    + exists w'. eapply yields_conv.
      * eapply yields_bind;
          [apply yields_try_disconnected, measure_moving; assumption | exact Y].
      * reflexivity.
      * cbn [repeat List.concat]. now rewrite <- !app_assoc.
Qed.

(** The first sample of a glove that reports real angles is not within 10
    degrees of the 1000 that the first pass puts in the [previous]
    variables. *)
Lemma first_sample_not_steady (st : CalState) (l r : Euler) :
  valid_euler l ->
  ~ steady (previous_sample (set_initial 1 (set_previous 1000 1000 1000 1000 1000 1000 st)))
           (l, r).
Proof.
  unfold valid_euler, steady, moved_at_most_10, previous_sample.
  cbn [fst snd eul0 eul1 eul2 set_initial set_previous previousXL previousYL
       previousZL previousXR previousYR previousZR].
  intros (A & B & C) ((D & E & F) & _). lra.
Qed.

(** C9 (as amended).  While both gloves stay connected and report real angles,
    [calibrate] commits the zero-reference (flat-calibrate and IMU-home on
    both gloves) in the first pass whose sample is within 10 degrees, on all
    three axes of both hands, of the sample of the pass before, and in no
    pass before that one; the commit made, it returns, so that no further
    pass runs.  Here the samples of passes 0 to [n + 1] are read, pass
    [n + 1] is the first steady one, and the events are those of [n + 2]
    samplings followed by one commit. *)
Theorem calibrate_commits_when_steady (w : World) (n fuel : nat) :
  connected w ->
  valid_euler (fst (sample_at w 0)) ->
  (forall j, (j < n)%nat -> ~ steady (sample_at w j) (sample_at w (S j))) ->
  steady (sample_at w n) (sample_at w (S n)) ->
  (n + 2 <= fuel)%nat ->
  out (calibrate fuel w) = Ret tt
  /\ events (calibrate fuel w)
     = (announce_events ++ List.concat (repeat read_events (n + 2))
        ++ commit_events)%list.
Proof.
  intros C V H1 H2 F.
  destruct fuel as [|fuel]; [lia|].
  set (st0 := mkCalState 0 0 0 0 0 0 0 0 0).
  set (st1 := set_initial 1 (set_previous 1000 1000 1000 1000 1000 1000 st0)).
  set (w1 := tick 13 13 0 0 w).
  assert (C1 : connected w1) by apply connected_tick, C.
  assert (S1 : forall j, sample_at w1 j = sample_at w j).
  { intros j. unfold w1. rewrite sample_at_tick. f_equal. lia. }
  assert (N1 : ~ steady (previous_sample st1) (sample_at w1 0)).
  { rewrite S1, (surjective_pairing (sample_at w 0)).
    apply first_sample_not_steady, V. }
  destruct (calibrate_loop_settles n (tick 3 3 1 1 w1)
              (remember (fst (sample_at w1 0)) (snd (sample_at w1 0)) st1)
              fuel) as (w' & Y).
  - apply connected_tick, C1.
  - reflexivity.
  - reflexivity.
  - reflexivity.
  - rewrite previous_sample_remember, <- surjective_pairing, S1.
    apply (settles_at_ext (fun j => sample_at w (S j))).
    + intros j. rewrite sample_at_tick, S1. f_equal. lia.
    + apply (settles_at_intro (sample_at w)); assumption.
  - lia.
  - assert (R : yields (calibrate (S fuel)) w (Ret tt) w'
                  (announce_events ++ List.concat (repeat read_events (n + 2))
                   ++ commit_events)%list).
    { unfold calibrate. fold st0. cbn [calibrate_loop].
      change (Nat.eqb (neutralL st0) 0 && Nat.eqb (neutralR st0) 0) with true.
      cbv iota. unfold calibrate_pass.
      change (Nat.eqb (initial st0) 0) with true. cbv iota.
      fold st1.
      eapply yields_conv.
      - eapply yields_bind.
        + eapply yields_bind.
          * apply yields_try_disconnected.
            eapply yields_bind; [apply announce_yields, C | apply yields_ret].
          * cbv beta iota. fold w1.
            apply yields_try_disconnected, measure_moving; assumption.
        + exact Y.
      - reflexivity.
      - replace (n + 2)%nat with (S (S n)) by lia.
        cbn [repeat List.concat]. now rewrite !app_nil_r, <- !app_assoc. }
    unfold yields in R. rewrite R. split; reflexivity.
Qed.

Lemma calibrate_commits_witness :
  out (calibrate 3 settling_world) = Ret tt
  /\ events (calibrate 3 settling_world)
     = (announce_events ++ List.concat (repeat read_events (1 + 2))
        ++ commit_events)%list.
Proof.
  apply (calibrate_commits_when_steady settling_world 1 3).
  - split; intros k; reflexivity.
  - unfold valid_euler. cbn. lra.
  - intros j Hj. assert (j = 0%nat) as -> by lia.
    unfold steady, moved_at_most_10. cbn. lra.
  - unfold steady, moved_at_most_10. cbn. lra.
  - lia.
Defined.

(** C9 as stated fails when a pass is cut short.  The left hand is level at
    its first reading, turned by 35 degrees at its second and level again
    at its third.  The right glove drops out in the second pass, after the
    left glove has been read, and the pass ends without storing its sample
    (lines 505-519).  The third pass then commits, its sample being within
    10 degrees of that of the first pass, although the left hand has turned
    by 35 degrees since the reading of the pass before.  With both gloves
    connected the same hands get no commit in three passes. *)
Lemma calibrate_commits_after_cut_pass :
  ~ moved_at_most_10 (orientation (leftHand cut_pass_world) 1)
                     (orientation (leftHand cut_pass_world) 2)
  /\ out (calibrate 3 cut_pass_world) = Ret tt
  /\ events (calibrate 3 cut_pass_world)
     = (announce_events ++ read_events ++ cut_read_events
        ++ read_events ++ commit_events)%list
  /\ out (calibrate 3 swaying_world) = OutOfFuel.
Proof.
  split.
  - intros [[H _] _]. vm_compute in H. apply H. reflexivity.
  - repeat split; vm_compute; reflexivity.
Qed.

(* ================================================================== *)
(** * More on the client *)

Lemma commands_app (c : string) (a b : list Event) :
  commands c (a ++ b)%list = (commands c a + commands c b)%nat.
Proof. unfold commands. now rewrite filter_app, length_app. Qed.

Lemma polls_app (a b : list Event) :
  polls (a ++ b)%list = (polls a + polls b)%nat.
Proof. unfold polls. now rewrite filter_app, length_app. Qed.

Lemma same_identity_refl (w : World) : same_identity w w.
Proof. repeat split. Qed.

Lemma same_identity_trans (w1 w2 w3 : World) :
  same_identity w1 w2 -> same_identity w2 w3 -> same_identity w1 w3.
Proof.
  unfold same_identity. intros (A & B & C) (D & E & F).
  repeat split; congruence.
Qed.

(** One round of the loop of [land] on a reply that keeps it flying. *)
Lemma land_loop_round (fuel : nat) (w : World) (r : StatusReply)
      (rest : list StatusReply) :
  statuses w = r :: rest ->
  keeps_flying r = true ->
  exists w1,
    statuses w1 = rest /\ same_identity w w1
    /\ fault_replies w1 = fault_replies w
    /\ forall o w' e,
        yields (land_loop fuel "FLYING") w1 o w' e ->
        yields (land_loop (S fuel) "FLYING") w o w'
               ([Out ("Sending LAND" ++ nl); Http (async_command "land");
                 Sleep 1; Http (status (if_set (session_id (client w))))]
                ++ e)%list.
Proof.
  intros E K. eexists. split; [|split; [|split]].
  4:{ intros o w' e Y. cbn [land_loop String.eqb Ascii.eqb Bool.eqb].
      unfold fmt_out, sleep. eapply yields_conv.
      - eapply yields_bind; [apply yields_emit|].
        eapply yields_bind; [apply yields_emit|].
        eapply yields_bind; [apply yields_emit|].
        eapply yields_bind; [apply (update_pilot_status_yields w r rest E)|].
        cbv beta. unfold keeps_flying in K.
        destruct (negb (truthy (flightPhase r))); [exact Y|].
        cbn [orb] in K. apply String.eqb_eq in K. rewrite K. exact Y.
      - reflexivity.
      - reflexivity. }
  - reflexivity.
  - repeat split.
  - reflexivity.
Qed.

Lemma land_loop_general (pre : list StatusReply) :
  forall (w : World) (fuel : nat) (r : StatusReply) (post : list StatusReply),
    statuses w = (pre ++ r :: post)%list ->
    forallb keeps_flying pre = true ->
    keeps_flying r = false ->
    (List.length pre + 2 <= fuel)%nat ->
    exists w' e,
      yields (land_loop fuel "FLYING") w (Ret tt) w' e
      /\ statuses w' = post /\ same_identity w w'
      /\ fault_replies w' = fault_replies w
      /\ commands "land" e = S (List.length pre)
      /\ polls e = S (List.length pre)
      /\ commands "ground_takeoff" e = 0%nat.
Proof.
  induction pre as [|p pre IH]; intros w fuel r post E K G F.
  - destruct fuel as [|[|fuel]]; [cbn in F; lia | cbn in F; lia |].
    cbn [app] in E.
    exists (set_client (mkSession (client_id (client w)) (access_token (client w))
                                  (access_level (client w)) (Some (sessionId r)))
                       (set_statuses post w)).
    eexists. split; [|split; [|split; [|split; [|split; [|split]]]]].
    + cbn [land_loop String.eqb Ascii.eqb Bool.eqb]. unfold fmt_out, sleep.
      eapply yields_bind; [apply yields_emit|].
      eapply yields_bind; [apply yields_emit|].
      eapply yields_bind; [apply yields_emit|].
      eapply yields_bind; [apply (update_pilot_status_yields w r post E)|].
      cbv beta. unfold keeps_flying in G.
      apply orb_false_elim in G as [G1 G2]. rewrite G1, G2.
      apply yields_ret.
    + reflexivity.
    + repeat split.
    + reflexivity.
    + reflexivity.
    + reflexivity.
    + reflexivity.
  - destruct fuel as [|fuel]; [cbn in F; lia|].
    cbn [forallb] in K. apply andb_prop in K as [K1 K2].
    cbn [app] in E.
    destruct (land_loop_round fuel w p (pre ++ r :: post)%list E K1)
      as (w1 & E1 & I1 & F1 & Y1).
    destruct (IH w1 fuel r post E1 K2 G) as (w' & e & Y & S & I & FR & C & P & T).
    { cbn [List.length] in F. lia. }
    exists w'. eexists. split; [|split; [|split; [|split; [|split; [|split]]]]].
    + apply Y1, Y.
    + exact S.
    + exact (same_identity_trans _ _ _ I1 I).
    + congruence.
    + rewrite commands_app, C. reflexivity.
    + rewrite polls_app, P. reflexivity.
    + rewrite commands_app, T. reflexivity.
Qed.

(** X1: [land] with PILOT access goes on while the replies report FLYING, no
    phase or an empty phase, and returns on the first reply that reports any
    other phase, a phase it does not know included.  It has then sent one
    [land] command per reply read, that last one included, no
    [ground_takeoff], and has left the later replies unread. *)
Theorem land_returns_on_first_other_phase
        (w : World) (pre post : list StatusReply) (r : StatusReply) :
  is_pilot w ->
  statuses w = (pre ++ r :: post)%list ->
  forallb keeps_flying pre = true ->
  keeps_flying r = false ->
  out (land w) = Ret tt
  /\ statuses (world (land w)) = post
  /\ commands "land" (events (land w)) = S (List.length pre)
  /\ polls (events (land w)) = S (List.length pre)
  /\ commands "ground_takeoff" (events (land w)) = 0%nat.
Proof.
  unfold is_pilot. intros P E K G.
  destruct (land_loop_general pre w (S (List.length (statuses w))) r post E K G)
    as (w' & e & Y & S & _ & _ & C & PL & T).
  { rewrite E, length_app. cbn [List.length]. lia. }
  assert (R : yields land w (Ret tt) w' ([Call m_land] ++ e)%list).
  { unfold land.
    eapply yields_bind; [apply yields_emit|].
    eapply yields_conv.
    - eapply yields_bind; [apply yields_get_world|]. cbv beta.
      rewrite P, differs_same. exact Y.
    - reflexivity.
    - reflexivity. }
  unfold yields in R. rewrite R. cbn [out world events].
  rewrite commands_app, polls_app, commands_app, C, PL, T.
  repeat split; assumption.
Qed.

Lemma land_returns_witness :
  out (land landing_world) = Ret tt
  /\ statuses (world (land landing_world)) = [mkStatusReply "s5" (Some "REST")]
  /\ commands "land" (events (land landing_world)) = 4%nat.
Proof.
  pose proof (land_returns_on_first_other_phase landing_world
                [mkStatusReply "s1" (Some "FLYING"); mkStatusReply "s2" None;
                 mkStatusReply "s3" (Some "")]
                [mkStatusReply "s5" (Some "REST")]
                (mkStatusReply "s4" (Some "POST_FLIGHT"))
                eq_refl eq_refl eq_refl eq_refl) as H.
  split; [exact (proj1 H)|]. split; [exact (proj1 (proj2 H))|].
  exact (proj1 (proj2 (proj2 H))).
Defined.

Lemma land_loop_starved (pre : list StatusReply) :
  forall (w : World) (fuel : nat),
    statuses w = pre ->
    forallb keeps_flying pre = true ->
    (List.length pre + 1 <= fuel)%nat ->
    exists w' e,
      yields (land_loop fuel "FLYING") w Starved w' e
      /\ statuses w' = []
      /\ commands "land" e = S (List.length pre)
      /\ polls e = S (List.length pre).
Proof.
  induction pre as [|p pre IH]; intros w fuel E K F.
  - destruct fuel as [|fuel]; [cbn in F; lia|].
    exists w. eexists. split; [|split; [|split]].
    + cbn [land_loop String.eqb Ascii.eqb Bool.eqb]. unfold fmt_out, sleep.
      eapply yields_bind; [apply yields_emit|].
      eapply yields_bind; [apply yields_emit|].
      eapply yields_bind; [apply yields_emit|].
      apply yields_starved, (update_pilot_status_starved w E).
    + exact E.
    + reflexivity.
    + reflexivity.
  - destruct fuel as [|fuel]; [cbn in F; lia|].
    cbn [forallb] in K. apply andb_prop in K as [K1 K2].
    destruct (land_loop_round fuel w p pre E K1) as (w1 & E1 & _ & _ & Y1).
    destruct (IH w1 fuel E1 K2) as (w' & e & Y & S & C & P).
    { cbn [List.length] in F. lia. }
    exists w'. eexists. split; [|split; [|split]].
    + apply Y1, Y.
    + exact S.
    + rewrite commands_app, C. reflexivity.
    + rewrite polls_app, P. reflexivity.
Qed.

(** X2: [land] does not return while the vehicle is not seen to have left
    FLYING: when every reply reports FLYING, no phase or an empty phase, it
    sends a [land] command before each poll and is left waiting on a poll. *)
Theorem land_waits_while_flying (w : World) :
  is_pilot w ->
  forallb keeps_flying (statuses w) = true ->
  out (land w) = Starved
  /\ statuses (world (land w)) = []
  /\ commands "land" (events (land w)) = S (List.length (statuses w))
  /\ polls (events (land w)) = S (List.length (statuses w)).
Proof.
  unfold is_pilot. intros P K.
  destruct (land_loop_starved (statuses w) w (S (List.length (statuses w)))
              eq_refl K) as (w' & e & Y & S & C & PL); [lia|].
  assert (R : yields land w Starved w' ([Call m_land] ++ e)%list).
  { unfold land.
    eapply yields_bind; [apply yields_emit|].
    eapply yields_conv.
    - eapply yields_bind; [apply yields_get_world|]. cbv beta.
      rewrite P, differs_same. exact Y.
    - reflexivity.
    - reflexivity. }
  unfold yields in R. rewrite R. cbn [out world events].
  rewrite commands_app, polls_app, C, PL.
  repeat split; assumption.
Qed.

Lemma land_waits_witness :
  out (land hovering_world) = Starved
  /\ commands "land" (events (land hovering_world)) = 4%nat.
Proof.
  pose proof (land_waits_while_flying hovering_world eq_refl eq_refl) as H.
  split; [exact (proj1 H) | exact (proj1 (proj2 (proj2 H)))].
Defined.

(** One round of the loop of [takeoff] on a reply that makes it wait. *)
Lemma takeoff_loop_round (fuel : nat) (w : World) (r : StatusReply)
      (rest : list StatusReply) :
  statuses w = r :: rest ->
  waits r = true ->
  exists w1 evs,
    statuses w1 = rest /\ same_identity w w1
    /\ fault_replies w1 = fault_replies w
    /\ commands "ground_takeoff" evs = (if ready r then 1 else 0)%nat
    /\ commands "land" evs = 0%nat
    /\ polls evs = 1%nat
    /\ forall o w' e,
        yields (takeoff_loop fuel) w1 o w' e ->
        yields (takeoff_loop (S fuel)) w o w' (evs ++ e)%list.
Proof.
  intros E W.
  pose proof (update_pilot_status_yields w r rest E) as U.
  set (w1 := set_client _ _) in U.
  assert (S1 : statuses w1 = rest) by reflexivity.
  assert (I1 : same_identity w w1) by (repeat split).
  assert (F1 : fault_replies w1 = fault_replies w) by reflexivity.
  clearbody w1. exists w1.
  unfold waits, ready, in_phase in *.
  destruct r as [sid [p|]]; cbn [flightPhase truthy show negb orb andb] in *.
  2:{ exists [Sleep 2; Http (status (if_set (session_id (client w))))].
    do 3 (split; [eassumption|]). split; [|split; [|split]].
    4:{ intros o w' e Y. cbn [takeoff_loop]. unfold fmt_out, sleep.
        eapply yields_conv.
        - eapply yields_bind; [apply yields_emit|].
          eapply yields_bind; [exact U|]. cbv beta.
          cbn [flightPhase truthy negb show].
          exact Y.
        - reflexivity.
        - reflexivity. }
    all: reflexivity. }
  destruct (p =? "")%string eqn:E0; cbn [negb orb andb] in *.
  { exists [Sleep 2; Http (status (if_set (session_id (client w))))].
    do 3 (split; [eassumption|]). split; [|split; [|split]].
    4:{ intros o w' e Y. cbn [takeoff_loop]. unfold fmt_out, sleep.
        eapply yields_conv.
        - eapply yields_bind; [apply yields_emit|].
          eapply yields_bind; [exact U|]. cbv beta.
          cbn [flightPhase truthy negb show].
          rewrite E0. cbn [negb].
          exact Y.
        - reflexivity.
        - reflexivity. }
    all: reflexivity. }
  destruct (p =? "READY_FOR_GROUND_TAKEOFF")%string eqn:E1.
  { exists [Sleep 2; Http (status (if_set (session_id (client w)))); Out ("Publishing ground takeoff" ++ nl); Http (async_command "ground_takeoff")].
    do 3 (split; [eassumption|]). split; [|split; [|split]].
    4:{ intros o w' e Y. cbn [takeoff_loop]. unfold fmt_out, sleep.
        eapply yields_conv.
        - eapply yields_bind; [apply yields_emit|].
          eapply yields_bind; [exact U|]. cbv beta.
          cbn [flightPhase truthy negb show].
          rewrite E0, E1. cbn [negb].
          eapply yields_bind; [apply yields_emit|].
          eapply yields_bind; [apply yields_emit|].
          exact Y.
        - reflexivity.
        - reflexivity. }
    all: reflexivity. }
  cbn [orb] in W.
  assert (NF : (p =? "FLYING")%string = false).
  { repeat (apply orb_prop in W; destruct W as [W|W]);
      apply String.eqb_eq in W; subst p; reflexivity. }
  destruct (p =? "REST")%string eqn:E2.
  { exists [Sleep 2; Http (status (if_set (session_id (client w)))); Out ("on standby" ++ nl)].
    do 3 (split; [eassumption|]). split; [|split; [|split]].
    4:{ intros o w' e Y. cbn [takeoff_loop]. unfold fmt_out, sleep.
        eapply yields_conv.
        - eapply yields_bind; [apply yields_emit|].
          eapply yields_bind; [exact U|]. cbv beta.
          cbn [flightPhase truthy negb show].
          rewrite E0, E1, NF, E2. cbn [negb].
          eapply yields_bind; [apply yields_emit|].
          exact Y.
        - reflexivity.
        - reflexivity. }
    all: reflexivity. }
  destruct (p =? "FLIGHT_PROCESSES_CHECK")%string eqn:E3.
  { exists [Sleep 2; Http (status (if_set (session_id (client w)))); Out ("Pre-Flight Check in progress" ++ nl)].
    do 3 (split; [eassumption|]). split; [|split; [|split]].
    4:{ intros o w' e Y. cbn [takeoff_loop]. unfold fmt_out, sleep.
        eapply yields_conv.
        - eapply yields_bind; [apply yields_emit|].
          eapply yields_bind; [exact U|]. cbv beta.
          cbn [flightPhase truthy negb show].
          rewrite E0, E1, NF, E2, E3. cbn [negb].
          eapply yields_bind; [apply yields_emit|].
          exact Y.
        - reflexivity.
        - reflexivity. }
    all: reflexivity. }
  destruct (p =? "PREP")%string eqn:E4.
  { exists [Sleep 2; Http (status (if_set (session_id (client w)))); Out ("Calibrating Cameras" ++ nl)].
    do 3 (split; [eassumption|]). split; [|split; [|split]].
    4:{ intros o w' e Y. cbn [takeoff_loop]. unfold fmt_out, sleep.
        eapply yields_conv.
        - eapply yields_bind; [apply yields_emit|].
          eapply yields_bind; [exact U|]. cbv beta.
          cbn [flightPhase truthy negb show].
          rewrite E0, E1, NF, E2, E3, E4. cbn [negb].
          eapply yields_bind; [apply yields_emit|].
          exact Y.
        - reflexivity.
        - reflexivity. }
    all: reflexivity. }
  cbn [orb] in W.
  exists [Sleep 2; Http (status (if_set (session_id (client w)))); Out ("Initializing flight logs" ++ nl)].
    do 3 (split; [eassumption|]). split; [|split; [|split]].
    4:{ intros o w' e Y. cbn [takeoff_loop]. unfold fmt_out, sleep.
        eapply yields_conv.
        - eapply yields_bind; [apply yields_emit|].
          eapply yields_bind; [exact U|]. cbv beta.
          cbn [flightPhase truthy negb show].
          rewrite E0, E1, NF, E2, E3, E4, W. cbn [negb].
          eapply yields_bind; [apply yields_emit|].
          exact Y.
        - reflexivity.
        - reflexivity. }
    all: reflexivity.
Qed.

Lemma takeoff_loop_general (pre : list StatusReply) :
  forall (w : World) (fuel : nat) (f : StatusReply) (post : list StatusReply),
    statuses w = (pre ++ f :: post)%list ->
    forallb waits pre = true ->
    in_phase "FLYING" f = true ->
    (List.length pre + 1 <= fuel)%nat ->
    exists w' e,
      yields (takeoff_loop fuel) w (Ret tt) w' e
      /\ statuses w' = post /\ same_identity w w'
      /\ fault_replies w' = fault_replies w
      /\ commands "ground_takeoff" e = List.length (filter ready pre)
      /\ commands "land" e = 0%nat
      /\ polls e = S (List.length pre).
Proof.
  induction pre as [|p pre IH]; intros w fuel f post E K G F.
  - destruct fuel as [|fuel]; [cbn in F; lia|].
    cbn [app] in E.
    pose proof (update_pilot_status_yields w f post E) as U.
    set (w1 := set_client _ _) in U.
    exists w1. eexists. split; [|split; [|split; [|split; [|split; [|split]]]]].
    + cbn [takeoff_loop]. unfold fmt_out, sleep.
      eapply yields_bind; [apply yields_emit|].
      eapply yields_bind; [exact U|]. cbv beta.
      unfold in_phase in G. apply andb_prop in G as [G1 G2].
      rewrite G1. cbn [negb].
      destruct (show (flightPhase f) =? "READY_FOR_GROUND_TAKEOFF")%string eqn:E1.
      { apply String.eqb_eq in E1. rewrite E1 in G2. discriminate. }
      rewrite G2.
      eapply yields_bind; [apply yields_emit | apply yields_ret].
    + reflexivity.
    + repeat split.
    + reflexivity.
    + reflexivity.
    + reflexivity.
    + reflexivity.
  - destruct fuel as [|fuel]; [cbn in F; lia|].
    cbn [forallb] in K. apply andb_prop in K as [K1 K2].
    cbn [app] in E.
    destruct (takeoff_loop_round fuel w p (pre ++ f :: post)%list E K1)
      as (w1 & evs & E1 & I1 & F1 & C1 & L1 & P1 & Y1).
    destruct (IH w1 fuel f post E1 K2 G)
      as (w' & e & Y & S & I & FR & C & L & P).
    { cbn [List.length] in F. lia. }
    exists w'. eexists. split; [|split; [|split; [|split; [|split; [|split]]]]].
    + apply Y1, Y.
    + exact S.
    + exact (same_identity_trans _ _ _ I1 I).
    + congruence.
    + rewrite commands_app, C, C1. cbn [filter].
      destruct (ready p); reflexivity.
    + rewrite commands_app, L, L1. reflexivity.
    + rewrite polls_app, P, P1. reflexivity.
Qed.

Lemma takeoff_prologue (w : World) (r0 : StatusReply) (rest : list StatusReply) :
  is_pilot w ->
  statuses w = r0 :: rest ->
  exists w1,
    statuses w1 = rest /\ same_identity w w1
    /\ fault_replies w1 = fault_replies w
    /\ session_id (client w1) = Some (sessionId r0)
    /\ forall o w' e,
        yields (takeoff_loop (S (List.length rest))) w1 o w' e ->
        yields takeoff w o w'
               ([Call m_takeoff; Http (status (if_set (session_id (client w))));
                 Http (set_fault_override 2); Http (set_fault_override 3)]
                ++ e)%list.
Proof.
  unfold is_pilot. intros P E.
  pose proof (update_pilot_status_yields w r0 rest E) as U.
  set (w1 := set_client _ _) in U.
  assert (S1 : statuses w1 = rest) by reflexivity.
  assert (I1 : same_identity w w1) by (repeat split).
  assert (F1 : fault_replies w1 = fault_replies w) by reflexivity.
  assert (D1 : session_id (client w1) = Some (sessionId r0)) by reflexivity.
  clearbody w1. exists w1. repeat split; try assumption.
  - apply I1.
  - apply I1.
  - apply I1.
  - intros o w' e Y. unfold takeoff.
    eapply yields_conv.
    + eapply yields_bind; [apply yields_emit|].
      eapply yields_bind; [apply yields_get_world|]. cbv beta.
      rewrite P, differs_same.
      eapply yields_bind; [exact U|].
      eapply yields_bind.
      * unfold disable_faults. cbn [fold_right snd].
        eapply yields_bind; [apply yields_emit|].
        eapply yields_bind; [apply yields_emit|]. apply yields_ret.
      * eapply yields_bind; [apply yields_get_world|]. cbv beta.
        rewrite S1. exact Y.
    + reflexivity.
    + reflexivity.
Qed.

(** X3: [takeoff] with PILOT access does not look at the phase of the reply
    to its first refresh; it then polls, waiting through replies with no
    phase, an empty phase or one of REST, FLIGHT_PROCESSES_CHECK, PREP,
    LOGGING_START and READY_FOR_GROUND_TAKEOFF, and returns on the first
    reply that reports FLYING.  It has then sent one [ground_takeoff] per
    READY_FOR_GROUND_TAKEOFF reply polled, no [land], has not asked for the
    faults, and has left the later replies unread. *)
Theorem takeoff_returns_on_flying
        (w : World) (r0 f : StatusReply) (pre post : list StatusReply) :
  is_pilot w ->
  statuses w = (r0 :: pre ++ f :: post)%list ->
  forallb waits pre = true ->
  in_phase "FLYING" f = true ->
  out (takeoff w) = Ret tt
  /\ statuses (world (takeoff w)) = post
  /\ fault_replies (world (takeoff w)) = fault_replies w
  /\ commands "ground_takeoff" (events (takeoff w))
     = List.length (filter ready pre)
  /\ commands "land" (events (takeoff w)) = 0%nat
  /\ polls (events (takeoff w)) = (List.length pre + 2)%nat.
Proof.
  intros P E K G.
  destruct (takeoff_prologue w r0 (pre ++ f :: post)%list P E)
    as (w1 & S1 & I1 & F1 & _ & Y1).
  destruct (takeoff_loop_general pre w1
              (S (List.length (pre ++ f :: post)%list)) f post S1 K G)
    as (w' & e & Y & S & _ & FR & C & L & PL).
  { rewrite length_app. lia. }
  specialize (Y1 _ _ _ Y). unfold yields in Y1. rewrite Y1.
  cbn [out world events].
  rewrite !commands_app, polls_app, C, L, PL.
  repeat split; try assumption; try congruence.
  cbn. lia.
Qed.

Lemma takeoff_returns_witness :
  out (takeoff slow_start_world) = Ret tt
  /\ statuses (world (takeoff slow_start_world))
     = [mkStatusReply "s7" (Some "FLYING")]
  /\ commands "ground_takeoff" (events (takeoff slow_start_world)) = 1%nat.
Proof.
  pose proof (takeoff_returns_on_flying slow_start_world
                (mkStatusReply "s0" (Some "FLYING"))
                (mkStatusReply "s6" (Some "FLYING"))
                [mkStatusReply "s1" (Some "REST"); mkStatusReply "s2" None;
                 mkStatusReply "s3" (Some "FLIGHT_PROCESSES_CHECK");
                 mkStatusReply "s4" (Some "LOGGING_START");
                 mkStatusReply "s5" (Some "READY_FOR_GROUND_TAKEOFF")]
                [mkStatusReply "s7" (Some "FLYING")]
                eq_refl eq_refl eq_refl eq_refl) as H.
  split; [exact (proj1 H)|]. split; [exact (proj1 (proj2 H))|].
  exact (proj1 (proj2 (proj2 (proj2 H)))).
Defined.

Lemma takeoff_loop_starved (pre : list StatusReply) :
  forall (w : World) (fuel : nat),
    statuses w = pre ->
    forallb waits pre = true ->
    (List.length pre + 1 <= fuel)%nat ->
    exists w' e,
      yields (takeoff_loop fuel) w Starved w' e
      /\ statuses w' = []
      /\ commands "ground_takeoff" e = List.length (filter ready pre)
      /\ polls e = S (List.length pre).
Proof.
  induction pre as [|p pre IH]; intros w fuel E K F.
  - destruct fuel as [|fuel]; [cbn in F; lia|].
    exists w. eexists. split; [|split; [|split]].
    + cbn [takeoff_loop]. unfold fmt_out, sleep.
      eapply yields_bind; [apply yields_emit|].
      apply yields_starved, (update_pilot_status_starved w E).
    + exact E.
    + reflexivity.
    + reflexivity.
  - destruct fuel as [|fuel]; [cbn in F; lia|].
    cbn [forallb] in K. apply andb_prop in K as [K1 K2].
    destruct (takeoff_loop_round fuel w p pre E K1)
      as (w1 & evs & E1 & _ & _ & C1 & _ & P1 & Y1).
    destruct (IH w1 fuel E1 K2) as (w' & e & Y & S & C & P).
    { cbn [List.length] in F. lia. }
    exists w'. eexists. split; [|split; [|split]].
    + apply Y1, Y.
    + exact S.
    + rewrite commands_app, C, C1. cbn [filter].
      destruct (ready p); reflexivity.
    + rewrite polls_app, P, P1. reflexivity.
Qed.

(** X4: [takeoff] has no bound on its wait: as long as no reply after the
    first reports FLYING (the replies having no phase, an empty phase or one
    of the five phases it waits through), it keeps polling, sending
    [ground_takeoff] on every READY_FOR_GROUND_TAKEOFF, and is left waiting
    on a poll. *)
Theorem takeoff_waits_for_flying
        (w : World) (r0 : StatusReply) (rest : list StatusReply) :
  is_pilot w ->
  statuses w = r0 :: rest ->
  forallb waits rest = true ->
  out (takeoff w) = Starved
  /\ statuses (world (takeoff w)) = []
  /\ commands "ground_takeoff" (events (takeoff w))
     = List.length (filter ready rest)
  /\ polls (events (takeoff w)) = (List.length rest + 2)%nat.
Proof.
  intros P E K.
  destruct (takeoff_prologue w r0 rest P E) as (w1 & S1 & _ & _ & _ & Y1).
  destruct (takeoff_loop_starved rest w1 (S (List.length rest)) S1 K)
    as (w' & e & Y & S & C & PL); [lia|].
  specialize (Y1 _ _ _ Y). unfold yields in Y1. rewrite Y1.
  cbn [out world events].
  rewrite !commands_app, polls_app, C, PL.
  repeat split; try assumption. cbn. lia.
Qed.

Lemma takeoff_waits_witness :
  out (takeoff (pilot_world [phase "REST"; phase "READY_FOR_GROUND_TAKEOFF";
                             phase "READY_FOR_GROUND_TAKEOFF"])) = Starved
  /\ commands "ground_takeoff"
       (events (takeoff (pilot_world [phase "REST";
                                      phase "READY_FOR_GROUND_TAKEOFF";
                                      phase "READY_FOR_GROUND_TAKEOFF"])))
     = 2%nat.
Proof.
  pose proof (takeoff_waits_for_flying
                (pilot_world [phase "REST"; phase "READY_FOR_GROUND_TAKEOFF";
                              phase "READY_FOR_GROUND_TAKEOFF"])
                (phase "REST")
                [phase "READY_FOR_GROUND_TAKEOFF";
                 phase "READY_FOR_GROUND_TAKEOFF"]
                eq_refl eq_refl eq_refl) as H.
  split; [exact (proj1 H) | exact (proj1 (proj2 (proj2 H)))].
Defined.

Lemma unnamed_phase_chain (r : StatusReply) :
  unnamed_phase r = true ->
  truthy (flightPhase r) = true
  /\ (show (flightPhase r) =? "READY_FOR_GROUND_TAKEOFF")%string = false
  /\ (show (flightPhase r) =? "FLYING")%string = false
  /\ (show (flightPhase r) =? "REST")%string = false
  /\ (show (flightPhase r) =? "FLIGHT_PROCESSES_CHECK")%string = false
  /\ (show (flightPhase r) =? "PREP")%string = false
  /\ (show (flightPhase r) =? "LOGGING_START")%string = false.
Proof.
  unfold unnamed_phase, waits, in_phase.
  destruct (truthy (flightPhase r)); cbn [andb negb orb]; [|discriminate].
  intros H. apply andb_prop in H as [H1 H2].
  apply negb_true_iff in H1, H2.
  repeat (apply orb_false_elim in H1; destruct H1 as [H1 ?]).
  repeat split; assumption.
Qed.

Lemma update_pilot_status_events (w : World) :
  events (update_pilot_status w)
  = [Http (status (if_set (session_id (client w))))].
Proof.
  destruct (statuses w) as [|r rest] eqn:E.
  - pose proof (update_pilot_status_starved w E) as Y.
    unfold yields in Y. now rewrite Y.
  - pose proof (update_pilot_status_yields w r rest E) as Y.
    unfold yields in Y. now rewrite Y.
Qed.

Lemma takeoff_loop_begins (fuel : nat) (w : World) :
  begins (takeoff_loop (S fuel)) w
         [Sleep 2; Http (status (if_set (session_id (client w))))].
Proof.
  cbn [takeoff_loop]. unfold sleep.
  apply (begins_bind _ _ w w tt [Sleep 2]); [apply yields_emit|].
  apply begins_left. exists []. rewrite update_pilot_status_events.
  reflexivity.
Qed.

(** X5: when a poll of [takeoff] reports a phase that it does not name, it
    asks the vehicle for the active faults, prints the names of those marked
    relevant, in order and separated by commas, and goes on polling; nothing
    is commanded. *)
Theorem takeoff_prints_blocking_faults
        (w : World) (r0 r1 : StatusReply) (rest : list StatusReply)
        (faults : list Fault) (more : list (list Fault)) :
  is_pilot w ->
  statuses w = r0 :: r1 :: rest ->
  unnamed_phase r1 = true ->
  fault_replies w = faults :: more ->
  begins takeoff w
         [Call m_takeoff; Http (status (if_set (session_id (client w))));
          Http (set_fault_override 2); Http (set_fault_override 3);
          Sleep 2; Http (status (if_set (Some (sessionId r0))));
          Http active_faults;
          Out ("Faults = "
               ++ String.concat "," (map name (filter relevant faults)) ++ nl);
          Sleep 2; Http (status (if_set (Some (sessionId r1))))].
Proof.
  intros P E U F.
  destruct (takeoff_prologue w r0 (r1 :: rest) P E)
    as (w1 & S1 & _ & F1 & D1 & Y1).
  destruct (unnamed_phase_chain r1 U) as (T & N1 & N2 & N3 & N4 & N5 & N6).
  pose proof (update_pilot_status_yields w1 r1 rest S1) as U1.
  set (w2 := set_client _ _) in U1.
  assert (F2 : fault_replies w2 = faults :: more).
  { subst w2. cbn [fault_replies set_client set_statuses]. congruence. }
  assert (D2 : session_id (client w2) = Some (sessionId r1)) by reflexivity.
  clearbody w2.
  pose proof (get_blocking_faults_yields w2 faults more F2) as G.
  set (w3 := set_fault_replies more w2) in G.
  assert (D3 : session_id (client w3) = Some (sessionId r1)) by exact D2.
  clearbody w3.
  destruct (takeoff_loop_begins (List.length rest) w3) as (tl & T3).
  rewrite D3 in T3.
  set (tail := takeoff_loop (S (List.length rest)) w3) in *.
  assert (Y : yields (takeoff_loop (S (List.length (r1 :: rest)))) w1
                (out tail) (world tail)
                ([Sleep 2; Http (status (if_set (Some (sessionId r0))));
                  Http active_faults;
                  Out ("Faults = "
                       ++ String.concat "," (map name (filter relevant faults))
                       ++ nl)] ++ events tail)%list).
  { cbn [List.length]. 
    change (takeoff_loop (S (S (Datatypes.length rest))))
      with (sleep 2 ;;
            response <- update_pilot_status ;;
            let phase := flightPhase response in
            if negb (truthy phase) then takeoff_loop (S (List.length rest))
            else
              let phase := show phase in
              if (phase =? "READY_FOR_GROUND_TAKEOFF")%string then
                fmt_out ("Publishing ground takeoff" ++ nl) ;;
                emit (Http (async_command "ground_takeoff")) ;;
                takeoff_loop (S (List.length rest))
              else if (phase =? "FLYING")%string then
                fmt_out ("Flying." ++ nl) ;;
                ret tt
              else if (phase =? "REST")%string then
                fmt_out ("on standby" ++ nl) ;; takeoff_loop (S (List.length rest))
              else if (phase =? "FLIGHT_PROCESSES_CHECK")%string then
                fmt_out ("Pre-Flight Check in progress" ++ nl) ;;
                takeoff_loop (S (List.length rest))
              else if (phase =? "PREP")%string then
                fmt_out ("Calibrating Cameras" ++ nl) ;;
                takeoff_loop (S (List.length rest))
              else if (phase =? "LOGGING_START")%string then
                fmt_out ("Initializing flight logs" ++ nl) ;;
                takeoff_loop (S (List.length rest))
              else
                faults <- get_blocking_faults ;;
                fmt_out ("Faults = " ++ String.concat "," faults ++ nl) ;;
                takeoff_loop (S (List.length rest))).
    unfold fmt_out, sleep.
    eapply yields_conv.
    - eapply yields_bind; [apply yields_emit|].
      eapply yields_bind; [exact U1|]. cbv beta zeta.
      rewrite T, N1, N2, N3, N4, N5, N6. cbn [negb].
      eapply yields_bind; [exact G|]. cbv beta.
      eapply yields_bind; [apply yields_emit|].
      apply yields_self.
    - reflexivity.
    - rewrite D1. reflexivity. }
  specialize (Y1 _ _ _ Y). unfold yields in Y1.
  unfold begins. rewrite Y1. cbn [events]. rewrite T3.
  exists tl. reflexivity.
Qed.

Lemma takeoff_prints_blocking_faults_witness :
  begins takeoff faulted_world
         [Call m_takeoff; Http (status None);
          Http (set_fault_override 2); Http (set_fault_override 3);
          Sleep 2; Http (status (Some "s0"));
          Http active_faults;
          Out ("Faults = GPS_LOST,BATTERY_LOW" ++ nl);
          Sleep 2; Http (status (Some "s1"))].
Proof.
  apply (takeoff_prints_blocking_faults faulted_world
           (mkStatusReply "s0" (Some "REST"))
           (mkStatusReply "s1" (Some "POST_FLIGHT")) []
           [mkFault "GPS_LOST" true; mkFault "LOW_LIGHT" false;
            mkFault "BATTERY_LOW" true] []);
    reflexivity.
Defined.

(* ================================================================== *)
(** * Authentication *)

(** X6: a client that is granted what it asks for comes out of its
    constructor with the given client id, the token and level of the reply
    and no session id.  A request at phone level (4) is accepted whatever
    level comes back, even none; a request at pilot level (8) needs PILOT.
    The only request sent is the authentication. *)
Theorem client_authenticated
        (strip : string -> string) (cid : string) (pilot : bool)
        (token_file : option TokenFile) (w : World) :
  (pilot = true -> accessLevel (auth_reply w) = Some "PILOT") ->
  readable token_file ->
  let r := HTTPClient strip cid pilot token_file w in
  out r = Ret tt
  /\ client (world r)
     = mkSession cid (accessToken (auth_reply w)) (accessLevel (auth_reply w)) None
  /\ statuses (world r) = statuses w
  /\ events r
     = [Http (authentication cid (if pilot then 8 else 4)
                             (credentials_of strip token_file));
        Out ("Received access token:" ++ nl
             ++ show (accessToken (auth_reply w)) ++ nl)].
Proof.
  intros L R r.
  assert (C : exists token, ret (credentials_of strip token_file)
                = match token_file with
                  | Some f =>
                      match contents f with
                      | None =>
                          fmt_err ("Token file does not exist: " ++ path f ++ nl) ;;
                          stop (Exit 1)
                      | Some token => ret (Some (strip token))
                      end
                  | None => ret None
                  end /\ token = credentials_of strip token_file).
  { eexists. split; [|reflexivity].
    destruct token_file as [f|]; [|reflexivity]. cbn [credentials_of].
    specialize (R f eq_refl). destruct (contents f); [reflexivity|].
    exfalso. now apply R. }
  destruct C as (token & C & _).
  assert (B : (pilot && differs (accessLevel (auth_reply w)) "PILOT") = false).
  { destruct pilot; [|reflexivity]. rewrite (L eq_refl). apply differs_same. }
  assert (Y : yields (HTTPClient strip cid pilot token_file) w (Ret tt)
                (set_client (mkSession cid (accessToken (auth_reply w))
                                       (accessLevel (auth_reply w)) None) w)
                [Http (authentication cid (if pilot then 8 else 4)
                                      (credentials_of strip token_file));
                 Out ("Received access token:" ++ nl
                      ++ show (accessToken (auth_reply w)) ++ nl)]).
  { unfold HTTPClient, _authenticate, put_client, fmt_out. rewrite <- C.
    eapply yields_conv.
    - eapply yields_bind; [apply yields_modify|].
      eapply yields_bind; [apply yields_get_world|]. cbv beta zeta.
      eapply yields_bind; [apply yields_ret|].
      eapply yields_bind; [apply yields_emit|].
      eapply yields_bind; [apply yields_modify|].
      cbn [access_level auth_reply set_client client_id client access_token
           session_id].
      rewrite B.
      eapply yields_bind; [apply yields_ret|].
      eapply yields_bind; [apply yields_modify|].
      apply yields_emit.
    - reflexivity.
    - reflexivity. }
  subst r. unfold yields in Y. rewrite Y. repeat split.
Qed.

Lemma client_authenticated_witness :
  out (HTTPClient (fun s => s) "glove-pc" false None
                  (pilot_world [])) = Ret tt.
Proof.
  apply (client_authenticated (fun s => s) "glove-pc" false None (pilot_world [])).
  - discriminate.
  - intros f H. discriminate.
Defined.

(** X7: when a token file is named and does not exist, [_authenticate] ends
    the process with [sys.exit(1)] before anything is sent, whatever level is
    asked for; the session is as it was. *)
Theorem authenticate_missing_token_file
        (strip : string -> string) (pilot : bool) (f : TokenFile) (w : World) :
  contents f = None ->
  _authenticate strip pilot (Some f) w
  = mkResult (Exit 1) w [Err ("Token file does not exist: " ++ path f ++ nl)].
Proof.
  intros H.
  change (_authenticate strip pilot (Some f) w
          = mkResult (Exit 1) w
                     [Err ("Token file does not exist: " ++ path f ++ nl)])
    with (yields (_authenticate strip pilot (Some f)) w (Exit 1) w
                 [Err ("Token file does not exist: " ++ path f ++ nl)]).
  unfold _authenticate, fmt_err.
  eapply yields_conv.
  - eapply yields_bind; [apply yields_get_world|]. cbv beta iota zeta.
    rewrite H. apply yields_exit.
    eapply yields_bind; [apply yields_emit | apply yields_stop].
  - reflexivity.
  - reflexivity.
Qed.

Lemma authenticate_missing_token_file_witness :
  out (_authenticate (fun s => s) false
                     (Some (mkTokenFile "token.txt" None)) phone_world)
  = Exit 1.
Proof.
  rewrite (authenticate_missing_token_file (fun s => s) false
             (mkTokenFile "token.txt" None) phone_world eq_refl).
  reflexivity.
Defined.

(* ================================================================== *)
(** * Keep-alive *)

Lemma update_loop_general (rs : list StatusReply) :
  forall (w : World) (rest : list StatusReply),
    statuses w = (rs ++ rest)%list ->
    exists w',
      yields (update_loop (List.length rs)) w OutOfFuel w'
             (keepalive_events (session_id (client w)) rs)
      /\ statuses w' = rest
      /\ same_identity w w'
      /\ session_id (client w') = last_session_id (session_id (client w)) rs.
Proof.
  induction rs as [|r rs IH]; intros w rest E.
  - exists w. repeat split. exact E.
  - cbn [app] in E.
    pose proof (update_pilot_status_yields w r (rs ++ rest)%list E) as U.
    set (w1 := set_client _ _) in U.
    destruct (IH w1 rest eq_refl) as (w' & Y & S & I & D).
    exists w'. split; [|split; [|split]].
    + cbn [List.length update_loop keepalive_events]. unfold sleep.
      eapply yields_conv.
      * eapply yields_bind; [exact U|].
        eapply yields_bind; [apply yields_emit | exact Y].
      * reflexivity.
      * reflexivity.
    + exact S.
    + apply (same_identity_trans w w1 w'); [repeat split | exact I].
    + exact D.
Qed.

(** X8: the keep-alive loop sends a status refresh every two seconds; the
    first carries the session id the client holds (none when it holds none
    or an empty one) and each later one carries the id of the reply before
    it.  After [n] replies the client holds the id of the last, its token and
    level are as they were, and the later replies are unread. *)
Theorem keep_alive_refreshes
        (w : World) (rs rest : list StatusReply) :
  statuses w = (rs ++ rest)%list ->
  events (update_loop (List.length rs) w)
  = keepalive_events (session_id (client w)) rs
  /\ statuses (world (update_loop (List.length rs) w)) = rest
  /\ same_identity w (world (update_loop (List.length rs) w))
  /\ session_id (client (world (update_loop (List.length rs) w)))
     = last_session_id (session_id (client w)) rs.
Proof.
  intros E. destruct (update_loop_general rs w rest E) as (w' & Y & S & I & D).
  unfold yields in Y. rewrite Y. repeat split; try assumption; apply I.
Qed.

Lemma keep_alive_refreshes_witness :
  events (update_loop 2 landing_world)
  = [Http (status None); Sleep 2; Http (status (Some "s1")); Sleep 2].
Proof.
  apply (keep_alive_refreshes landing_world
           [mkStatusReply "s1" (Some "FLYING"); mkStatusReply "s2" None]
           [mkStatusReply "s3" (Some ""); mkStatusReply "s4" (Some "POST_FLIGHT");
            mkStatusReply "s5" (Some "REST")]).
  reflexivity.
Defined.

(* ================================================================== *)
(** * How the loops can end *)

Section EndsIn.

Variable S : Kind -> bool.

Lemma ei_ret {A} (a : A) : S KRet = true -> ends_in S (ret a).
Proof. intros H w. exact H. Qed.

Lemma ei_emit (e : Event) : S KRet = true -> ends_in S (emit e).
Proof. intros H w. exact H. Qed.

Lemma ei_get_world : S KRet = true -> ends_in S get_world.
Proof. intros H w. exact H. Qed.

Lemma ei_modify (f : World -> World) : S KRet = true -> ends_in S (modify f).
Proof. intros H w. exact H. Qed.

Lemma ei_next_flexion (h : Hand) : S KRet = true -> ends_in S (next_flexion h).
Proof. intros H w. exact H. Qed.

Lemma ei_next_orientation (h : Hand) :
  S KRet = true -> ends_in S (next_orientation h).
Proof. intros H w. exact H. Qed.

Lemma ei_stop {A} (o : Outcome A) : S (kind_of o) = true -> ends_in S (stop o).
Proof. intros H w. exact H. Qed.

Lemma ei_driver (h : Hand) (c : GloveCall) :
  S KRet = true -> S KRaise = true -> ends_in S (driver h c).
Proof.
  intros H1 H2 w. unfold driver.
  destruct (link (glove h w) (calls (glove h w))); assumption.
Qed.

Lemma ei_bind {A B} (m : M A) (k : A -> M B) :
  ends_in S m -> (forall a, ends_in S (k a)) -> ends_in S (bind m k).
Proof.
  intros Hm Hk w. specialize (Hm w). rewrite out_bind.
  destruct (out (m w)); try exact Hm. apply Hk.
Qed.

Lemma ei_for_range (l : list nat) (body : nat -> M unit) :
  S KRet = true -> (forall i, ends_in S (body i)) ->
  ends_in S (for_range l body).
Proof.
  intros H0 H. induction l as [|i l IH]; cbn [for_range].
  - apply ei_ret, H0.
  - apply ei_bind; [apply H | intros _; exact IH].
Qed.

End EndsIn.

Lemma ei_weaken (S T : Kind -> bool) {A} (m : M A) :
  (forall k, S k = true -> T k = true) -> ends_in S m -> ends_in T m.
Proof. intros H Hm w. apply H, Hm. Qed.

Lemma ei_try_except (S T : Kind -> bool) (m h : M unit) :
  ends_in S m -> ends_in T h ->
  (forall k, S k = true -> k <> KRaise -> T k = true) ->
  ends_in T (try_except m h).
Proof.
  intros Hm Hh HST w. specialize (Hm w). unfold try_except.
  destruct (out (m w)) as [a|[]| | |] eqn:E; cbn [out].
  - rewrite E. apply HST; [exact Hm | discriminate].
  - apply Hh.
  - rewrite E. apply HST; [exact Hm | discriminate].
  - rewrite E. apply HST; [exact Hm | discriminate].
  - rewrite E. apply HST; [exact Hm | discriminate].
Qed.

Lemma ei_try_disconnected (S : Kind -> bool) {A} (m : M A) (kept : A) :
  ends_in S m -> (forall k, S k = true -> ret_or_raise k = true) ->
  ends_in only_ret (try_disconnected m kept).
Proof.
  intros Hm HS w. specialize (Hm w). apply HS in Hm. unfold try_disconnected.
  destruct (out (m w)) as [a|[]| | |] eqn:E; cbn [out]; try rewrite E;
    try reflexivity; discriminate.
Qed.

Ltac ei_step :=
  first [ apply ei_ret; reflexivity | apply ei_emit; reflexivity
        | apply ei_get_world; reflexivity | apply ei_modify; reflexivity
        | apply ei_next_flexion; reflexivity
        | apply ei_next_orientation; reflexivity
        | apply ei_stop; reflexivity
        | apply ei_driver; reflexivity
        | apply ei_for_range; [reflexivity | intros]
        | apply ei_bind; [|intros] ].

Lemma update_pilot_status_ends : ends_in ret_or_starved update_pilot_status.
Proof.
  intros w. destruct (statuses w) as [|r rest] eqn:E.
  - pose proof (update_pilot_status_starved w E) as Y.
    unfold yields in Y. now rewrite Y.
  - pose proof (update_pilot_status_yields w r rest E) as Y.
    unfold yields in Y. now rewrite Y.
Qed.

Lemma get_blocking_faults_ends : ends_in ret_or_starved get_blocking_faults.
Proof.
  intros w. destruct (fault_replies w) as [|f rest] eqn:E.
  - pose proof (get_blocking_faults_starved w E) as Y.
    unfold yields in Y. now rewrite Y.
  - pose proof (get_blocking_faults_yields w f rest E) as Y.
    unfold yields in Y. now rewrite Y.
Qed.

Lemma weaken_rs_rsf {A} (m : M A) :
  ends_in ret_or_starved m -> ends_in ret_starved_fuel m.
Proof. apply ei_weaken. intros []; auto. Qed.

Lemma land_loop_ends (fuel : nat) :
  forall phase, ends_in ret_starved_fuel (land_loop fuel phase).
Proof.
  induction fuel as [|fuel IH]; intros phase; cbn [land_loop].
  - ei_step.
  - destruct (phase =? "FLYING")%string; [|ei_step].
    unfold fmt_out, sleep.
    apply ei_bind; [ei_step|]. intros _.
    apply ei_bind; [ei_step|]. intros _.
    apply ei_bind; [ei_step|]. intros _.
    apply ei_bind; [apply weaken_rs_rsf, update_pilot_status_ends|]. intros r.
    destruct (negb (truthy (flightPhase r))); apply IH.
Qed.

Lemma takeoff_loop_ends (fuel : nat) :
  ends_in ret_starved_fuel (takeoff_loop fuel).
Proof.
  induction fuel as [|fuel IH]; cbn [takeoff_loop].
  - ei_step.
  - unfold fmt_out, sleep.
    apply ei_bind; [ei_step|]. intros _.
    apply ei_bind; [apply weaken_rs_rsf, update_pilot_status_ends|]. intros r.
    destruct (negb (truthy (flightPhase r))); [exact IH|].
    repeat match goal with
           | |- ends_in _ (if ?b then _ else _) => destruct b
           end;
      repeat first [ exact IH
                   | apply weaken_rs_rsf, get_blocking_faults_ends
                   | ei_step ].
Qed.

Lemma land_ends : ends_in ret_or_starved land.
Proof.
  intros w.
  assert (H : ret_starved_fuel (kind_of (out (land w))) = true).
  { revert w. change (ends_in ret_starved_fuel land). unfold land, fmt_err.
    apply ei_bind; [ei_step|]. intros _.
    apply ei_bind; [ei_step|]. intros w.
    destruct (differs _ _); [ei_step | apply land_loop_ends]. }
  pose proof (land_fuelled w) as F.
  destruct (out (land w)); try discriminate; try reflexivity.
  now elim F.
Qed.

Lemma takeoff_ends : ends_in ret_or_starved takeoff.
Proof.
  intros w.
  assert (H : ret_starved_fuel (kind_of (out (takeoff w))) = true).
  { revert w. change (ends_in ret_starved_fuel takeoff). unfold takeoff, fmt_err.
    apply ei_bind; [ei_step|]. intros _.
    apply ei_bind; [ei_step|]. intros w.
    destruct (differs _ _); [ei_step|].
    apply ei_bind; [apply weaken_rs_rsf, update_pilot_status_ends|]. intros _.
    apply ei_bind; [unfold disable_faults; cbn [fold_right snd]; repeat ei_step|].
    intros _. apply ei_bind; [ei_step|]. intros w'. apply takeoff_loop_ends. }
  pose proof (takeoff_fuelled w) as F.
  destruct (out (takeoff w)); try discriminate; try reflexivity.
  now elim F.
Qed.

Lemma weaken_rs_rrs {A} (m : M A) :
  ends_in ret_or_starved m -> ends_in ret_raise_starved m.
Proof. apply ei_weaken. intros []; auto. Qed.

Lemma sample_ends (h : Hand) : ends_in ret_raise_starved (sample h).
Proof.
  unfold sample, Forte_SelectHapticWave, Forte_GetFingersNormalized,
    Forte_GetEulerAngles.
  repeat ei_step.
Qed.

Lemma left_hand_body_ends : ends_in ret_raise_starved left_hand_body.
Proof.
  unfold left_hand_body. apply ei_bind; [apply sample_ends|]. intros s.
  unfold print, sleep, Forte_SendHaptic, Forte_SilenceHaptics.
  destruct (left_gesture s);
    repeat first [ apply weaken_rs_rrs, land_ends | ei_step ].
Qed.

Lemma right_hand_body_ends : ends_in ret_raise_starved right_hand_body.
Proof.
  unfold right_hand_body. apply ei_bind; [apply sample_ends|]. intros s.
  unfold print, sleep, Forte_SendHaptic, Forte_SilenceHaptics.
  destruct (right_gesture s);
    repeat first [ apply weaken_rs_rrs, land_ends
                 | apply weaken_rs_rrs, takeoff_ends | ei_step ].
Qed.

Lemma fail_safe_ends : ends_in ret_or_starved fail_safe.
Proof.
  unfold fail_safe, print, sleep.
  apply ei_bind; [ei_step|]. intros _.
  apply ei_bind; [ei_step|]. intros _. apply land_ends.
Qed.

Lemma hand_pass_ends (body : M unit) :
  ends_in ret_raise_starved body ->
  ends_in ret_or_starved (try_except body fail_safe).
Proof.
  intros H. apply (ei_try_except ret_raise_starved); [exact H | apply fail_safe_ends|].
  intros [] H1 H2; try reflexivity; try discriminate. now elim H2.
Qed.


(* ================================================================== *)
(** * The identity of the session *)

Lemma ki_ret {A} (a : A) : keeps_identity (ret a).
Proof. intros w. apply same_identity_refl. Qed.

Lemma ki_stop {A} (o : Outcome A) : keeps_identity (stop o).
Proof. intros w. apply same_identity_refl. Qed.

Lemma ki_emit (e : Event) : keeps_identity (emit e).
Proof. intros w. apply same_identity_refl. Qed.

Lemma ki_get_world : keeps_identity get_world.
Proof. intros w. apply same_identity_refl. Qed.

Lemma ki_driver (h : Hand) (c : GloveCall) : keeps_identity (driver h c).
Proof.
  intros w. unfold driver.
  destruct (link (glove h w) (calls (glove h w))); destruct h; repeat split.
Qed.

Lemma ki_next_flexion (h : Hand) : keeps_identity (next_flexion h).
Proof. intros w. destruct h; repeat split. Qed.

Lemma ki_next_orientation (h : Hand) : keeps_identity (next_orientation h).
Proof. intros w. destruct h; repeat split. Qed.

Lemma ki_bind {A B} (m : M A) (k : A -> M B) :
  keeps_identity m -> (forall a, keeps_identity (k a)) ->
  keeps_identity (bind m k).
Proof.
  intros Hm Hk w. specialize (Hm w). unfold bind.
  destruct (out (m w)) as [a| | | |]; cbn [world]; try exact Hm.
  exact (same_identity_trans _ _ _ Hm (Hk a _)).
Qed.

Lemma ki_for_range (l : list nat) (body : nat -> M unit) :
  (forall i, keeps_identity (body i)) -> keeps_identity (for_range l body).
Proof.
  intros H. induction l as [|i l IH]; cbn [for_range].
  - apply ki_ret.
  - apply ki_bind; [apply H | intros _; exact IH].
Qed.

Lemma ki_try_except (m h : M unit) :
  keeps_identity m -> keeps_identity h -> keeps_identity (try_except m h).
Proof.
  intros Hm Hh w. specialize (Hm w). unfold try_except.
  destruct (out (m w)) as [a|[]| | |]; cbn [world]; try exact Hm.
  exact (same_identity_trans _ _ _ Hm (Hh _)).
Qed.

Lemma ki_try_disconnected {A} (m : M A) (kept : A) :
  keeps_identity m -> keeps_identity (try_disconnected m kept).
Proof.
  intros Hm w. specialize (Hm w). unfold try_disconnected.
  destruct (out (m w)) as [a|[]| | |]; cbn [world]; exact Hm.
Qed.

Lemma ki_update_pilot_status : keeps_identity update_pilot_status.
Proof.
  intros w. destruct (statuses w) as [|r rest] eqn:E.
  - pose proof (update_pilot_status_starved w E) as Y.
    unfold yields in Y. rewrite Y. apply same_identity_refl.
  - pose proof (update_pilot_status_yields w r rest E) as Y.
    unfold yields in Y. rewrite Y. repeat split.
Qed.

Lemma ki_get_blocking_faults : keeps_identity get_blocking_faults.
Proof.
  intros w. destruct (fault_replies w) as [|f rest] eqn:E.
  - pose proof (get_blocking_faults_starved w E) as Y.
    unfold yields in Y. rewrite Y. apply same_identity_refl.
  - pose proof (get_blocking_faults_yields w f rest E) as Y.
    unfold yields in Y. rewrite Y. repeat split.
Qed.

Ltac ki_step :=
  first [ apply ki_ret | apply ki_stop | apply ki_emit | apply ki_get_world
        | apply ki_driver | apply ki_next_flexion | apply ki_next_orientation
        | apply ki_update_pilot_status | apply ki_get_blocking_faults
        | apply ki_for_range; intros
        | apply ki_try_except | apply ki_try_disconnected
        | apply ki_bind; [|intros] ].

Lemma ki_land_loop (fuel : nat) :
  forall phase, keeps_identity (land_loop fuel phase).
Proof.
  induction fuel as [|fuel IH]; intros phase; cbn [land_loop].
  - ki_step.
  - destruct (phase =? "FLYING")%string; [|ki_step].
    unfold fmt_out, sleep.
    do 4 (apply ki_bind; [ki_step|]; intros ?).
    destruct (negb (truthy _)); apply IH.
Qed.

Lemma ki_takeoff_loop (fuel : nat) : keeps_identity (takeoff_loop fuel).
Proof.
  induction fuel as [|fuel IH]; cbn [takeoff_loop].
  - ki_step.
  - unfold fmt_out, sleep.
    do 2 (apply ki_bind; [ki_step|]; intros ?).
    destruct (negb (truthy _)); [exact IH|].
    repeat match goal with
           | |- keeps_identity (if ?b then _ else _) => destruct b
           end;
      repeat first [ exact IH | ki_step ].
Qed.

Lemma ki_land : keeps_identity land.
Proof.
  unfold land, fmt_err.
  do 2 (apply ki_bind; [ki_step|]; intros ?).
  destruct (differs _ _); [ki_step | apply ki_land_loop].
Qed.

Lemma ki_takeoff : keeps_identity takeoff.
Proof.
  unfold takeoff, fmt_err.
  do 2 (apply ki_bind; [ki_step|]; intros ?).
  destruct (differs _ _); [ki_step|].
  apply ki_bind; [ki_step|]. intros _.
  apply ki_bind; [unfold disable_faults; cbn [fold_right snd]; repeat ki_step|].
  intros _. apply ki_bind; [ki_step|]. intros w'. apply ki_takeoff_loop.
Qed.

Lemma ki_left_hand_pass : keeps_identity left_hand_pass.
Proof.
  unfold left_hand_pass, fail_safe, left_hand_body, sample, print, sleep,
    Forte_SelectHapticWave, Forte_GetFingersNormalized, Forte_GetEulerAngles,
    Forte_SendHaptic, Forte_SilenceHaptics.
  apply ki_try_except.
  - apply ki_bind; [repeat ki_step|]. intros s.
    destruct (left_gesture s); repeat first [ apply ki_land | ki_step ].
  - repeat first [ apply ki_land | ki_step ].
Qed.

Lemma ki_right_hand_pass : keeps_identity right_hand_pass.
Proof.
  unfold right_hand_pass, fail_safe, right_hand_body, sample, print, sleep,
    Forte_SelectHapticWave, Forte_GetFingersNormalized, Forte_GetEulerAngles,
    Forte_SendHaptic, Forte_SilenceHaptics.
  apply ki_try_except.
  - apply ki_bind; [repeat ki_step|]. intros s.
    destruct (right_gesture s);
      repeat first [ apply ki_land | apply ki_takeoff | ki_step ].
  - repeat first [ apply ki_land | ki_step ].
Qed.

(** X10: once the client is authenticated nothing changes its client id, its
    access token or its access level: not [takeoff], not [land], not the
    keep-alive loop and not the input loops, however they end. *)
Theorem session_identity_is_kept (n : nat) (w : World) :
  same_identity w (world (takeoff w))
  /\ same_identity w (world (land w))
  /\ same_identity w (world (update_loop n w))
  /\ same_identity w (world (left_hand n w))
  /\ same_identity w (world (right_hand n w)).
Proof.
  split; [apply ki_takeoff|]. split; [apply ki_land|].
  split; [|split].
  - revert w. change (keeps_identity (update_loop n)).
    induction n as [|n IH]; cbn [update_loop]; [ki_step|].
    unfold sleep. repeat first [ exact IH | ki_step ].
  - revert w. change (keeps_identity (left_hand n)).
    induction n as [|n IH]; cbn [left_hand]; [ki_step|].
    apply ki_bind; [apply ki_left_hand_pass | intros _; exact IH].
  - revert w. change (keeps_identity (right_hand n)).
    induction n as [|n IH]; cbn [right_hand]; [ki_step|].
    apply ki_bind; [apply ki_right_hand_pass | intros _; exact IH].
Qed.

(* ================================================================== *)
(** * Without pilot access nothing reaches the vehicle *)

Section Unpiloted.

Variable P : Event -> bool.

Lemma uo_ret {A} (a : A) : unpiloted_only P (ret a).
Proof. intros w H. split; [reflexivity | split; [exact H | discriminate]]. Qed.

Lemma uo_emit (e : Event) : P e = true -> unpiloted_only P (emit e).
Proof.
  intros He w H. split; [cbn; now rewrite He | split; [exact H | discriminate]].
Qed.

Lemma uo_driver (h : Hand) (c : GloveCall) :
  P (Glove h c) = true -> P (Disconnected h c) = true ->
  unpiloted_only P (driver h c).
Proof.
  intros H1 H2 w H. unfold driver.
  destruct (link (glove h w) (calls (glove h w)));
    cbn [events world out forallb]; rewrite ?H1, ?H2;
    (split; [reflexivity | split; [destruct h; exact H | discriminate]]).
Qed.

Lemma uo_next_flexion (h : Hand) : unpiloted_only P (next_flexion h).
Proof.
  intros w H. split; [reflexivity | split; [destruct h; exact H | discriminate]].
Qed.

Lemma uo_next_orientation (h : Hand) : unpiloted_only P (next_orientation h).
Proof.
  intros w H. split; [reflexivity | split; [destruct h; exact H | discriminate]].
Qed.

Lemma uo_bind {A B} (m : M A) (k : A -> M B) :
  unpiloted_only P m -> (forall a, unpiloted_only P (k a)) ->
  unpiloted_only P (bind m k).
Proof.
  intros Hm Hk w H. destruct (Hm w H) as (E & U & N). unfold bind.
  destruct (out (m w)) as [a| | | |]; cbn [events world out];
    try (split; [assumption | split; [assumption | discriminate]]).
  - destruct (Hk a _ U) as (E' & U' & N'). split; [|split; assumption].
    now rewrite forallb_app, E, E'.
  - now elim N.
Qed.

Lemma uo_for_range (l : list nat) (body : nat -> M unit) :
  (forall i, unpiloted_only P (body i)) -> unpiloted_only P (for_range l body).
Proof.
  intros H. induction l as [|i l IH]; cbn [for_range].
  - apply uo_ret.
  - apply uo_bind; [apply H | intros _; exact IH].
Qed.

Lemma uo_try_except (m h : M unit) :
  unpiloted_only P m -> unpiloted_only P h -> unpiloted_only P (try_except m h).
Proof.
  intros Hm Hh w H. destruct (Hm w H) as (E & U & N). unfold try_except.
  destruct (out (m w)) as [a|[]| | |] eqn:O; cbn [events world out];
    try (split; [assumption | split; [assumption | now rewrite O]]).
  destruct (Hh _ U) as (E' & U' & N'). split; [|split; assumption].
  now rewrite forallb_app, E, E'.
Qed.

Lemma uo_land :
  P (Call m_land) = true -> (forall s, P (Err s) = true) ->
  unpiloted_only P land.
Proof.
  intros H1 H2 w H.
  assert (Y : yields land w (Ret tt) w
                [Call m_land; Err ("Cannot land: not pilot" ++ nl)]).
  { unfold land, fmt_err.
    eapply yields_conv.
    - eapply yields_bind; [apply yields_emit|].
      eapply yields_bind; [apply yields_get_world|]. cbv beta.
      rewrite (differs_true _ _ H). apply yields_emit.
    - reflexivity.
    - reflexivity. }
  unfold yields in Y. rewrite Y. cbn [events world out forallb].
  rewrite H1, H2. split; [reflexivity | split; [exact H | discriminate]].
Qed.

Lemma uo_takeoff :
  P (Call m_takeoff) = true -> (forall s, P (Err s) = true) ->
  unpiloted_only P takeoff.
Proof.
  intros H1 H2 w H.
  assert (Y : yields takeoff w (Ret tt) w
                [Call m_takeoff; Err ("Cannot takeoff: not pilot" ++ nl)]).
  { unfold takeoff, fmt_err.
    eapply yields_conv.
    - eapply yields_bind; [apply yields_emit|].
      eapply yields_bind; [apply yields_get_world|]. cbv beta.
      rewrite (differs_true _ _ H). apply yields_emit.
    - reflexivity.
    - reflexivity. }
  unfold yields in Y. rewrite Y. cbn [events world out forallb].
  rewrite H1, H2. split; [reflexivity | split; [exact H | discriminate]].
Qed.

End Unpiloted.

Ltac uo_step :=
  first [ apply uo_ret | apply uo_emit; reflexivity
        | apply uo_driver; reflexivity
        | apply uo_next_flexion | apply uo_next_orientation
        | apply uo_land; [reflexivity | intros; reflexivity]
        | apply uo_takeoff; [reflexivity | intros; reflexivity]
        | apply uo_for_range; intros
        | apply uo_try_except
        | apply uo_bind; [|intros] ].

Lemma uo_left_hand_pass : unpiloted_only not_http left_hand_pass.
Proof.
  unfold left_hand_pass, fail_safe, left_hand_body, sample, print, sleep,
    Forte_SelectHapticWave, Forte_GetFingersNormalized, Forte_GetEulerAngles,
    Forte_SendHaptic, Forte_SilenceHaptics.
  apply uo_try_except.
  - apply uo_bind; [repeat uo_step|]. intros s.
    destruct (left_gesture s); repeat uo_step.
  - repeat uo_step.
Qed.

Lemma uo_right_hand_pass : unpiloted_only not_http right_hand_pass.
Proof.
  unfold right_hand_pass, fail_safe, right_hand_body, sample, print, sleep,
    Forte_SelectHapticWave, Forte_GetFingersNormalized, Forte_GetEulerAngles,
    Forte_SendHaptic, Forte_SilenceHaptics.
  apply uo_try_except.
  - apply uo_bind; [repeat uo_step|]. intros s.
    destruct (right_gesture s); repeat uo_step.
  - repeat uo_step.
Qed.

(** X11: with a session that does not hold PILOT access, no gesture and no
    disconnection ever gets a request sent to the vehicle: neither input
    loop emits any HTTP request, over any number of passes and whatever the
    gloves do, and neither is ever left waiting on the vehicle. *)
Theorem unpiloted_loops_send_nothing (n : nat) (w : World) :
  access_level (client w) <> Some "PILOT" ->
  forallb not_http (events (left_hand n w)) = true
  /\ forallb not_http (events (right_hand n w)) = true
  /\ out (left_hand n w) = OutOfFuel
  /\ out (right_hand n w) = OutOfFuel.
Proof.
  intros H.
  assert (L : forall n w, unpiloted w ->
                forallb not_http (events (left_hand n w)) = true
                /\ out (left_hand n w) = OutOfFuel).
  { clear. induction n as [|n IH]; intros w H; cbn [left_hand].
    - split; reflexivity.
    - destruct (uo_left_hand_pass w H) as (E & U & N).
      pose proof (hand_pass_ends _ left_hand_body_ends w) as K.
      fold left_hand_pass in K.
      rewrite events_bind, out_bind.
      destruct (out (left_hand_pass w)) as [[]| | | |] eqn:O;
        try discriminate.
      + destruct (IH _ U) as [E' O']. rewrite forallb_app, E, E'. now split.
      + now elim N. }
  assert (R : forall n w, unpiloted w ->
                forallb not_http (events (right_hand n w)) = true
                /\ out (right_hand n w) = OutOfFuel).
  { clear. induction n as [|n IH]; intros w H; cbn [right_hand].
    - split; reflexivity.
    - destruct (uo_right_hand_pass w H) as (E & U & N).
      pose proof (hand_pass_ends _ right_hand_body_ends w) as K.
      fold right_hand_pass in K.
      rewrite events_bind, out_bind.
      destruct (out (right_hand_pass w)) as [[]| | | |] eqn:O;
        try discriminate.
      + destruct (IH _ U) as [E' O']. rewrite forallb_app, E, E'. now split.
      + now elim N. }
  destruct (L n w H) as [L1 L2]. destruct (R n w H) as [R1 R2].
  repeat split; assumption.
Qed.

Lemma unpiloted_loops_witness :
  forallb not_http (events (left_hand 3 phone_gesture_world)) = true
  /\ forallb not_http (events (right_hand 3 phone_gesture_world)) = true.
Proof.
  pose proof (unpiloted_loops_send_nothing 3 phone_gesture_world
                ltac:(simpl; discriminate)) as H.
  split; [exact (proj1 H) | exact (proj1 (proj2 H))].
Defined.

(* ================================================================== *)
(** * More on the gestures *)

Ltac qfalse E :=
  match goal with
  | |- ?b = false => destruct b eqn:E; [exfalso | reflexivity]
  end.

(** X12: which conditions of the chain can hold together.  The thumbs-up of
    either hand excludes GO BULLS, HALT and LAND of that hand, by the yaw
    alone.  GO BULLS and HALT hold together only with the index flexion at
    0.243 exactly.  With flexions that are not negative, PEACE and GO BULLS
    hold together only with the index at 0 and the pinky at 0.243 exactly,
    and LAND holds together with none of the others. *)
Theorem gesture_overlaps (s : HandSnapshot) :
  (left_thumbs_up s = true ->
   go_bulls s = false /\ halt s = false /\ left_land s = false)
  /\ (right_thumbs_up s = true ->
      go_bulls s = false /\ halt s = false /\ right_land s = false)
  /\ (go_bulls s = true -> halt s = true -> index s == 0.243)
  /\ (flexions_nonneg s -> peace s = true -> go_bulls s = true ->
      index s == 0 /\ pinky s == 0.243)
  /\ (flexions_nonneg s -> left_land s = true \/ right_land s = true ->
      left_thumbs_up s = false /\ right_thumbs_up s = false
      /\ peace s = false /\ go_bulls s = false /\ halt s = false).
Proof.
  split; [|split; [|split; [|split]]].
  - intros T. unfold left_thumbs_up in T. qbool.
    repeat split.
    + qfalse E. unfold go_bulls in E. qbool. lra.
    + qfalse E. unfold halt in E. qbool. lra.
    + qfalse E. unfold left_land in E. qbool. lra.
  - intros T. unfold right_thumbs_up in T. qbool.
    repeat split.
    + qfalse E. unfold go_bulls in E. qbool. lra.
    + qfalse E. unfold halt in E. qbool. lra.
    + qfalse E. unfold right_land in E. qbool. lra.
  - intros G H. unfold go_bulls in G. unfold halt in H. qbool.
    apply Qle_antisym; assumption.
  - intros (N1 & N2 & N3 & N4 & N5) P G.
    unfold peace in P. unfold go_bulls in G. qbool.
    split; apply Qle_antisym; lra.
  - intros (N1 & N2 & N3 & N4 & N5) L.
    assert (F : thumb s <= 0.080972 /\ index s <= 0.080972
                /\ middle s <= 0.080972 /\ ring s <= 0.080972
                /\ pinky s <= 0.080972).
    { destruct L as [L|L]; [unfold left_land in L | unfold right_land in L];
        qbool; repeat split; assumption. }
    destruct F as (F1 & F2 & F3 & F4 & F5).
    repeat split.
    + qfalse E. unfold left_thumbs_up in E. qbool. lra.
    + qfalse E. unfold right_thumbs_up in E. qbool. lra.
    + qfalse E. unfold peace in E. qbool. lra.
    + qfalse E. unfold go_bulls in E. qbool. lra.
    + qfalse E. unfold halt in E. qbool. lra.
Qed.

Lemma gesture_overlaps_witness :
  index bulls_and_halt == 0.243.
Proof.
  apply (proj1 (proj2 (proj2 (gesture_overlaps bulls_and_halt))));
    vm_compute; reflexivity.
Defined.

(* ------------------------------------------------------------------ *)
(** ** Rounding of the flexions *)

Lemma Qmake_10000 (z : Z) : (z # 10000) * 10000 == inject_Z z.
Proof. unfold Qeq, Qmult, inject_Z. cbn. lia. Qed.

(** The integer that [round_half_even] returns is within a half of its
    argument. *)
Lemma round_half_even_near (y : Q) :
  inject_Z (round_half_even y) - (1 # 2) <= y
  /\ y <= inject_Z (round_half_even y) + (1 # 2).
Proof.
  unfold round_half_even.
  pose proof (Qfloor_le y) as L. pose proof (Qlt_floor y) as U.
  rewrite inject_Z_plus in U. change (inject_Z 1) with 1 in U.
  set (f := Qfloor y) in *.
  destruct (Qcompare_spec (y - inject_Z f) (1 # 2)) as [E|E|E].
  - destruct (Z.even f).
    + lra.
    + rewrite inject_Z_plus. change (inject_Z 1) with 1. lra.
  - lra.
  - rewrite inject_Z_plus. change (inject_Z 1) with 1. lra.
Qed.

Lemma inject_Z_le (a b : Z) : (a <= b)%Z -> inject_Z a <= inject_Z b.
Proof. intros H. rewrite <- Zle_Qle. exact H. Qed.

Lemma inject_Z_succ_le (a b : Z) : (a < b)%Z -> inject_Z a + 1 <= inject_Z b.
Proof.
  intros H. change 1 with (inject_Z 1). rewrite <- inject_Z_plus.
  apply inject_Z_le. lia.
Qed.

Lemma inject_Z_lt_inv (a b : Z) : inject_Z a < inject_Z b -> (a < b)%Z.
Proof. intros H. rewrite Zlt_Qlt. exact H. Qed.

Lemma inject_Z_lt_succ_inv (a b : Z) :
  inject_Z a < inject_Z b + 1 -> (a <= b)%Z.
Proof.
  intros H. change 1 with (inject_Z 1) in H. rewrite <- inject_Z_plus in H.
  apply inject_Z_lt_inv in H. lia.
Qed.

(** Below a half-integer with an odd floor, and only there, the result is at
    most that floor. *)
Lemma round_half_even_le_odd (y : Q) (k : Z) :
  Z.even k = false ->
  ((round_half_even y <= k)%Z <-> y < inject_Z k + (1 # 2)).
Proof.
  intros O. unfold round_half_even.
  pose proof (Qfloor_le y) as L. pose proof (Qlt_floor y) as U.
  rewrite inject_Z_plus in U. change (inject_Z 1) with 1 in U.
  set (f := Qfloor y) in *.
  destruct (Qcompare_spec (y - inject_Z f) (1 # 2)) as [E|E|E].
  - destruct (Z.even f) eqn:Ef.
    + split; intros H.
      * assert (f <> k) by (intros ->; congruence).
        assert (H' : (f < k)%Z) by lia.
        apply inject_Z_succ_le in H'. lra.
      * apply inject_Z_lt_succ_inv. lra.
    + split; intros H.
      * assert (H' : (f < k)%Z) by lia.
        apply inject_Z_succ_le in H'. lra.
      * assert (H' : (f < k)%Z) by (apply inject_Z_lt_inv; lra). lia.
  - split; intros H.
    + apply inject_Z_le in H. lra.
    + apply inject_Z_lt_succ_inv. lra.
  - split; intros H.
    + assert (H' : (f < k)%Z) by lia.
      apply inject_Z_succ_le in H'. lra.
    + assert (H' : (f < k)%Z) by (apply inject_Z_lt_inv; lra). lia.
Qed.

(** X13: [round(x, 4)] moves a flexion by at most 0.00005 and keeps a flexion
    of the range 0 to 1 in that range; and the bound 0.080972 of the LAND
    rule, which no multiple of 0.0001 meets, amounts on the flexion as read
    to being below 0.08095. *)
Theorem round4_flexion (x : Q) :
  (-(1 # 20000) <= round4 x - x <= 1 # 20000)
  /\ (0 <= x <= 1 -> 0 <= round4 x <= 1)
  /\ (round4 x <= 0.080972 <-> x < 0.08095).
Proof.
  unfold round4.
  pose proof (round_half_even_near (x * 10000)) as [N1 N2].
  pose proof (Qmake_10000 (round_half_even (x * 10000))) as M.
  set (z := round_half_even (x * 10000)) in *.
  split; [lra|]. split.
  - intros [H0 H1].
    assert (Z0 : (0 <= z)%Z).
    { assert (H : inject_Z (-1) < inject_Z z)
        by (change (inject_Z (-1)) with (-1); lra).
      apply inject_Z_lt_inv in H. lia. }
    assert (Z1 : (z <= 10000)%Z).
    { assert (H : inject_Z z < inject_Z 10001)
        by (change (inject_Z 10001) with 10001; lra).
      apply inject_Z_lt_inv in H. lia. }
    unfold Qle. cbn. lia.
  - pose proof (round_half_even_le_odd (x * 10000) 809 eq_refl) as R.
    fold z in R. change (inject_Z 809) with 809 in R.
    split.
    + intros H.
      assert (Hz : (z <= 809)%Z) by (unfold Qle in H; cbn in H; lia).
      apply R in Hz. lra.
    + intros H.
      assert (Hz : (z <= 809)%Z) by (apply R; lra).
      unfold Qle. cbn. lia.
Qed.

Lemma round4_flexion_witness : 0 <= round4 (1 # 3) <= 1.
Proof.
  apply (proj1 (proj2 (round4_flexion (1 # 3)))). split; lra.
Defined.

(* ================================================================== *)
(** * The passes of the input loops, gesture by gesture *)

Lemma sample_sampled (h : Hand) (w : World) :
  link_up h 8 w ->
  yields (sample h) w (Ret (next_snapshot h w)) (sampled h 8 w) (sample_events h).
Proof.
  unfold link_up, next_snapshot, sampled.
  destruct w as [cl au st fr [lL fL oL cL frL irL] [lR fR oR cR frR irR]].
  destruct h; cbn [glove leftHand rightHand link calls flexion orientation
                   flex_reads imu_reads set_glove client auth_reply statuses
                   fault_replies]; intros H;
    (eapply yields_conv;
     [ eapply yields_world;
       [ unfold sample, Forte_SelectHapticWave, Forte_GetFingersNormalized,
           Forte_GetEulerAngles, range; cbn [seq for_range];
         run_with ltac:(first [ apply (H 0%nat) | apply (H 1%nat)
                              | apply (H 2%nat) | apply (H 3%nat)
                              | apply (H 4%nat) | apply (H 5%nat)
                              | apply (H 6%nat) | apply (H 7%nat) ]; lia)
       | reflexivity ]
     | reflexivity | reflexivity ]).
Qed.

Lemma link_up_sampled (h : Hand) (n m : nat) (w : World) :
  link_up h (n + m) w -> link_up h m (sampled h n w).
Proof.
  unfold link_up, sampled. intros H k Hk.
  destruct h; cbn [glove set_glove leftHand rightHand link calls];
    rewrite Nat.add_assoc; apply H; lia.
Qed.

(** The tail of a branch, run on a glove whose link stays up. *)
Ltac run_branch U :=
  run_with ltac:(first [ apply (U 0%nat) | apply (U 1%nat) | apply (U 2%nat)
                       | apply (U 3%nat) | apply (U 4%nat) | apply (U 5%nat)
                       | apply (U 6%nat) ]; lia).

Lemma left_quiet_pass (w : World) :
  link_up LeftHand 11 w ->
  only_acknowledged (left_gesture (next_snapshot LeftHand w)) = true ->
  exists w',
    yields left_hand_pass w (Ret tt) w'
           (sample_events LeftHand
            ++ acknowledgment LeftHand (left_gesture (next_snapshot LeftHand w)))%list
    /\ statuses w' = statuses w /\ client w' = client w.
Proof.
  intros H G.
  pose proof (sample_sampled LeftHand w ltac:(intros k Hk; apply H; lia)) as Y.
  pose proof (link_up_sampled LeftHand 8 3 w H) as U.
  assert (S : statuses (sampled LeftHand 8 w) = statuses w) by reflexivity.
  assert (C : client (sampled LeftHand 8 w) = client w) by reflexivity.
  revert Y U S C. generalize (sampled LeftHand 8 w). intros w1 Y U S C.
  unfold link_up in U.
  destruct w1 as [cl au st fr [lL fL oL cL frL irL] gr].
  cbn [glove leftHand link calls statuses client] in U, S, C.
  unfold left_hand_pass, left_hand_body.
  destruct (left_gesture (next_snapshot LeftHand w)) eqn:E; try discriminate;
    (eexists; split;
     [ apply yields_try_except; eapply yields_conv;
       [ eapply yields_bind; [exact Y|]; cbv beta; rewrite E;
         unfold print, sleep, Forte_SendHaptic, Forte_SilenceHaptics;
         run_branch U
       | reflexivity | reflexivity ]
     | split; assumption ]).
Qed.

Lemma right_quiet_pass (w : World) :
  link_up RightHand 11 w ->
  only_acknowledged (right_gesture (next_snapshot RightHand w)) = true ->
  exists w',
    yields right_hand_pass w (Ret tt) w'
           (sample_events RightHand
            ++ acknowledgment RightHand
                 (right_gesture (next_snapshot RightHand w)))%list
    /\ statuses w' = statuses w /\ client w' = client w.
Proof.
  intros H G.
  pose proof (sample_sampled RightHand w ltac:(intros k Hk; apply H; lia)) as Y.
  pose proof (link_up_sampled RightHand 8 3 w H) as U.
  assert (S : statuses (sampled RightHand 8 w) = statuses w) by reflexivity.
  assert (C : client (sampled RightHand 8 w) = client w) by reflexivity.
  revert Y U S C. generalize (sampled RightHand 8 w). intros w1 Y U S C.
  unfold link_up in U.
  destruct w1 as [cl au st fr gl [lR fR oR cR frR irR]].
  cbn [glove rightHand link calls statuses client] in U, S, C.
  unfold right_hand_pass, right_hand_body.
  destruct (right_gesture (next_snapshot RightHand w)) eqn:E; try discriminate;
    (eexists; split;
     [ apply yields_try_except; eapply yields_conv;
       [ eapply yields_bind; [exact Y|]; cbv beta; rewrite E;
         unfold print, sleep, Forte_SendHaptic, Forte_SilenceHaptics;
         run_branch U
       | reflexivity | reflexivity ]
     | split; assumption ]).
Qed.

(** X14: in either input loop, a pass whose snapshot takes the PEACE, GO BULLS
    or HALT branch, the glove staying connected, only prints and pulses:
    it sends nothing to the vehicle, reads no status reply and leaves the
    session as it was.  A pass whose snapshot matches no gesture emits the
    eight driver calls of the sample and nothing more, so that the loop
    polls the glove again without a pause. *)
Theorem placeholder_gestures_only_buzz (w : World) :
  (link_up LeftHand 11 w ->
   only_acknowledged (left_gesture (next_snapshot LeftHand w)) = true ->
   out (left_hand_pass w) = Ret tt
   /\ events (left_hand_pass w)
      = (sample_events LeftHand
         ++ acknowledgment LeftHand (left_gesture (next_snapshot LeftHand w)))%list
   /\ statuses (world (left_hand_pass w)) = statuses w
   /\ client (world (left_hand_pass w)) = client w)
  /\ (link_up RightHand 11 w ->
      only_acknowledged (right_gesture (next_snapshot RightHand w)) = true ->
      out (right_hand_pass w) = Ret tt
      /\ events (right_hand_pass w)
         = (sample_events RightHand
            ++ acknowledgment RightHand
                 (right_gesture (next_snapshot RightHand w)))%list
      /\ statuses (world (right_hand_pass w)) = statuses w
      /\ client (world (right_hand_pass w)) = client w).
Proof.
  split; intros H G.
  - destruct (left_quiet_pass w H G) as (w' & Y & S & C).
    unfold yields in Y. rewrite Y. repeat split; assumption.
  - destruct (right_quiet_pass w H G) as (w' & Y & S & C).
    unfold yields in Y. rewrite Y. repeat split; assumption.
Qed.

Lemma placeholder_gestures_witness :
  out (left_hand_pass fist_and_palm_world) = Ret tt
  /\ events (left_hand_pass fist_and_palm_world)
     = (sample_events LeftHand ++ acknowledgment LeftHand HALT)%list.
Proof.
  pose proof (proj1 (placeholder_gestures_only_buzz fist_and_palm_world)
                ltac:(intros k Hk; reflexivity) eq_refl) as H.
  split; [exact (proj1 H) | exact (proj1 (proj2 H))].
Defined.

Lemma begins_land (w : World) : begins land w [Call m_land].
Proof. destruct (land_shape w) as (evs & E & _). exists evs. exact E. Qed.

Ltac begin_step U :=
  eapply begins_bind;
  [ run_branch U
  | cbv beta;
    cbn [set_glove glove link flexion orientation calls flex_reads
         imu_reads leftHand rightHand client auth_reply statuses
         fault_replies] ].

(** X15: in either input loop, a pass whose snapshot takes the LAND branch,
    the glove staying connected through the acknowledgment, pulses all six
    actuators, silences them, and then enters [client.land()]. *)
Theorem land_gesture_dispatch (w : World) :
  (link_up LeftHand 15 w ->
   left_gesture (next_snapshot LeftHand w) = LAND ->
   begins left_hand_pass w
          (sample_events LeftHand ++ land_acknowledgment LeftHand
           ++ [Call m_land])%list)
  /\ (link_up RightHand 15 w ->
      right_gesture (next_snapshot RightHand w) = LAND ->
      begins right_hand_pass w
             (sample_events RightHand ++ land_acknowledgment RightHand
              ++ [Call m_land])%list).
Proof.
  split; intros H G.
  - pose proof (sample_sampled LeftHand w ltac:(intros k Hk; apply H; lia)) as Y.
    pose proof (link_up_sampled LeftHand 8 7 w H) as U.
    revert Y U. generalize (sampled LeftHand 8 w). intros w1 Y U.
    unfold link_up in U.
    destruct w1 as [cl au st fr [lL fL oL cL frL irL] gr].
    cbn [glove leftHand link calls] in U.
    unfold left_hand_pass, left_hand_body. apply begins_try_except.
    eapply begins_eq.
    + eapply begins_bind; [exact Y|]. cbv beta. rewrite G.
      unfold print, sleep, Forte_SendHaptic, Forte_SilenceHaptics, range.
      cbn [seq for_range].
      do 5 begin_step U.
      apply begins_left, begins_land.
    + reflexivity.
  - pose proof (sample_sampled RightHand w ltac:(intros k Hk; apply H; lia)) as Y.
    pose proof (link_up_sampled RightHand 8 7 w H) as U.
    revert Y U. generalize (sampled RightHand 8 w). intros w1 Y U.
    unfold link_up in U.
    destruct w1 as [cl au st fr gl [lR fR oR cR frR irR]].
    cbn [glove rightHand link calls] in U.
    unfold right_hand_pass, right_hand_body. apply begins_try_except.
    eapply begins_eq.
    + eapply begins_bind; [exact Y|]. cbv beta. rewrite G.
      unfold print, sleep, Forte_SendHaptic, Forte_SilenceHaptics, range.
      cbn [seq for_range].
      do 5 begin_step U.
      apply begins_left, begins_land.
    + reflexivity.
Qed.

Lemma land_gesture_dispatch_witness :
  begins right_hand_pass fist_and_palm_world
         (sample_events RightHand ++ land_acknowledgment RightHand
          ++ [Call m_land])%list.
Proof.
  apply (proj2 (land_gesture_dispatch fist_and_palm_world)).
  - intros k Hk. reflexivity.
  - vm_compute. reflexivity.
Defined.

(* ================================================================== *)
(** * More on calibration *)

Lemma rw_ret {A} (a : A) : returns_with (ret a) [].
Proof. intros w b _. reflexivity. Qed.

Lemma rw_emit (e : Event) : returns_with (emit e) [e].
Proof. intros w b _. reflexivity. Qed.

Lemma rw_driver (h : Hand) (c : GloveCall) : returns_with (driver h c) [Glove h c].
Proof.
  intros w b. unfold driver.
  destruct (link (glove h w) (calls (glove h w))); [reflexivity | discriminate].
Qed.

Lemma rw_next_orientation (h : Hand) : returns_with (next_orientation h) [].
Proof. intros w b _. reflexivity. Qed.

Lemma rw_bind {A B} (m : M A) (k : A -> M B) (e1 e2 : list Event) :
  returns_with m e1 -> (forall a, returns_with (k a) e2) ->
  returns_with (bind m k) (e1 ++ e2)%list.
Proof.
  intros Hm Hk w b. rewrite out_bind, events_bind.
  destruct (out (m w)) as [a| | | |] eqn:E; try discriminate.
  intros H. now rewrite (Hm w a E), (Hk a _ b H).
Qed.

Lemma rw_conv {A} (m : M A) (e e' : list Event) :
  returns_with m e' -> e' = e -> returns_with m e.
Proof. intros H <-. exact H. Qed.

Ltac rw_run :=
  lazymatch goal with
  | |- returns_with (bind _ _) _ =>
      eapply rw_bind; [rw_run | intros; rw_run]
  | |- returns_with (emit _) _ => apply rw_emit
  | |- returns_with (ret _) _ => apply rw_ret
  | |- returns_with (driver _ _) _ => apply rw_driver
  | |- returns_with (next_orientation _) _ => apply rw_next_orientation
  | |- _ => idtac
  end.

Lemma read_both_returns : returns_with read_both read_events.
Proof.
  unfold read_both, silence_both, print, sleep, Forte_SendHaptic,
    Forte_SilenceHaptics, Forte_GetEulerAngles.
  eapply rw_conv; [rw_run | reflexivity].
Qed.

Lemma commit_returns : returns_with commit commit_events.
Proof.
  unfold commit, pulse_all, silence_both, print, sleep,
    Forte_SelectHapticWave, Forte_SendHaptic, Forte_SilenceHaptics,
    Forte_CalibrateFlat, Forte_HomeIMU, range.
  cbn [seq for_range].
  eapply rw_conv; [rw_run | reflexivity].
Qed.

(** A pass that returns from its measurement has either left the two flags
    alone or set both after the whole commit. *)
Lemma measure_returns (st st' : CalState) (w : World) :
  out (measure st w) = Ret st' ->
  (neutralL st' = neutralL st /\ neutralR st' = neutralR st)
  \/ (neutralL st' = 1%nat /\ neutralR st' = 1%nat
      /\ events (measure st w) = (read_events ++ commit_events)%list).
Proof.
  unfold measure. rewrite out_bind, events_bind.
  destruct (out (read_both w)) as [[l r]| | | |] eqn:R; try discriminate.
  rewrite (read_both_returns w _ R). cbn [fst snd].
  destruct (within10 st l r).
  - rewrite out_bind, events_bind, out_bind, events_bind.
    destruct (out (commit (world (read_both w)))) as [[]| | | |] eqn:C;
      try discriminate.
    rewrite (commit_returns _ _ C). cbn [ret out world events].
    intros H. injection H as <-. right.
    repeat split; now rewrite ?app_nil_r.
  - rewrite out_bind. cbn [ret out world events].
    intros H. injection H as <-. left. split; reflexivity.
Qed.

Lemma try_disconnected_cases {A} (m : M A) (kept : A) (w : World) (a : A) :
  out (try_disconnected m kept w) = Ret a ->
  (out (m w) = Ret a /\ events (try_disconnected m kept w) = events (m w))
  \/ a = kept.
Proof.
  unfold try_disconnected.
  destruct (out (m w)) as [b|[]| | |] eqn:E; cbn [out events]; intros H.
  - left. split; [now rewrite E in H | reflexivity].
  - right. now injection H.
  - rewrite E in H. discriminate.
  - rewrite E in H. discriminate.
  - rewrite E in H. discriminate.
Qed.

Lemma calibrate_pass_returns (st st' : CalState) (w : World) :
  out (calibrate_pass st w) = Ret st' ->
  (neutralL st' = neutralL st /\ neutralR st' = neutralR st)
  \/ (neutralL st' = 1%nat /\ neutralR st' = 1%nat
      /\ exists pre,
          events (calibrate_pass st w)
          = (pre ++ read_events ++ commit_events)%list).
Proof.
  unfold calibrate_pass. destruct (Nat.eqb (initial st) 0).
  - rewrite out_bind, events_bind.
    set (first := try_disconnected (announce ;; ret true) false w).
    destruct (out first) as [[|]| | | |] eqn:F; try discriminate.
    + intros H.
      destruct (try_disconnected_cases _ _ _ _ H) as [[H1 H2]| ->].
      * destruct (measure_returns _ _ _ H1) as [N|(N1 & N2 & E)].
        -- left. exact N.
        -- right. repeat split; try assumption.
           exists (events first). now rewrite H2, E.
      * left. split; reflexivity.
    + cbn [ret out]. intros H. injection H as <-. left. split; reflexivity.
  - intros H.
    destruct (try_disconnected_cases _ _ _ _ H) as [[H1 H2]| ->].
    + destruct (measure_returns _ _ _ H1) as [N|(N1 & N2 & E)].
      * left. exact N.
      * right. repeat split; try assumption.
        exists []. now rewrite H2, E.
    + left. split; reflexivity.
Qed.

Lemma calibrate_loop_returns (fuel : nat) :
  forall (st : CalState) (w : World),
    neutralL st = 0%nat -> neutralR st = 0%nat ->
    out (calibrate_loop fuel st w) = Ret tt ->
    exists pre,
      events (calibrate_loop fuel st w)
      = (pre ++ read_events ++ commit_events)%list.
Proof.
  induction fuel as [|fuel IH]; intros st w NL NR; cbn [calibrate_loop];
    rewrite NL, NR; cbn [Nat.eqb andb]; [discriminate|].
  rewrite out_bind, events_bind.
  destruct (out (calibrate_pass st w)) as [st'| | | |] eqn:P; try discriminate.
  intros H.
  destruct (calibrate_pass_returns _ _ _ P) as [[N1 N2]|(N1 & N2 & pre & E)].
  - destruct (IH st' _ ltac:(congruence) ltac:(congruence) H) as (pre & E).
    exists (events (calibrate_pass st w) ++ pre)%list.
    now rewrite E, app_assoc.
  - rewrite (calibrate_loop_done _ _ N1). cbn [ret events].
    exists pre. now rewrite app_nil_r.
Qed.

(** X16: however the links of the two gloves behave, [calibrate] returns only
    from a pass that took a full sample of both hands and then made the
    whole commit: the last thing it emits is the sampling of that pass
    followed by flat-calibrate and IMU-home on both gloves and the
    confirmation.  A pass cut short by a disconnection sets neither flag. *)
Theorem calibrate_returns_after_commit (fuel : nat) (w : World) :
  out (calibrate fuel w) = Ret tt ->
  exists pre,
    events (calibrate fuel w) = (pre ++ read_events ++ commit_events)%list.
Proof. apply calibrate_loop_returns; reflexivity. Qed.

Lemma calibrate_returns_after_commit_witness :
  exists pre,
    events (calibrate 4 flaky_world) = (pre ++ read_events ++ commit_events)%list.
Proof.
  apply (calibrate_returns_after_commit 4 flaky_world).
  vm_compute. reflexivity.
Defined.

(* ------------------------------------------------------------------ *)

Lemma eo_try_disconnected (P : Event -> bool) {A} (m : M A) (kept : A) :
  (forall s, P (Out s) = true) -> (forall q, P (Sleep q) = true) ->
  emits_only P m -> emits_only P (try_disconnected m kept).
Proof.
  intros H1 H2 Hm w. specialize (Hm w). unfold try_disconnected.
  destruct (out (m w)) as [a|[]| | |]; cbn [events]; try exact Hm.
  rewrite forallb_app, Hm. cbn. now rewrite H1, H2.
Qed.

Lemma measure_off_vehicle (st : CalState) : emits_only off_vehicle (measure st).
Proof.
  unfold measure, read_both, commit, pulse_all, silence_both, print, sleep,
    Forte_SelectHapticWave, Forte_SendHaptic, Forte_SilenceHaptics,
    Forte_CalibrateFlat, Forte_HomeIMU, Forte_GetEulerAngles.
  apply eo_bind; [repeat eo_step|]. intros imus.
  apply eo_bind; [|intros; eo_step].
  destruct (within10 _ _ _); repeat eo_step.
Qed.

Lemma measure_ends (st : CalState) : ends_in ret_or_raise (measure st).
Proof.
  unfold measure, read_both, commit, pulse_all, silence_both, print, sleep,
    Forte_SelectHapticWave, Forte_SendHaptic, Forte_SilenceHaptics,
    Forte_CalibrateFlat, Forte_HomeIMU, Forte_GetEulerAngles.
  apply ei_bind; [repeat ei_step|]. intros imus.
  apply ei_bind; [|intros; ei_step].
  destruct (within10 _ _ _); repeat ei_step.
Qed.

Lemma announce_off_vehicle : emits_only off_vehicle (announce ;; ret true).
Proof.
  unfold announce, pulse_all, silence_both, print, sleep,
    Forte_SelectHapticWave, Forte_SendHaptic, Forte_SilenceHaptics.
  repeat eo_step.
Qed.

Lemma announce_ends : ends_in ret_or_raise (announce ;; ret true).
Proof.
  unfold announce, pulse_all, silence_both, print, sleep,
    Forte_SelectHapticWave, Forte_SendHaptic, Forte_SilenceHaptics.
  repeat ei_step.
Qed.

Lemma calibrate_pass_off_vehicle (st : CalState) :
  emits_only off_vehicle (calibrate_pass st).
Proof.
  unfold calibrate_pass. destruct (Nat.eqb (initial st) 0).
  - apply eo_bind.
    + apply eo_try_disconnected; try reflexivity. apply announce_off_vehicle.
    + intros [|]; [|eo_step].
      apply eo_try_disconnected; try reflexivity. apply measure_off_vehicle.
  - apply eo_try_disconnected; try reflexivity. apply measure_off_vehicle.
Qed.

Lemma calibrate_pass_ends (st : CalState) : ends_in only_ret (calibrate_pass st).
Proof.
  unfold calibrate_pass. destruct (Nat.eqb (initial st) 0).
  - apply ei_bind.
    + apply (ei_try_disconnected ret_or_raise); [apply announce_ends | auto].
    + intros [|]; [|ei_step].
      apply (ei_try_disconnected ret_or_raise); [apply measure_ends | auto].
  - apply (ei_try_disconnected ret_or_raise); [apply measure_ends | auto].
Qed.

(** X17: [calibrate] is a matter between the program and the gloves.  However
    the links behave, a disconnection never gets out of it and it never ends
    the process: every pass runs to its end, and [calibrate] either returns
    or is still sampling when the observation stops.  It sends nothing to
    the vehicle and calls neither [takeoff] nor [land]. *)
Theorem calibrate_is_local (fuel : nat) (w : World) :
  ret_or_fuel (kind_of (out (calibrate fuel w))) = true
  /\ forallb off_vehicle (events (calibrate fuel w)) = true
  /\ forall st, exists st', out (calibrate_pass st w) = Ret st'.
Proof.
  split; [|split].
  - unfold calibrate. generalize (mkCalState 0 0 0 0 0 0 0 0 0). revert w.
    induction fuel as [|fuel IH]; intros w st; cbn [calibrate_loop];
      destruct (Nat.eqb (neutralL st) 0 && Nat.eqb (neutralR st) 0);
      try reflexivity.
    rewrite out_bind. pose proof (calibrate_pass_ends st w) as K.
    destruct (out (calibrate_pass st w)); try discriminate. apply IH.
  - unfold calibrate. generalize (mkCalState 0 0 0 0 0 0 0 0 0). revert w.
    induction fuel as [|fuel IH]; intros w st; cbn [calibrate_loop];
      destruct (Nat.eqb (neutralL st) 0 && Nat.eqb (neutralR st) 0);
      try reflexivity.
    rewrite events_bind. pose proof (calibrate_pass_off_vehicle st w) as E.
    destruct (out (calibrate_pass st w)); try exact E.
    now rewrite forallb_app, E, IH.
  - intros st. pose proof (calibrate_pass_ends st w) as K.
    destruct (out (calibrate_pass st w)) as [st'| | | |]; try discriminate.
    now exists st'.
Qed.

(* ------------------------------------------------------------------ *)

Lemma never_steady_ext (s s' : nat -> Euler * Euler) :
  (forall j, s j = s' j) ->
  forall n prev, never_steady prev s n -> never_steady prev s' n.
Proof.
  intros E n. revert s s' E.
  induction n as [|n IH]; intros s s' E prev; cbn [never_steady]; [auto|].
  rewrite E. intros [H1 H2]. split; [exact H1|].
  apply (IH (fun j => s (S j))); [intros j; apply E | exact H2].
Qed.

Lemma never_steady_intro (s : nat -> Euler * Euler) (n : nat) :
  (forall j, (j < n)%nat -> ~ steady (s j) (s (S j))) ->
  never_steady (s 0%nat) (fun j => s (S j)) n.
Proof.
  revert s. induction n as [|n IH]; intros s H; cbn [never_steady]; [exact I|].
  split; [apply H; lia|].
  apply (IH (fun j => s (S j))). intros j Hj. apply H. lia.
Qed.

Lemma calibrate_loop_moving (n : nat) :
  forall (w : World) (st : CalState),
    connected w ->
    initial st = 1%nat -> neutralL st = 0%nat -> neutralR st = 0%nat ->
    never_steady (previous_sample st) (sample_at w) n ->
    exists w',
      yields (calibrate_loop n st) w OutOfFuel w'
             (List.concat (repeat read_events n)).
Proof.
  induction n as [|n IH]; intros w st C I NL NR H;
    cbn [calibrate_loop never_steady] in *;
    rewrite NL, NR; cbn [Nat.eqb andb].
  - exists w. apply yields_stop.
  - unfold calibrate_pass. rewrite I. cbn [Nat.eqb].
    destruct H as [H1 H2].
    destruct (IH (tick 3 3 1 1 w)
                 (remember (fst (sample_at w 0)) (snd (sample_at w 0)) st))
      as (w' & Y).
    + apply connected_tick, C.
    + exact I.
    + exact NL.
    + exact NR.
    + rewrite previous_sample_remember, <- surjective_pairing.
      apply (never_steady_ext (fun j => sample_at w (S j))); [|exact H2].
      intros j. rewrite sample_at_tick. f_equal. lia.
    + exists w'. eapply yields_conv.
      * eapply yields_bind;
          [apply yields_try_disconnected, measure_moving; assumption | exact Y].
      * reflexivity.
      * reflexivity.
Qed.

(** X18: [calibrate] has no bound on its wait either.  While both gloves stay
    connected and the hands keep moving, by more than 10 degrees on some
    axis from each sample to the next, every pass samples and none commits:
    after [n + 1] passes it has emitted the announcement and [n + 1]
    samplings and is still in its loop. *)
Theorem calibrate_waits_while_moving (w : World) (n : nat) :
  connected w ->
  valid_euler (fst (sample_at w 0)) ->
  (forall j, (j < n)%nat -> ~ steady (sample_at w j) (sample_at w (S j))) ->
  out (calibrate (S n) w) = OutOfFuel
  /\ events (calibrate (S n) w)
     = (announce_events ++ List.concat (repeat read_events (S n)))%list.
Proof.
  intros C V H.
  set (st0 := mkCalState 0 0 0 0 0 0 0 0 0).
  set (st1 := set_initial 1 (set_previous 1000 1000 1000 1000 1000 1000 st0)).
  set (w1 := tick 13 13 0 0 w).
  assert (C1 : connected w1) by apply connected_tick, C.
  assert (S1 : forall j, sample_at w1 j = sample_at w j).
  { intros j. unfold w1. rewrite sample_at_tick. f_equal. lia. }
  assert (N1 : ~ steady (previous_sample st1) (sample_at w1 0)).
  { rewrite S1, (surjective_pairing (sample_at w 0)).
    apply first_sample_not_steady, V. }
  destruct (calibrate_loop_moving n (tick 3 3 1 1 w1)
              (remember (fst (sample_at w1 0)) (snd (sample_at w1 0)) st1))
    as (w' & Y).
  - apply connected_tick, C1.
  - reflexivity.
  - reflexivity.
  - reflexivity.
  - rewrite previous_sample_remember, <- surjective_pairing, S1.
    apply (never_steady_ext (fun j => sample_at w (S j))).
    + intros j. rewrite sample_at_tick, S1. f_equal. lia.
    + apply (never_steady_intro (sample_at w)); assumption.
  - assert (R : yields (calibrate (S n)) w OutOfFuel w'
                  (announce_events ++ List.concat (repeat read_events (S n)))%list).
    { unfold calibrate. fold st0. cbn [calibrate_loop].
      change (Nat.eqb (neutralL st0) 0 && Nat.eqb (neutralR st0) 0) with true.
      cbv iota. unfold calibrate_pass.
      change (Nat.eqb (initial st0) 0) with true. cbv iota.
      fold st1.
      eapply yields_conv.
      - eapply yields_bind.
        + eapply yields_bind.
          * apply yields_try_disconnected.
            eapply yields_bind; [apply announce_yields, C | apply yields_ret].
          * cbv beta iota. fold w1.
            apply yields_try_disconnected, measure_moving; assumption.
        + exact Y.
      - reflexivity.
      - cbn [repeat List.concat]. now rewrite !app_nil_r, <- !app_assoc. }
    unfold yields in R. rewrite R. split; reflexivity.
Qed.

Lemma calibrate_waits_witness :
  out (calibrate 3 turning_world) = OutOfFuel.
Proof.
  apply (calibrate_waits_while_moving turning_world 2).
  - split; intros k; reflexivity.
  - vm_compute. repeat split; discriminate.
  - intros j Hj.
    assert (J : j = 0%nat \/ j = 1%nat) by lia.
    destruct J as [-> | ->]; vm_compute; intros [[[_ H] _] _];
      apply H; reflexivity.
Defined.

(* ================================================================== *)
(** * Vehicle code and glove code *)

Lemma world_bind {A B} (m : M A) (k : A -> M B) (w : World) :
  world (bind m k w)
  = match out (m w) with
    | Ret a => world (k a (world (m w)))
    | _ => world (m w)
    end.
Proof. unfold bind. destruct (out (m w)); reflexivity. Qed.

Lemma same_gloves_refl (w : World) : same_gloves w w.
Proof. split; reflexivity. Qed.

Lemma same_gloves_sym (w1 w2 : World) : same_gloves w1 w2 -> same_gloves w2 w1.
Proof. intros [L R]. split; congruence. Qed.

Lemma same_gloves_trans (w1 w2 w3 : World) :
  same_gloves w1 w2 -> same_gloves w2 w3 -> same_gloves w1 w3.
Proof. intros [L R] [L' R']. split; congruence. Qed.

Lemma glove_trace_app (l1 l2 : list Event) :
  glove_trace (l1 ++ l2) = (glove_trace l1 ++ glove_trace l2)%list.
Proof. apply filter_app. Qed.

Lemma quiet_ret {A} (a : A) : quiet (ret a).
Proof. intros w. repeat split. Qed.

Lemma quiet_stop {A} (o : Outcome A) : is_raise o = false -> quiet (stop o).
Proof. intros H w. repeat split. exact H. Qed.

Lemma quiet_emit (e : Event) : is_glove_event e = false -> quiet (emit e).
Proof.
  intros H w. repeat split. unfold glove_trace. cbn. now rewrite H.
Qed.

Lemma quiet_get_world : quiet get_world.
Proof. intros w. repeat split. Qed.

Lemma quiet_bind {A B} (m : M A) (k : A -> M B) :
  quiet m -> (forall a, quiet (k a)) -> quiet (bind m k).
Proof.
  intros Hm Hk w. destruct (Hm w) as (E & G & R).
  rewrite events_bind, out_bind, world_bind.
  destruct (out (m w)) as [a| | | |];
    try (split; [exact E | split; [exact G | exact R]]).
  destruct (Hk a (world (m w))) as (E' & G' & R').
  rewrite glove_trace_app, E, E'.
  split; [reflexivity|]. split; [|exact R'].
  exact (same_gloves_trans _ _ _ G G').
Qed.

Lemma quiet_update_pilot_status : quiet update_pilot_status.
Proof.
  intros w. destruct (statuses w) as [|r rest] eqn:E.
  - pose proof (update_pilot_status_starved w E) as Y.
    unfold yields in Y. rewrite Y. repeat split.
  - pose proof (update_pilot_status_yields w r rest E) as Y.
    unfold yields in Y. rewrite Y. repeat split.
Qed.

Lemma quiet_get_blocking_faults : quiet get_blocking_faults.
Proof.
  intros w. destruct (fault_replies w) as [|f rest] eqn:E.
  - pose proof (get_blocking_faults_starved w E) as Y.
    unfold yields in Y. rewrite Y. repeat split.
  - pose proof (get_blocking_faults_yields w f rest E) as Y.
    unfold yields in Y. rewrite Y. repeat split.
Qed.

Ltac quiet_step :=
  first [ apply quiet_ret | apply quiet_stop; reflexivity
        | apply quiet_emit; reflexivity | apply quiet_get_world
        | apply quiet_update_pilot_status | apply quiet_get_blocking_faults
        | apply quiet_bind; [|intros] ].

Lemma quiet_land_loop (fuel : nat) : forall phase, quiet (land_loop fuel phase).
Proof.
  induction fuel as [|fuel IH]; intros phase; cbn [land_loop].
  - quiet_step.
  - destruct (phase =? "FLYING")%string; [|quiet_step].
    unfold fmt_out, sleep.
    do 4 (apply quiet_bind; [quiet_step|]; intros ?).
    destruct (negb (truthy _)); apply IH.
Qed.

Lemma quiet_takeoff_loop (fuel : nat) : quiet (takeoff_loop fuel).
Proof.
  induction fuel as [|fuel IH]; cbn [takeoff_loop].
  - quiet_step.
  - unfold fmt_out, sleep.
    do 2 (apply quiet_bind; [quiet_step|]; intros ?).
    destruct (negb (truthy _)); [exact IH|].
    repeat match goal with
           | |- quiet (if ?b then _ else _) => destruct b
           end;
      repeat first [ exact IH | quiet_step ].
Qed.

Lemma quiet_land : quiet land.
Proof.
  unfold land, fmt_err.
  do 2 (apply quiet_bind; [quiet_step|]; intros ?).
  destruct (differs _ _); [quiet_step | apply quiet_land_loop].
Qed.

Lemma quiet_takeoff : quiet takeoff.
Proof.
  unfold takeoff, fmt_err.
  do 2 (apply quiet_bind; [quiet_step|]; intros ?).
  destruct (differs _ _); [quiet_step|].
  apply quiet_bind; [quiet_step|]. intros _.
  apply quiet_bind;
    [unfold disable_faults; cbn [fold_right snd]; repeat quiet_step|].
  intros _. apply quiet_bind; [quiet_step|]. intros w'.
  apply quiet_takeoff_loop.
Qed.



(* ================================================================== *)
(** * The test scripts against the flight program *)

Lemma mirrors_ret {A} (a : A) : mirrors (ret a) (ret a).
Proof. intros w1 w2 G. repeat split; apply G. Qed.

Lemma mirrors_stop {A} (o : Outcome A) : mirrors (stop o) (stop o).
Proof. intros w1 w2 G. repeat split; apply G. Qed.

Lemma mirrors_emit (e1 e2 : Event) :
  is_glove_event e1 = false -> is_glove_event e2 = false ->
  mirrors (emit e1) (emit e2).
Proof.
  intros H1 H2 w1 w2 G. unfold glove_trace. cbn. rewrite H1, H2.
  repeat split; apply G.
Qed.

Lemma mirrors_driver (h : Hand) (c1 c2 : GloveCall) :
  retune_call c1 = c2 -> mirrors (driver h c1) (driver h c2).
Proof.
  intros <- w1 w2 [L R]. unfold driver.
  destruct h; cbn [glove]; rewrite ?L, ?R;
    match goal with
    | |- context [if ?b then _ else _] => destruct b
    end;
    cbn [out world events set_glove leftHand rightHand glove_trace filter
         is_glove_event map retune];
    repeat split; try assumption; try reflexivity.
Qed.

Lemma mirrors_next_flexion (h : Hand) : mirrors (next_flexion h) (next_flexion h).
Proof.
  intros w1 w2 [L R]. unfold next_flexion.
  destruct h; cbn [glove out world events set_glove leftHand rightHand
                   glove_trace filter map];
    rewrite ?L, ?R; repeat split; try assumption; try reflexivity.
Qed.

Lemma mirrors_next_orientation (h : Hand) :
  mirrors (next_orientation h) (next_orientation h).
Proof.
  intros w1 w2 [L R]. unfold next_orientation.
  destruct h; cbn [glove out world events set_glove leftHand rightHand
                   glove_trace filter map];
    rewrite ?L, ?R; repeat split; try assumption; try reflexivity.
Qed.

Lemma mirrors_bind {A B} (m1 m2 : M A) (k1 k2 : A -> M B) :
  mirrors m1 m2 -> (forall a, mirrors (k1 a) (k2 a)) ->
  mirrors (bind m1 k1) (bind m2 k2).
Proof.
  intros Hm Hk w1 w2 G. destruct (Hm w1 w2 G) as (O & E & G').
  rewrite !events_bind, !out_bind, !world_bind. rewrite <- O.
  destruct (out (m1 w1)) as [a| | | |];
    try (split; [reflexivity|]; split; [exact E | exact G']).
  destruct (Hk a _ _ G') as (O' & E' & G'').
  rewrite !glove_trace_app, map_app, E, E'.
  split; [exact O'|]. split; [reflexivity | exact G''].
Qed.

Lemma mirrors_for_range (l : list nat) (b1 b2 : nat -> M unit) :
  (forall i, mirrors (b1 i) (b2 i)) -> mirrors (for_range l b1) (for_range l b2).
Proof.
  intros H. induction l as [|i l IH]; cbn [for_range].
  - apply mirrors_ret.
  - apply mirrors_bind; [apply H | intros _; exact IH].
Qed.

Lemma mirrors_try_disconnected {A} (m1 m2 : M A) (kept : A) :
  mirrors m1 m2 ->
  mirrors (try_disconnected m1 kept) (try_disconnected m2 kept).
Proof.
  intros Hm w1 w2 G. destruct (Hm w1 w2 G) as (O & E & G').
  unfold try_disconnected. cbv zeta. rewrite <- O.
  destruct (out (m1 w1)) as [a|[]| | |] eqn:O1; cbn [out world events].
  2: { rewrite !glove_trace_app, map_app, E.
       split; [reflexivity|]. split; [|exact G'].
       unfold glove_trace. cbn. now rewrite !app_nil_r. }
  all: rewrite <- O, O1; split; [reflexivity|]; split; [exact E | exact G'].
Qed.

Ltac mirror_step :=
  first [ apply mirrors_ret | apply mirrors_stop
        | apply mirrors_emit; reflexivity
        | apply mirrors_driver; reflexivity
        | apply mirrors_next_flexion | apply mirrors_next_orientation
        | apply mirrors_for_range; intros
        | apply mirrors_try_disconnected
        | apply mirrors_bind; [|intros] ].

Lemma shadows_of_mirrors {A} (m1 m2 : M A) : mirrors m1 m2 -> shadows m1 m2.
Proof.
  intros H w1 w2 G. destruct (H w1 w2 G) as (O & E & G').
  rewrite O. split; [reflexivity|]. split; [exact E | exact G'].
Qed.

Lemma shadows_quiet {A B} (m1 : M A) (m2 : M B) :
  quiet m1 -> quiet m2 -> shadows m1 m2.
Proof.
  intros H1 H2 w1 w2 G.
  destruct (H1 w1) as (E1 & G1 & R1). destruct (H2 w2) as (E2 & G2 & R2).
  rewrite E1, E2, R1, R2. split; [reflexivity|]. split; [reflexivity|].
  exact (same_gloves_trans _ _ _
           (same_gloves_trans _ _ _ (same_gloves_sym _ _ G1) G) G2).
Qed.

Lemma shadows_bind {A B C} (m1 m2 : M A) (k1 : A -> M B) (k2 : A -> M C) :
  mirrors m1 m2 -> (forall a, shadows (k1 a) (k2 a)) ->
  shadows (bind m1 k1) (bind m2 k2).
Proof.
  intros Hm Hk w1 w2 G. destruct (Hm w1 w2 G) as (O & E & G').
  rewrite !events_bind, !out_bind, !world_bind. rewrite <- O.
  destruct (out (m1 w1)) as [a| | | |];
    try (split; [reflexivity|]; split; [exact E | exact G']).
  destruct (Hk a _ _ G') as (O' & E' & G'').
  rewrite !glove_trace_app, map_app, E, E'.
  split; [exact O'|]. split; [reflexivity | exact G''].
Qed.

Lemma shadows_try_except (b1 b2 h1 h2 : M unit) :
  shadows b1 b2 -> quiet h1 -> quiet h2 ->
  shadows (try_except b1 h1) (try_except b2 h2).
Proof.
  intros Hb H1 H2 w1 w2 G. destruct (Hb w1 w2 G) as (O & E & G').
  unfold try_except. cbv zeta.
  destruct (out (b1 w1)) as [a1|[]| | |] eqn:O1,
           (out (b2 w2)) as [a2|[]| | |] eqn:O2;
    try discriminate; cbn [out world events]; rewrite ?O1, ?O2;
    try (split; [reflexivity|]; split; [exact E | exact G']).
  destruct (shadows_quiet h1 h2 H1 H2 _ _ G') as (O' & E' & G'').
  rewrite !glove_trace_app, map_app, E, E'.
  split; [exact O'|]. split; [reflexivity | exact G''].
Qed.

Lemma mirrors_sample (h : Hand) : mirrors (sample h) (sample h).
Proof.
  unfold sample, Forte_SelectHapticWave, Forte_GetFingersNormalized,
    Forte_GetEulerAngles.
  repeat mirror_step.
Qed.

(** A branch of a gesture chain: the same driver calls in step, then tails
    that make none. *)
Ltac shadow_branch :=
  unfold print, sleep, Forte_SendHaptic, Forte_SilenceHaptics;
  repeat first
    [ apply shadows_quiet;
      [ solve [repeat first [apply quiet_land | apply quiet_takeoff | quiet_step]]
      | solve [repeat first [apply quiet_land | apply quiet_takeoff | quiet_step]] ]
    | apply shadows_bind; [solve [repeat mirror_step] | intros] ].

Lemma shadows_left_hand_pass : shadows GloveTest.left_hand_pass left_hand_pass.
Proof.
  unfold GloveTest.left_hand_pass, left_hand_pass.
  apply shadows_try_except.
  - unfold GloveTest.left_hand_body, left_hand_body.
    apply shadows_bind; [apply mirrors_sample|]. intros s.
    destruct (left_gesture s); shadow_branch.
  - unfold GloveTest.disconnected, print, sleep. repeat quiet_step.
  - unfold fail_safe, print, sleep.
    repeat first [apply quiet_land | quiet_step].
Qed.

Lemma shadows_right_hand_pass : shadows GloveTest.right_hand_pass right_hand_pass.
Proof.
  unfold GloveTest.right_hand_pass, right_hand_pass.
  apply shadows_try_except.
  - unfold GloveTest.right_hand_body, right_hand_body.
    apply shadows_bind; [apply mirrors_sample|]. intros s.
    destruct (right_gesture s); shadow_branch.
  - unfold GloveTest.disconnected, print, sleep. repeat quiet_step.
  - unfold fail_safe, print, sleep.
    repeat first [apply quiet_land | quiet_step].
Qed.

Lemma sample_returns_or_raises (h : Hand) : ends_in ret_or_raise (sample h).
Proof.
  unfold sample, Forte_SelectHapticWave, Forte_GetFingersNormalized,
    Forte_GetEulerAngles.
  repeat ei_step.
Qed.

Lemma test_pass_returns (body : M unit) :
  ends_in ret_or_raise body ->
  forall w, out (try_except body GloveTest.disconnected w) = Ret tt.
Proof.
  intros H w.
  assert (K : ends_in only_ret (try_except body GloveTest.disconnected)).
  { apply (ei_try_except ret_or_raise); [exact H | |].
    - unfold GloveTest.disconnected, print, sleep. repeat ei_step.
    - intros [] H1 H2; try reflexivity; try discriminate. now elim H2. }
  specialize (K w).
  destruct (out (try_except body GloveTest.disconnected w)) as [[]| | | |];
    try discriminate. reflexivity.
Qed.

Lemma test_left_hand_body_ends : ends_in ret_or_raise GloveTest.left_hand_body.
Proof.
  unfold GloveTest.left_hand_body.
  apply ei_bind; [apply sample_returns_or_raises|]. intros s.
  unfold print, sleep, Forte_SendHaptic, Forte_SilenceHaptics.
  destruct (left_gesture s); repeat ei_step.
Qed.

Lemma test_right_hand_body_ends : ends_in ret_or_raise GloveTest.right_hand_body.
Proof.
  unfold GloveTest.right_hand_body.
  apply ei_bind; [apply sample_returns_or_raises|]. intros s.
  unfold print, sleep, Forte_SendHaptic, Forte_SilenceHaptics.
  destruct (right_gesture s); repeat ei_step.
Qed.

Lemma left_loops_initial_part (n : nat) :
  forall w1 w2, same_gloves w1 w2 ->
    initial_part (glove_trace (events (left_hand n w2)))
                 (map retune (glove_trace (events (GloveTest.left_hand n w1)))).
Proof.
  induction n as [|n IH]; intros w1 w2 G; cbn [left_hand GloveTest.left_hand].
  - exists []. reflexivity.
  - rewrite !events_bind.
    destruct (shadows_left_hand_pass w1 w2 G) as (_ & E & G').
    pose proof (test_pass_returns _ test_left_hand_body_ends w1) as K.
    fold GloveTest.left_hand_pass in K. rewrite K.
    rewrite glove_trace_app, map_app, E.
    destruct (out (left_hand_pass w2)) as [[]| | | |];
      try (eexists; reflexivity).
    destruct (IH _ _ G') as (rest & R). exists rest.
    now rewrite glove_trace_app, R, app_assoc.
Qed.

Lemma right_loops_initial_part (n : nat) :
  forall w1 w2, same_gloves w1 w2 ->
    initial_part (glove_trace (events (right_hand n w2)))
                 (map retune (glove_trace (events (GloveTest.right_hand n w1)))).
Proof.
  induction n as [|n IH]; intros w1 w2 G; cbn [right_hand GloveTest.right_hand].
  - exists []. reflexivity.
  - rewrite !events_bind.
    destruct (shadows_right_hand_pass w1 w2 G) as (_ & E & G').
    pose proof (test_pass_returns _ test_right_hand_body_ends w1) as K.
    fold GloveTest.right_hand_pass in K. rewrite K.
    rewrite glove_trace_app, map_app, E.
    destruct (out (right_hand_pass w2)) as [[]| | | |];
      try (eexists; reflexivity).
    destruct (IH _ _ G') as (rest & R). exists rest.
    now rewrite glove_trace_app, R, app_assoc.
Qed.

(** X20: [glove_test.py] is a dry run of the input loops of [HEDO.py].  From
    the same state of the gloves, a pass of a loop of the test script and
    the pass of the same loop of the flight program make the same driver
    calls in the same order, up to the playback speed of the pulses (50 in
    the script, 60 in flight), whatever the links do and whatever the
    vehicle answers; and they leave the gloves in the same state.  Over any
    number of passes the driver calls of the flight program are an initial
    part of those of the script: the flight loop can be held up by the
    vehicle, never the script. *)
Theorem glove_test_mirrors_input_loops (n : nat) (w : World) :
  (map retune (glove_trace (events (GloveTest.left_hand_pass w)))
   = glove_trace (events (left_hand_pass w))
   /\ same_gloves (world (GloveTest.left_hand_pass w)) (world (left_hand_pass w)))
  /\ (map retune (glove_trace (events (GloveTest.right_hand_pass w)))
      = glove_trace (events (right_hand_pass w))
      /\ same_gloves (world (GloveTest.right_hand_pass w))
                     (world (right_hand_pass w)))
  /\ initial_part (glove_trace (events (left_hand n w)))
                  (map retune (glove_trace (events (GloveTest.left_hand n w))))
  /\ initial_part (glove_trace (events (right_hand n w)))
                  (map retune (glove_trace (events (GloveTest.right_hand n w)))).
Proof.
  split; [exact (proj2 (shadows_left_hand_pass w w (same_gloves_refl w)))|].
  split; [exact (proj2 (shadows_right_hand_pass w w (same_gloves_refl w)))|].
  split.
  - apply left_loops_initial_part, same_gloves_refl.
  - apply right_loops_initial_part, same_gloves_refl.
Qed.

(** X21: a disconnection never ends a loop of [glove_test.py], and nothing
    else does: every pass of either loop returns, so that the loops are
    still running after any number of passes.  (The loops of the flight
    program can be left waiting on the vehicle; these cannot.) *)
Theorem glove_test_loops_never_stop (n : nat) (w : World) :
  out (GloveTest.left_hand_pass w) = Ret tt
  /\ out (GloveTest.right_hand_pass w) = Ret tt
  /\ out (GloveTest.left_hand n w) = OutOfFuel
  /\ out (GloveTest.right_hand n w) = OutOfFuel.
Proof.
  split; [apply test_pass_returns, test_left_hand_body_ends|].
  split; [apply test_pass_returns, test_right_hand_body_ends|].
  split.
  - revert w. induction n as [|n IH]; intros w; cbn [GloveTest.left_hand];
      [reflexivity|].
    rewrite out_bind.
    pose proof (test_pass_returns _ test_left_hand_body_ends w) as K.
    fold GloveTest.left_hand_pass in K. rewrite K. apply IH.
  - revert w. induction n as [|n IH]; intros w; cbn [GloveTest.right_hand];
      [reflexivity|].
    rewrite out_bind.
    pose proof (test_pass_returns _ test_right_hand_body_ends w) as K.
    fold GloveTest.right_hand_pass in K. rewrite K. apply IH.
Qed.

(* ------------------------------------------------------------------ *)

Lemma mirrors_measure (st : CalState) : mirrors (GloveTest.measure st) (measure st).
Proof.
  unfold GloveTest.measure, measure.
  apply mirrors_bind.
  - unfold GloveTest.read_both, read_both, silence_both, print, sleep,
      Forte_SendHaptic, Forte_SilenceHaptics, Forte_GetEulerAngles.
    repeat mirror_step.
  - intros imus. cbv zeta. apply mirrors_bind; [|intros; mirror_step].
    destruct (within10 st (fst imus) (snd imus)); [|mirror_step].
    unfold GloveTest.commit, commit, GloveTest.pulse_all, pulse_all,
      silence_both, print, sleep, Forte_SelectHapticWave, Forte_SendHaptic,
      Forte_SilenceHaptics, Forte_CalibrateFlat, Forte_HomeIMU.
    repeat mirror_step.
Qed.

Lemma mirrors_announce :
  mirrors (GloveTest.announce ;; ret true) (announce ;; ret true).
Proof.
  unfold GloveTest.announce, announce, GloveTest.pulse_all, pulse_all,
    silence_both, print, sleep, Forte_SelectHapticWave, Forte_SendHaptic,
    Forte_SilenceHaptics.
  repeat mirror_step.
Qed.

Lemma mirrors_calibrate_pass (st : CalState) :
  mirrors (GloveTest.calibrate_pass st) (calibrate_pass st).
Proof.
  unfold GloveTest.calibrate_pass, calibrate_pass.
  destruct (Nat.eqb (initial st) 0).
  - cbv zeta. apply mirrors_bind.
    + apply mirrors_try_disconnected, mirrors_announce.
    + intros [|]; [|apply mirrors_ret].
      apply mirrors_try_disconnected, mirrors_measure.
  - apply mirrors_try_disconnected, mirrors_measure.
Qed.

Lemma mirrors_calibrate_loop (fuel : nat) :
  forall st, mirrors (GloveTest.calibrate_loop fuel st) (calibrate_loop fuel st).
Proof.
  induction fuel as [|fuel IH]; intros st;
    cbn [GloveTest.calibrate_loop calibrate_loop];
    destruct (Nat.eqb (neutralL st) 0 && Nat.eqb (neutralR st) 0);
    try apply mirrors_ret.
  - apply mirrors_stop.
  - apply mirrors_bind; [apply mirrors_calibrate_pass | exact IH].
Qed.

(** X22: the [calibrate] of [glove_test.py] is the [calibrate] of [HEDO.py]
    as far as the gloves can tell.  Observed for the same number of passes
    on the same gloves, the two end the same way, make the same driver
    calls in the same order up to the playback speed of the pulses, and
    leave the gloves in the same state, whatever the links do; they differ
    in what they print and in how long they sleep. *)
Theorem glove_test_mirrors_calibrate (fuel : nat) (w : World) :
  out (GloveTest.calibrate fuel w) = out (calibrate fuel w)
  /\ map retune (glove_trace (events (GloveTest.calibrate fuel w)))
     = glove_trace (events (calibrate fuel w))
  /\ same_gloves (world (GloveTest.calibrate fuel w)) (world (calibrate fuel w)).
Proof.
  apply (mirrors_calibrate_loop fuel (mkCalState 0 0 0 0 0 0 0 0 0) w w).
  apply same_gloves_refl.
Qed.

(* ------------------------------------------------------------------ *)

Lemma try_except_emit (e : Event) (m h : M unit) (w : World) :
  try_except (emit e ;; m) h w = (emit e ;; try_except m h) w.
Proof.
  unfold try_except, bind, emit. cbn [out world events].
  destruct (out (m w)) as [a|[]| | |] eqn:E; cbn [out world events];
    rewrite ?E; reflexivity.
Qed.

Lemma filter_none {A} (P : A -> bool) (l : list A) :
  forallb (fun a => negb (P a)) l = true -> filter P l = [].
Proof.
  induction l as [|a l IH]; cbn; [reflexivity|].
  destruct (P a); cbn; [discriminate | exact IH].
Qed.

Lemma haptic_pass (w : World) :
  out (HapticTest.pass w) = Ret tt
  /\ List.length (filter (is_out "Sending haptic pulse...")
                         (events (HapticTest.pass w))) = 1%nat
  /\ forallb right_glove_or_console (events (HapticTest.pass w)) = true.
Proof.
  unfold HapticTest.pass, HapticTest.pulse, HapticTest.disconnected, print,
    sleep, Forte_SelectHapticWave, Forte_SendHaptic, Forte_SilenceHaptics.
  rewrite try_except_emit.
  match goal with
  | |- context [bind (emit ?e) (fun _ => ?t)] => set (tail := t)
  end.
  rewrite out_bind, events_bind. cbn [emit out events world].
  assert (K : ends_in only_ret tail).
  { subst tail. apply (ei_try_except ret_or_raise); [repeat ei_step | repeat ei_step |].
    intros [] H1 H2; try reflexivity; try discriminate. now elim H2. }
  assert (Q : emits_only
                (fun e => negb (is_out "Sending haptic pulse..." e)) tail).
  { subst tail. repeat eo_step. }
  assert (R : emits_only right_glove_or_console tail).
  { subst tail. repeat eo_step. }
  specialize (K w). specialize (Q w). specialize (R w).
  split; [|split].
  - destruct (out (tail w)) as [[]| | | |]; try discriminate. reflexivity.
  - cbn [app filter is_out String.eqb Ascii.eqb Bool.eqb].
    now rewrite (filter_none _ _ Q).
  - cbn [app forallb right_glove_or_console andb]. exact R.
Qed.

(** X23: [haptic_test.py] keeps pulsing.  Whatever the link of the glove
    does, a disconnection ends neither the script nor its loop: after [n]
    passes it has announced [n] pulses and is still running.  It only ever
    drives the right glove. *)
Theorem haptic_test_keeps_pulsing (n : nat) (w : World) :
  out (HapticTest.main n w) = OutOfFuel
  /\ List.length (filter (is_out "Sending haptic pulse...")
                         (events (HapticTest.main n w))) = n
  /\ forallb right_glove_or_console (events (HapticTest.main n w)) = true.
Proof.
  revert w. induction n as [|n IH]; intros w; cbn [HapticTest.main].
  - repeat split.
  - rewrite out_bind, events_bind.
    destruct (haptic_pass w) as (O & C & R). rewrite O.
    destruct (IH (world (HapticTest.pass w))) as (O' & C' & R').
    split; [exact O'|]. split.
    + now rewrite filter_app, length_app, C, C'.
    + now rewrite forallb_app, R, R'.
Qed.
